(** * Routing and delivery engine of the IoT message router

    A shallow embedding of
      - messages/utils.py     ([normalize_nid], [nid_variants]),
      - messages/models.py    ([Group], [Message], [DeviceInbox]),
      - devices/models.py, accounts/models.py ([Device], [Owner]),
      - messages/services.py  ([MessageRoutingService.route_message]),
      - messages/tasks.py     ([deliver_webhook]),
      - devices/views.py      ([DeviceViewSet.acknowledge_message]),
    followed by the properties of the routing and delivery engine.

    Conventions.  Python [str] values are ASCII texts ([string]); Python
    [int] is [Z], without the limit that the interpreter may put on the
    length of decimal conversions; a Python [float] and a
    [double precision] value of the database are IEEE 754 binary64 numbers,
    computed with by the executable specification of the Standard Library
    ([SpecFloat]); a nullable column is an [option]; a database table is the list
    of its rows, a foreign key the primary key of the row it leads to; a
    timestamp is the [Z] read from the clock. *)

From Stdlib Require Import ZArith QArith List Bool Lia Ascii String.
From Stdlib Require Import DecimalString HexadecimalString ListSet.
From Stdlib Require Import DecimalPos HexadecimalPos Sorted.
From Stdlib Require SpecFloat.
Import ListNotations.

#[local] Open Scope string_scope.
#[local] Open Scope Z_scope.

(* ================================================================== *)
(** ** Python text primitives used by the source                       *)
(* ================================================================== *)

Module Py.

(** [str.isspace] on one ASCII character: TAB, LF, VT, FF, CR, the four
  separators FS, GS, RS, US, and the blank. *)
Definition isspace (c : ascii) : bool :=
let n := nat_of_ascii c in
((9 <=? n) && (n <=? 13))%nat || ((28 <=? n) && (n <=? 32))%nat.

Fixpoint lstrip (s : string) : string :=
match s with
| String c r => if isspace c then lstrip r else s
| EmptyString => EmptyString
end.

(** Removal of trailing white space: a character is dropped when it is
  white space and nothing but white space follows it. *)
Fixpoint rstrip (s : string) : string :=
match s with
| EmptyString => EmptyString
| String c r =>
    match rstrip r with
    | EmptyString => if isspace c then EmptyString else String c EmptyString
    | r' => String c r'
    end
end.

(** [s.strip()] *)
Definition strip (s : string) : string := rstrip (lstrip s).

(** [s.replace(c, '')] for a one-character pattern [c]. *)
Fixpoint remove_char (c : ascii) (s : string) : string :=
match s with
| EmptyString => EmptyString
| String a r =>
    if Ascii.eqb a c then remove_char c r else String a (remove_char c r)
end.

Definition lower_char (c : ascii) : ascii :=
let n := nat_of_ascii c in
if ((65 <=? n) && (n <=? 90))%nat then ascii_of_nat (n + 32) else c.

Definition upper_char (c : ascii) : ascii :=
let n := nat_of_ascii c in
if ((97 <=? n) && (n <=? 122))%nat then ascii_of_nat (n - 32) else c.

Fixpoint map_string (f : ascii -> ascii) (s : string) : string :=
match s with
| EmptyString => EmptyString
| String c r => String (f c) (map_string f r)
end.

(** [s.lower()] and [s.upper()] *)
Definition lower : string -> string := map_string lower_char.
Definition upper : string -> string := map_string upper_char.

(** [s.startswith(p)] *)
Definition startswith (s p : string) : bool := String.prefix p s.

(** Value of a character as a digit in base up to 36, as [int] reads it. *)
Definition digit_value (c : ascii) : option Z :=
let n := nat_of_ascii c in
if ((48 <=? n) && (n <=? 57))%nat then Some (Z.of_nat (n - 48))
else if ((97 <=? n) && (n <=? 122))%nat then Some (Z.of_nat (n - 87))
else if ((65 <=? n) && (n <=? 90))%nat then Some (Z.of_nat (n - 55))
else None.

Definition digit_in (base : Z) (c : ascii) : option Z :=
match digit_value c with
| Some d => if d <? base then Some d else None
| None => None
end.

(** The digit loop of [int(text, base)].  [prev_us] tells that the
  previous character was an underscore, [seen] that a digit was read.
  One underscore is allowed between two digits; the loop stops at the
  first character that is neither a digit of the base nor an
  underscore and hands the rest back. *)
Fixpoint scan_digits (base : Z) (s : string) (prev_us seen : bool) (acc : Z)
: option (Z * string) :=
match s with
| EmptyString =>
    if prev_us || negb seen then None else Some (acc, EmptyString)
| String c r =>
    if Ascii.eqb c "_"%char then
      if prev_us then None else scan_digits base r true seen acc
    else
      match digit_in base c with
      | Some d => scan_digits base r false true (acc * base + d)
      | None => if prev_us || negb seen then None else Some (acc, s)
      end
end.

(** White space as [int] skips it around a number in an ASCII text: the
  class of the C locale, that is TAB, LF, VT, FF, CR and the blank.  The
  separators FS, GS, RS and US, which [str.strip] removes, are not in
  it. *)
Definition Py_ISSPACE (c : ascii) : bool :=
let n := nat_of_ascii c in
((9 <=? n) && (n <=? 13))%nat || (n =? 32)%nat.

Fixpoint skip_spaces (s : string) : string :=
match s with
| String c r => if Py_ISSPACE c then skip_spaces r else s
| EmptyString => EmptyString
end.

(** After the optional sign: a ["0x"]/["0X"] prefix is skipped in base 16,
  together with one underscore; the digits may not start with an
  underscore. *)
Definition skip_prefix (base : Z) (s : string) : string :=
match s with
| String "0" (String x r) =>
    if (base =? 16) && (Ascii.eqb x "x" || Ascii.eqb x "X")%char then
      match r with
      | String "_" r' => r'
      | _ => r
      end
    else s
| _ => s
end.

Definition unsigned_literal (base : Z) (s : string) : option Z :=
match skip_prefix base s with
| String "_" _ => None
| body =>
    match scan_digits base body false false 0 with
    | Some (v, rest) =>
        match skip_spaces rest with
        | EmptyString => Some v
        | _ => None
        end
    | None => None
    end
end.

(** [int(text, base)] for [base] 10 or 16 on a [str]: [Some v] is the
  integer returned, [None] is [ValueError].  White space of the class
  [Py_ISSPACE] around the number is ignored, one sign is accepted. *)
Definition int_of (base : Z) (text : string) : option Z :=
match skip_spaces text with
| String "+" r => unsigned_literal base r
| String "-" r => option_map Z.opp (unsigned_literal base r)
| s => unsigned_literal base s
end.

(** [str(n)] for an [int]. *)
Definition str_of_int (n : Z) : string :=
DecimalString.NilZero.string_of_int (Z.to_int n).

Definition sign_text (n : Z) : string := if n <? 0 then "-" else "".

Definition hex_digits (n : Z) : string :=
HexadecimalString.NilZero.string_of_uint (N.to_hex_uint (Z.abs_N n)).

(** [hex(n)] : lower-case digits after ["0x"], the sign in front. *)
Definition hex (n : Z) : string := sign_text n ++ "0x" ++ hex_digits n.

(** [f"{n:X}"] : upper-case digits, no prefix. *)
Definition format_X (n : Z) : string := sign_text n ++ upper (hex_digits n).

(** The values a NID can arrive as: a column of the database is [None] or a
  text; the ["nid"] key of a JSON payload is absent or null ([PNone]),
  an integer or a text.  The other values of JSON (booleans, fractions,
  lists, objects) are left out. *)
Inductive value : Type :=
| PNone : value
| PInt : Z -> value
| PStr : string -> value.

(** Truth value of an object, as [or], [if] and [not] take it. *)
Definition truthy (v : value) : bool :=
match v with
| PNone => false
| PInt n => negb (n =? 0)
| PStr s => negb (String.eqb s "")
end.

(** [a or b] *)
Definition or_else (a b : value) : value := if truthy a then a else b.

(** [str(v)] for the values that are not [None]. *)
Definition str (v : value) : string :=
match v with
| PNone => "None"
| PInt n => str_of_int n
| PStr s => s
end.

Definition of_column (c : option string) : value :=
match c with
| Some s => PStr s
| None => PNone
end.

Definition value_eq_none (v : value) : {v = PNone} + {v <> PNone}.
Proof. destruct v; [left; reflexivity | right; discriminate | right; discriminate]. Defined.

End Py.

(* ================================================================== *)
(** ** Floating-point numbers                                          *)
(* ================================================================== *)

(** A Python [float], a [FloatField] and a [double precision] value:
    IEEE 754 binary64, with rounding to nearest, ties to even. *)
Module Float.

Definition t : Type := SpecFloat.spec_float.

Definition prec : Z := 53.
Definition emax : Z := 1024.

(** [float(n)] for an [int], as the operators do it to an [int] operand. *)
Definition of_int (n : Z) : t := SpecFloat.binary_normalize prec emax n 0 false.

(** [a * b], [a / b], [a + b], [a - b] and [abs(a)] *)
Definition mul (a b : t) : t := SpecFloat.SFmul prec emax a b.
Definition div (a b : t) : t := SpecFloat.SFdiv prec emax a b.
Definition add (a b : t) : t := SpecFloat.SFadd prec emax a b.
Definition sub (a b : t) : t := SpecFloat.SFsub prec emax a b.
Definition abs (a : t) : t := SpecFloat.SFabs a.

(** [a <= b] on [double precision] in PostgreSQL: the order of IEEE 754 on
    numbers and infinities, with NaN equal to NaN and above every other
    value. *)
Definition float8_le (a b : t) : bool :=
  match a, b with
  | SpecFloat.S754_nan, SpecFloat.S754_nan => true
  | SpecFloat.S754_nan, _ => false
  | _, SpecFloat.S754_nan => true
  | _, _ => SpecFloat.SFleb a b
  end.

(** The number that a float stands for, when it stands for one. *)
Definition value (a : t) : option Q :=
  match a with
  | SpecFloat.S754_zero _ => Some 0%Q
  | SpecFloat.S754_finite s m e =>
      let n := if s then Z.neg m else Z.pos m in
      Some (if 0 <=? e then inject_Z (n * 2 ^ e)
            else Qmake n (Z.to_pos (2 ^ (- e))))
  | _ => None
  end.

End Float.

(* ================================================================== *)
(** ** messages/utils.py                                               *)
(* ================================================================== *)

Definition normalize_nid (v : Py.value) : option Z :=
  match v with
  | Py.PNone => None
  | Py.PInt n => Some n
  | Py.PStr _ =>
      let text := Py.remove_char "-"%char (Py.strip (Py.str v)) in
      if String.eqb text "" then None
      else if Py.startswith (Py.lower text) "0x" then Py.int_of 16 text
      else Py.int_of 10 text
  end.

Definition add_variant (s : string) (variants : set string) : set string :=
  set_add string_dec s variants.

(** The [set] of the source is kept as a duplicate-free list; the source
    turns it into a list whose order it does not fix, and its callers only
    test it for emptiness and membership. *)
Definition nid_variants (v : Py.value) : list string :=
  match v with
  | Py.PNone => []
  | _ =>
      let nid_int := normalize_nid v in
      let raw_value := Py.str v in
      let variants := add_variant raw_value (empty_set string) in
      let variants := add_variant (Py.lower raw_value) variants in
      let variants := add_variant (Py.upper raw_value) variants in
      match nid_int with
      | Some n =>
          let variants := add_variant (Py.str_of_int n) variants in
          let variants := add_variant (Py.hex n) variants in
          let variants := add_variant (Py.upper (Py.hex n)) variants in
          let variants := add_variant ("0x" ++ Py.format_X n) variants in
          add_variant ("0X" ++ Py.format_X n) variants
      | None => variants
      end
  end.

(* ================================================================== *)
(** ** The models: messages/models.py, accounts/models.py,
       devices/models.py                                               *)
(* ================================================================== *)

Inductive GroupType : Type :=
  | PRIVATE | EXCLUSIVE | OPEN | DATA_LOGGING | ENHANCED | LOCATION.

Module Group.
Record t : Type := Build {
  group_id : Z;
  group_type : GroupType;
  nid : option string;
  radius : option Float.t   (* kilometers *)
}.

Definition uses_nid (g : t) : bool :=
  match group_type g with
  | PRIVATE | EXCLUSIVE | DATA_LOGGING | ENHANCED | LOCATION => true
  | OPEN => false
  end.

Definition uses_distance (g : t) : bool :=
  match group_type g with
  | OPEN | ENHANCED | LOCATION => true
  | PRIVATE | EXCLUSIVE | DATA_LOGGING => false
  end.
End Group.

Module Owner.
Record t : Type := Build {
  id : Z;
  is_staff : bool;
  radius_km : option Float.t
}.
End Owner.

(** A geographic point (SRID 4326): [x] is the longitude, [y] the latitude. *)
Record Point : Type := { x : Float.t; y : Float.t }.

Module Device.
Record t : Type := Build {
  device_id : Z;
  hid : string;
  location : option Point;
  webhook_url : option string;
  retry_limit : Z;
  owner : Owner.t;
  group : Group.t;
  nid : option string;
  active : bool;
  users : list Z        (* primary keys of the associated owners *)
}.
End Device.

Inductive MessageType : Type := ALERT | ALARM.

(** A JSON object, as far as routing reads it: keys with scalar values. *)
Definition Payload : Type := list (string * Py.value).

(** [payload.get(key)] *)
Fixpoint payload_get (p : Payload) (key : string) : Py.value :=
  match p with
  | [] => Py.PNone
  | (k, v) :: r => if String.eqb k key then v else payload_get r key
  end.

Module Message.
Record t : Type := Build {
  message_id : Z;
  type : MessageType;
  alert_type : option string;
  alarm_type : option string;
  payload : Payload;
  source_device : Z;       (* foreign key to Device *)
  timestamp : Z;
  user : option string;
  read : bool;
  last_read_at : option Z;
  last_modified_read : option Z;
  acknowledge_status : option string
}.

Definition is_alarm (m : t) : bool :=
  match type m with
  | ALARM => true
  | ALERT => false
  end.
End Message.

Inductive InboxStatus : Type := PENDING | DELIVERED | ACKNOWLEDGED | FAILED.

Module DeviceInbox.
Record t : Type := Build {
  id : Z;
  device : Z;              (* foreign key to Device *)
  message : Z;             (* foreign key to Message *)
  status : InboxStatus;
  delivery_attempts : Z;
  created_at : Z;
  delivered_at : option Z;
  acknowledged_at : option Z
}.

Definition set_status (s : InboxStatus) (e : t) : t :=
  Build (id e) (device e) (message e) s (delivery_attempts e)
        (created_at e) (delivered_at e) (acknowledged_at e).

Definition set_delivery_attempts (n : Z) (e : t) : t :=
  Build (id e) (device e) (message e) (status e) n
        (created_at e) (delivered_at e) (acknowledged_at e).

Definition set_delivered_at (ts : option Z) (e : t) : t :=
  Build (id e) (device e) (message e) (status e) (delivery_attempts e)
        (created_at e) ts (acknowledged_at e).

Definition set_acknowledged_at (ts : option Z) (e : t) : t :=
  Build (id e) (device e) (message e) (status e) (delivery_attempts e)
        (created_at e) (delivered_at e) ts.
End DeviceInbox.

(** A task handed to the broker: [deliver_webhook] for one inbox row,
    not to be run before [countdown] seconds have passed. *)
Record Task : Type := { task_inbox_id : Z; countdown : Z }.

(** The database, the broker and the number of clock readings so far. *)
Record World : Type := mkWorld {
  devices : list Device.t;
  messages : list Message.t;
  device_inbox : list DeviceInbox.t;
  inbox_seq : Z;            (* next value of the [AutoField] sequence *)
  broker : list Task;
  ticks : nat
}.

Definition with_inbox (tbl : list DeviceInbox.t) (w : World) : World :=
  mkWorld (devices w) (messages w) tbl (inbox_seq w) (broker w) (ticks w).

Definition with_messages (tbl : list Message.t) (w : World) : World :=
  mkWorld (devices w) tbl (device_inbox w) (inbox_seq w) (broker w) (ticks w).

Definition with_inbox_seq (n : Z) (w : World) : World :=
  mkWorld (devices w) (messages w) (device_inbox w) n (broker w) (ticks w).

(** [task.apply_async(args=[inbox_id], countdown=c)] *)
Definition apply_async (inbox_id c : Z) (w : World) : World :=
  mkWorld (devices w) (messages w) (device_inbox w) (inbox_seq w)
          (broker w ++ [ {| task_inbox_id := inbox_id; countdown := c |} ])
          (ticks w).

(** [task.delay(inbox_id)] is [apply_async] without options. *)
Definition delay (inbox_id : Z) (w : World) : World := apply_async inbox_id 0 w.

Inductive Exn : Type :=
  | IntegrityError
  | DoesNotExist
  | MultipleObjectsReturned.

Inductive Outcome (A : Type) : Type :=
  | Returned : A -> Outcome A
  | Raised : Exn -> Outcome A.
Arguments Returned {A} _.
Arguments Raised {A} _.

(** *** Queries *)

Definition same_pair (dev msg : Z) (e : DeviceInbox.t) : bool :=
  (DeviceInbox.device e =? dev) && (DeviceInbox.message e =? msg).

(** [DeviceInbox.objects.get(id=inbox_id)] *)
Definition inbox_get_by_id (inbox_id : Z) (w : World) : option DeviceInbox.t :=
  find (fun e => DeviceInbox.id e =? inbox_id) (device_inbox w).

(** [DeviceInbox.objects.get(device=device, message_id=message_id)] *)
Definition inbox_get (dev msg : Z) (w : World) : Outcome DeviceInbox.t :=
  match filter (same_pair dev msg) (device_inbox w) with
  | [] => Raised DoesNotExist
  | [e] => Returned e
  | _ :: _ :: _ => Raised MultipleObjectsReturned
  end.

Definition device_get (dev : Z) (w : World) : option Device.t :=
  find (fun d => Device.device_id d =? dev) (devices w).

Definition message_get (msg : Z) (w : World) : option Message.t :=
  find (fun m => Message.message_id m =? msg) (messages w).

(** [row.save()] on an existing row: the row with its primary key is
    replaced. *)
Definition inbox_save (e : DeviceInbox.t) (w : World) : World :=
  with_inbox
    (map (fun r => if DeviceInbox.id r =? DeviceInbox.id e then e else r)
         (device_inbox w)) w.

Definition message_save (m : Message.t) (w : World) : World :=
  with_messages
    (map (fun r => if Message.message_id r =? Message.message_id m then m else r)
         (messages w)) w.

(** Python truth value of a nullable text column. *)
Definition column_truthy (c : option string) : bool := Py.truthy (Py.of_column c).

Definition mem_string (s : string) (l : list string) : bool :=
  existsb (String.eqb s) l.

(** SQL [nid IN (...)]: a NULL column is in no list. *)
Definition nid_in (l : list string) (d : Device.t) : bool :=
  match Device.nid d with
  | Some n => mem_string n l
  | None => false
  end.

(* ================================================================== *)
(** ** The engine: services.py, tasks.py, views.py                     *)
(* ================================================================== *)

(** What one webhook call sends, and what the caller sees of it. *)
Record WebhookPayload : Type := {
  wp_message_id : Z;
  wp_type : MessageType;
  wp_alert_type : option string;
  wp_alarm_type : option string;
  wp_payload : Payload;
  wp_timestamp : Z;
  wp_source_device_hid : string;
  wp_user : option string
}.

(** [requests.post(url, json=payload, timeout=10, ...)] followed by
    [response.raise_for_status()]: the pair returns, raises a
    [requests.RequestException] (error status, connection error, timeout),
    or raises something else. *)
Inductive PostOutcome : Type :=
  | PostReturned
  | PostRequestException
  | PostOtherException.

Definition Network : Type := string -> WebhookPayload -> PostOutcome.

(** What a run of the [deliver_webhook] task ends with. *)
Inductive TaskResult : Type :=
  | Skipped_no_webhook_url
  | Delivered (inbox_id : Z)
  | Failed_max_retries (inbox_id : Z)
  | Retrying (inbox_id attempt : Z)
  | Error_not_found
  | Retry_raised.             (* [raise self.retry(exc=e, countdown=60)] *)

(** What [acknowledge_message] answers. *)
Inductive Response : Type :=
  | HTTP_200_acknowledged (message_id device_id : Z)
  | HTTP_403_FORBIDDEN
  | HTTP_404_NOT_FOUND
  | Uncaught (e : Exn).

Definition broadcast_values : list string :=
  ["0xFFFFFFFF"; "0xffffffff"; Py.str_of_int 0xFFFFFFFF].

Section Engine.

(** The clock: [clock k] is what the [k]-th reading of
    [timezone.now()] returns. *)
Variable clock : nat -> Z.

(** The distance in meters that the geospatial back end computes between
    two points, a [double precision] value. *)
Variable Distance : Point -> Point -> Float.t.

Definition timezone_now (w : World) : Z * World :=
  (clock (ticks w),
   mkWorld (devices w) (messages w) (device_inbox w) (inbox_seq w)
           (broker w) (S (ticks w))).

(** [DeviceInbox.objects.create(device=, message=, status=)].  The row
    takes the next value of the sequence and the current time; the insert
    is refused when the primary key or the pair of
    [unique_together = ['device', 'message']] is already there. *)
Definition inbox_create (dev msg : Z) (st : InboxStatus) (w : World)
  : Outcome DeviceInbox.t * World :=
  let (now, w1) := timezone_now w in
  let new_id := inbox_seq w1 in
  let w2 := with_inbox_seq (new_id + 1) w1 in
  if existsb (same_pair dev msg) (device_inbox w2)
     || existsb (fun e => DeviceInbox.id e =? new_id) (device_inbox w2)
  then (Raised IntegrityError, w2)
  else
    let e := DeviceInbox.Build new_id dev msg st 0 now None None in
    (Returned e, with_inbox (device_inbox w2 ++ [e]) w2).

(** *** MessageRoutingService.route_message *)

(** Step 1:
    [Device.objects.filter(group=group, active=True).exclude(device_id=...)] *)
Definition group_filtering (source_device : Device.t) (w : World)
  : list Device.t :=
  filter (fun d =>
            (Group.group_id (Device.group d)
               =? Group.group_id (Device.group source_device))
            && Device.active d
            && negb (Device.device_id d =? Device.device_id source_device))
         (devices w).

(** [message.payload.get('nid') or source_device.nid] *)
Definition message_nid (message : Message.t) (source_device : Device.t)
  : Py.value :=
  Py.or_else (payload_get (Message.payload message) "nid")
             (Py.of_column (Device.nid source_device)).

(** [Q(nid__in=nid_values) | Q(nid__in=broadcast_values)] *)
Definition nid_filter (nid_values : list string) (d : Device.t) : bool :=
  nid_in nid_values d || nid_in broadcast_values d.

(** Step 2 *)
Definition nid_filtering (message : Message.t) (source_device : Device.t)
           (candidates : list Device.t) : list Device.t :=
  let group := Device.group source_device in
  if Group.uses_nid group then
    let nid_values := nid_variants (message_nid message source_device) in
    match nid_values with
    | [] => candidates
    | _ :: _ => filter (nid_filter nid_values) candidates
    end
  else candidates.

(** [owner.radius_km if owner and owner.radius_km is not None
     else group.radius] *)
Definition radius_km (source_device : Device.t) : option Float.t :=
  match Owner.radius_km (Device.owner source_device) with
  | Some r => Some r
  | None => Group.radius (Device.group source_device)
  end.

(** [.annotate(distance=Distance('location', p)).filter(distance__lte=r)]:
    a row without location has no distance and is not kept. *)
Definition distance_lte (p : Point) (radius_meters : Float.t) (d : Device.t)
  : bool :=
  match Device.location d with
  | Some l => Float.float8_le (Distance l p) radius_meters
  | None => false
  end.

(** Step 3 *)
Definition distance_filtering (source_device : Device.t)
           (candidates : list Device.t) : list Device.t :=
  let group := Device.group source_device in
  match Group.uses_distance group, Device.location source_device with
  | true, Some p =>
      match radius_km source_device with
      | Some r =>
          let radius_meters := Float.mul r (Float.of_int 1000) in
          filter (distance_lte p radius_meters) candidates
      | None => candidates
      end
  | _, _ => candidates
  end.

Definition target_devices (message : Message.t) (source_device : Device.t)
           (w : World) : list Device.t :=
  distance_filtering source_device
    (nid_filtering message source_device
       (group_filtering source_device w)).

(** Step 5, the loop over [target_devices]. *)
Fixpoint inbox_population (message : Message.t) (targets : list Device.t)
         (inbox_entries : list DeviceInbox.t) (w : World)
  : Outcome (list DeviceInbox.t) * World :=
  match targets with
  | [] => (Returned inbox_entries, w)
  | device :: rest =>
      match inbox_create (Device.device_id device)
                         (Message.message_id message) PENDING w with
      | (Raised e, w1) => (Raised e, w1)
      | (Returned inbox_entry, w1) =>
          let w2 :=
            if column_truthy (Device.webhook_url device) then
              if Message.is_alarm message
              then delay (DeviceInbox.id inbox_entry) w1
              else apply_async (DeviceInbox.id inbox_entry) 0 w1
            else w1 in
          inbox_population message rest (inbox_entries ++ [inbox_entry]) w2
      end
  end.

Definition route_message (message : Message.t) (source_device : Device.t)
           (w : World) : Outcome (list DeviceInbox.t) * World :=
  inbox_population message (target_devices message source_device w) [] w.

(** *** deliver_webhook *)

Definition self_retry (inbox_id : Z) (w : World) : TaskResult * World :=
  (Retry_raised, apply_async inbox_id 60 w).

Definition deliver_webhook (post : Network) (inbox_id : Z) (w : World)
  : TaskResult * World :=
  match inbox_get_by_id inbox_id w with
  | None => (Error_not_found, w)
  | Some inbox =>
      match device_get (DeviceInbox.device inbox) w,
            message_get (DeviceInbox.message inbox) w with
      | Some device, Some message =>
          if negb (column_truthy (Device.webhook_url device)) then
            (Skipped_no_webhook_url, w)
          else
            match device_get (Message.source_device message) w with
            | None => self_retry inbox_id w
            | Some source =>
                let payload :=
                  {| wp_message_id := Message.message_id message;
                     wp_type := Message.type message;
                     wp_alert_type := Message.alert_type message;
                     wp_alarm_type := Message.alarm_type message;
                     wp_payload := Message.payload message;
                     wp_timestamp := Message.timestamp message;
                     wp_source_device_hid := Device.hid source;
                     wp_user := Message.user message |} in
                let url := Py.str (Py.of_column (Device.webhook_url device)) in
                match post url payload with
                | PostReturned =>
                    let inbox := DeviceInbox.set_status DELIVERED inbox in
                    let (now, w1) := timezone_now w in
                    let inbox := DeviceInbox.set_delivered_at (Some now) inbox in
                    (Delivered inbox_id, inbox_save inbox w1)
                | PostRequestException =>
                    let inbox :=
                      DeviceInbox.set_delivery_attempts
                        (DeviceInbox.delivery_attempts inbox + 1) inbox in
                    if DeviceInbox.delivery_attempts inbox
                         >=? Device.retry_limit device then
                      let inbox := DeviceInbox.set_status FAILED inbox in
                      (Failed_max_retries inbox_id, inbox_save inbox w)
                    else
                      let retry_delay := 2 ^ DeviceInbox.delivery_attempts inbox in
                      let w1 := inbox_save inbox w in
                      (Retrying inbox_id (DeviceInbox.delivery_attempts inbox),
                       apply_async inbox_id retry_delay w1)
                | PostOtherException => self_retry inbox_id w
                end
            end
      | _, _ => self_retry inbox_id w
      end
  end.

(** The worker takes the oldest task of the broker and runs it; [posts]
    gives the behaviour of the network at each run. *)
Definition worker_step (post : Network) (w : World)
  : option (TaskResult * World) :=
  match broker w with
  | [] => None
  | t :: rest =>
      Some (deliver_webhook post (task_inbox_id t)
              (mkWorld (devices w) (messages w) (device_inbox w)
                       (inbox_seq w) rest (ticks w)))
  end.

Fixpoint worker_run (posts : list Network) (w : World) : World :=
  match posts with
  | [] => w
  | post :: later =>
      match worker_step post w with
      | None => w
      | Some (_, w1) => worker_run later w1
      end
  end.

(** *** DeviceViewSet.acknowledge_message *)

(** [has_permission(device, user)] *)
Definition has_permission (device : Device.t) (user : Owner.t) : bool :=
  Owner.is_staff user
  || (Owner.id user =? Owner.id (Device.owner device))
  || existsb (Z.eqb (Owner.id user)) (Device.users device).

(** The view once [get_object()] has found [device]; [message_id] is the
    number in the URL. *)
Definition acknowledge_message (user : Owner.t) (device : Device.t)
           (message_id : Z) (w : World) : Response * World :=
  if negb (has_permission device user) then (HTTP_403_FORBIDDEN, w)
  else
    match inbox_get (Device.device_id device) message_id w with
    | Raised DoesNotExist => (HTTP_404_NOT_FOUND, w)
    | Raised e => (Uncaught e, w)
    | Returned inbox_entry =>
        let inbox_entry := DeviceInbox.set_status ACKNOWLEDGED inbox_entry in
        let (now, w1) := timezone_now w in
        let inbox_entry :=
          DeviceInbox.set_acknowledged_at (Some now) inbox_entry in
        let w2 := inbox_save inbox_entry w1 in
        match message_get (DeviceInbox.message inbox_entry) w2 with
        | None => (Uncaught DoesNotExist, w2)
        | Some message =>
            let (lra, w3) :=
              match Message.last_read_at message with
              | None => let (now, w') := timezone_now w2 in (Some now, w')
              | Some ts => (Some ts, w2)
              end in
            let (now, w4) := timezone_now w3 in
            let message :=
              Message.Build (Message.message_id message)
                (Message.type message) (Message.alert_type message)
                (Message.alarm_type message) (Message.payload message)
                (Message.source_device message) (Message.timestamp message)
                (Message.user message)
                true lra (Some now) (Some "YES") in
            (HTTP_200_acknowledged message_id (Device.device_id device),
             message_save message w4)
        end
    end.

End Engine.

(* ================================================================== *)
(** ** The normalizer in the words of the specification                *)
(* ================================================================== *)

(** "Strips hyphen separators and whitespace": the text without its
    hyphens and without its white space. *)
Definition is_separator (c : ascii) : bool :=
  Ascii.eqb c "-"%char || Py.isspace c.

Fixpoint strip_separators (raw : string) : string :=
  match raw with
  | EmptyString => EmptyString
  | String c r =>
      if is_separator c then strip_separators r
      else String c (strip_separators r)
  end.

(** The place of a character in an alphabet, counted from [k]. *)
Fixpoint place_in (alphabet : string) (c : ascii) (k : Z) : option Z :=
  match alphabet with
  | EmptyString => None
  | String a rest =>
      if Ascii.eqb a c then Some k else place_in rest c (k + 1)
  end.

(** The digits of base 10, and those of base 16 with the letters in
    either case. *)
Definition decimal_digit (c : ascii) : option Z :=
  place_in "0123456789" c 0.

Definition hex_digit (c : ascii) : option Z :=
  match place_in "0123456789abcdef" c 0 with
  | Some d => Some d
  | None => place_in "ABCDEF" c 10
  end.

Definition digit_of (base : Z) (c : ascii) : option Z :=
  if base =? 16 then hex_digit c else decimal_digit c.

(** The number that a run of digits denotes in the base, the most
    significant digit first; a text with any other character in it
    denotes none. *)
Fixpoint digits_value (base : Z) (digits : string) (acc : Z) : option Z :=
  match digits with
  | EmptyString => Some acc
  | String c r =>
      match digit_of base c with
      | Some d => digits_value base r (acc * base + d)
      | None => None
      end
  end.

(** "Parses as base-16 / base-10": a text that is not a run of at least
    one digit is a parse failure. *)
Definition parse (base : Z) (digits : string) : option Z :=
  match digits with
  | EmptyString => None
  | _ => digits_value base digits 0
  end.

(** [normalize(raw)] for a text: strips hyphen separators and
    whitespace; if the cleaned text has a [0x]/[0X] prefix, parses as
    base 16, else base 10; null on empty input or parse failure. *)
Definition normalize_spec (raw : string) : option Z :=
  let text := strip_separators raw in
  if String.eqb text "" then None
  else
    match text with
    | String "0" (String "x" digits) => parse 16 digits
    | String "0" (String "X" digits) => parse 16 digits
    | _ => parse 10 text
    end.

(** *** What the source does to a text before it reads it *)

(** The text that [normalize_nid] hands to [int]: surrounding white
    space is trimmed, then the hyphens are taken out, in this order. *)
Definition cleaned (raw : string) : string :=
  Py.remove_char "-"%char (Py.strip raw).

Definition has_hex_prefix (text : string) : bool :=
  String.prefix "0x" text || String.prefix "0X" text.

(** A text in which no white space, underscore or plus sign is left. *)
Definition plain_char (c : ascii) : bool :=
  negb (Py.isspace c || Ascii.eqb c "_"%char || Ascii.eqb c "+"%char).

Fixpoint plain_text (s : string) : bool :=
  match s with
  | EmptyString => true
  | String c r => plain_char c && plain_text r
  end.

(** A text of white space only. *)
Fixpoint all_space (s : string) : bool :=
  match s with
  | EmptyString => true
  | String c r => Py.isspace c && all_space r
  end.

(** *** Step C in the words of the specification *)


(** The broadcast sentinel as an effective NID: the number itself or a
    text that normalizes to it. *)
Definition is_broadcast (v : Py.value) : Prop :=
  normalize_nid v = Some 0xFFFFFFFF.

(* ================================================================== *)
(** ** Notions the properties are stated with                          *)
(* ================================================================== *)

(** Number of inbox rows of one (device, message) pair. *)
Definition count_pair (dev msg : Z) (tbl : list DeviceInbox.t) : nat :=
  List.length (filter (same_pair dev msg) tbl).

(** The sequence of the primary key is ahead of every row. *)
Definition seq_fresh (w : World) : Prop :=
  forall e, In e (device_inbox w) -> DeviceInbox.id e < inbox_seq w.

(** Primary keys of the inbox rows are pairwise distinct. *)
Definition pk_unique (w : World) : Prop :=
  NoDup (map DeviceInbox.id (device_inbox w)).

(** The foreign keys of an inbox row lead to rows. *)
Definition fk_message (e : DeviceInbox.t) (w : World) : Prop :=
  message_get (DeviceInbox.message e) w <> None.

(** The network answers every call with a transport failure. *)
Definition transport_fails (post : Network) : Prop :=
  forall url payload, post url payload = PostRequestException.

(** [route_message] called [n] times in a row for the same message, the
    answers (lists of entries or exceptions) left aside. *)
Fixpoint route_times (clock : nat -> Z) (Distance : Point -> Point -> Float.t)
         (n : nat) (message : Message.t) (source_device : Device.t)
         (w : World) : World :=
  match n with
  | O => w
  | S k =>
      route_times clock Distance k message source_device
        (snd (route_message clock Distance message source_device w))
  end.

(** What an entry is once routing has created it: pending and never
    tried. *)
Definition fresh_entry (e : DeviceInbox.t) : Prop :=
  DeviceInbox.status e = PENDING /\ DeviceInbox.delivery_attempts e = 0.

(** What one [DeviceInbox.objects.create] does to the inbox: it is refused
    and the table stays, or the pair had no row and gets a fresh one at the
    end of the table. *)
Inductive created (dev msg : Z) (w : World)
  : Outcome DeviceInbox.t -> World -> Prop :=
| created_refused w' :
    device_inbox w' = device_inbox w ->
    created dev msg w (Raised IntegrityError) w'
| created_row e w' :
    existsb (same_pair dev msg) (device_inbox w) = false ->
    DeviceInbox.device e = dev ->
    DeviceInbox.message e = msg ->
    fresh_entry e ->
    device_inbox w' = (device_inbox w ++ [e])%list ->
    created dev msg w (Returned e) w'.

(** A message has been routed from a source when its first target, if it
    has one, holds an entry for it. *)
Definition routed (Distance : Point -> Point -> Float.t) (message : Message.t)
           (source_device : Device.t) (w : World) : Prop :=
  match target_devices Distance message source_device w with
  | [] => True
  | d :: _ =>
      existsb (same_pair (Device.device_id d) (Message.message_id message))
              (device_inbox w) = true
  end.

(** A text without white space at its end and without hyphen, that starts
    with a digit of the base and whose digits give [v]. *)
Definition plain_digits (base : Z) (s : string) (v : Z) : Prop :=
(exists c r, s = String c r /\ Py.digit_in base c <> None)
/\ Py.rstrip s = s
/\ Py.remove_char "-" s = s
/\ Py.scan_digits base s false false 0 = Some (v, "").

(* ================================================================== *)
(** ** Sample data                                                     *)
(* ================================================================== *)

Module Sample.

Definition clock (k : nat) : Z := 1000 + Z.of_nat k.

(** A number given as a decimal fraction [n / d], as [float] reads it. *)
Definition fraction (n d : Z) : Float.t :=
  Float.div (Float.of_int n) (Float.of_int d).

(** A flat stand-in for the geodesic distance: 111195 meters for each
    degree of longitude and of latitude. *)
Definition Distance (p q : Point) : Float.t :=
  Float.mul (Float.add (Float.abs (Float.sub (x p) (x q)))
                       (Float.abs (Float.sub (y p) (y q))))
            (Float.of_int 111195).

Definition private_group : Group.t :=
  Group.Build 1 PRIVATE (Some "0x123456") None.

Definition location_group : Group.t :=
  Group.Build 2 LOCATION (Some "0xFFFFFFFF") (Some (Float.of_int 1)).

Definition bare_location_group : Group.t :=
  Group.Build 3 LOCATION None None.

Definition alice : Owner.t := Owner.Build 1 false None.
Definition bob : Owner.t := Owner.Build 2 false (Some (fraction 1 2)).

Definition device (pk : Z) (h : string) (loc : option Point)
           (url : option string) (limit : Z) (o : Owner.t) (g : Group.t)
           (n : option string) : Device.t :=
  Device.Build pk h loc url limit o g n true [].

Definition whole (n : Z) : Float.t := Float.of_int n.

Definition at_ (lon lat : Float.t) : option Point :=
  Some {| x := lon; y := lat |}.

(** A private group: the source [dev_a]; [dev_b] and [dev_d] with the same
    NID in hexadecimal and decimal form, [dev_d] with an empty webhook URL
    and retry limit 0; [dev_c] with another NID. *)
Definition dev_a := device 1 "A" None None 3 alice private_group (Some "1193046").
Definition dev_b := device 2 "B" None (Some "http://b/hook") 3 alice private_group (Some "0x123456").
Definition dev_c := device 3 "C" None None 3 alice private_group (Some "9999999").
Definition dev_d := device 4 "D" None (Some "") 0 alice private_group (Some "1193046").

(** A device that carries the broadcast sentinel, in the same group. *)
Definition dev_s := device 5 "S" None None 3 alice private_group (Some "4294967295").

(** A device of the same group with the NID 0, not registered in the
    sample worlds. *)
Definition dev_o := device 7 "O" None None 3 alice private_group (Some "0").

(** A location group with radius 1 km. *)
Definition loc_a := device 11 "LA" (at_ (whole 0) (whole 0)) None 3 alice location_group (Some "4294967295").
Definition loc_b := device 12 "LB" (at_ (fraction 1 1000) (fraction 1 1000)) None 3 alice location_group (Some "4294967295").
Definition loc_d := device 13 "LD" (at_ (whole 1) (whole 1)) None 3 alice location_group (Some "4294967295").
Definition loc_e := device 14 "LE" None None 3 alice location_group (Some "4294967295").

(** A location group without radius and without NID on its devices. *)
Definition bare_a := device 21 "BA" (at_ (whole 0) (whole 0)) None 3 alice bare_location_group None.
Definition bare_b := device 22 "BB" (at_ (whole 50) (whole 50)) None 3 alice bare_location_group None.

Definition message (pk : Z) (ty : MessageType) (p : Payload) (src : Z)
  : Message.t :=
  Message.Build pk ty None None p src 900 None false None None None.

Definition msg1 := message 1 ALERT [("test", Py.PStr "data")] 1.
Definition msg2 := message 2 ALARM [("nid", Py.PInt 0)] 1.
Definition msg3 := message 3 ALERT [] 21.

Definition all_devices : list Device.t :=
  [dev_a; dev_b; dev_c; dev_d; dev_s; loc_a; loc_b; loc_d; loc_e;
   bare_a; bare_b].

Definition world0 : World :=
  mkWorld all_devices [msg1; msg2; msg3] [] 1 [] 0.

Definition entry (pk dev msg : Z) (st : InboxStatus) (n : Z)
           (ack : option Z) : DeviceInbox.t :=
  DeviceInbox.Build pk dev msg st n 950 None ack.

(** [dev_b] holds a fresh entry for [msg1] and its first delivery
    attempt is scheduled. *)
Definition world_pending : World :=
  mkWorld all_devices [msg1; msg2; msg3]
          [entry 1 2 1 PENDING 0 None] 2
          [ {| task_inbox_id := 1; countdown := 0 |} ] 0.

(** [dev_z] has retry limit 0 and a webhook; it holds a fresh entry for
    [msg1]. *)
Definition dev_z := device 6 "Z" None (Some "http://z/hook") 0 alice private_group (Some "1193046").

Definition world_zero : World :=
  mkWorld (dev_z :: all_devices) [msg1; msg2; msg3]
          [entry 1 6 1 PENDING 0 None] 2
          [ {| task_inbox_id := 1; countdown := 0 |} ] 0.

(** [dev_b] has acknowledged [msg1] at time 960; [dev_d] holds entries in
    the states delivered and failed. *)
Definition msg1_read : Message.t :=
  Message.Build 1 ALERT None None [("test", Py.PStr "data")] 1 900 None
                true (Some 960) (Some 960) (Some "YES").

Definition world_acked : World :=
  mkWorld all_devices [msg1_read; msg2; msg3]
          [entry 1 2 1 ACKNOWLEDGED 0 (Some 960);
           entry 2 4 1 DELIVERED 0 None;
           entry 3 4 2 FAILED 3 None] 4 [] 0.

Definition failing : Network := fun _ _ => PostRequestException.

End Sample.

(* ================================================================== *)
(** ** The rest of the engine and of its callers                       *)
(* ================================================================== *)

(** *** services.py: the devices and owners in network range *)

(** [MessageRoutingService.get_devices_in_network_range(device)] *)
Definition get_devices_in_network_range (Distance : Point -> Point -> Float.t)
           (device : Device.t) (w : World) : list Device.t :=
  let group := Device.group device in
  let exclude :=
    filter (fun d => negb (Device.device_id d =? Device.device_id device)) in
  let candidates :=
    filter (fun d => (Group.group_id (Device.group d) =? Group.group_id group)
                     && Device.active d)
           (devices w) in
  let candidates :=
    if Group.uses_nid group && column_truthy (Device.nid device) then
      let nid_values := nid_variants (Py.of_column (Device.nid device)) in
      match nid_values with
      | [] => candidates
      | _ :: _ => filter (nid_filter nid_values) candidates
      end
    else candidates in
  match Group.uses_distance group, Device.location device with
  | true, Some p =>
      match radius_km device with
      | None => exclude candidates
      | Some r =>
          let radius_meters := Float.mul r (Float.of_int 1000) in
          exclude (filter (distance_lte Distance p radius_meters) candidates)
      end
  | _, _ => exclude candidates
  end.

(** [all_owners.add(owner)] on a set of model instances, which are equal
    when their primary keys are. *)
Fixpoint owner_set_add (o : Owner.t) (s : list Owner.t) : list Owner.t :=
  match s with
  | [] => [o]
  | o' :: r =>
      if Owner.id o' =? Owner.id o then s else o' :: owner_set_add o r
  end.

(** [MessageRoutingService.get_owners_in_network_range(owner_id)], over
    the table [owners]: nothing for an owner that is not there, else the
    owners of the devices in range of the active devices of the owner. *)
Definition get_owners_in_network_range (Distance : Point -> Point -> Float.t)
           (owners : list Owner.t) (owner_id : Z) (w : World)
  : list Owner.t :=
  match find (fun o => Owner.id o =? owner_id) owners with
  | None => []
  | Some owner =>
      let own_devices :=
        filter (fun d => (Owner.id (Device.owner d) =? Owner.id owner)
                         && Device.active d)
               (devices w) in
      fold_left
        (fun all_owners device =>
           fold_left
             (fun all_owners network_device =>
                owner_set_add (Device.owner network_device) all_owners)
             (get_devices_in_network_range Distance device w)
             all_owners)
        own_devices []
  end.

(** *** tasks.py: what a run of the worker leaves in the broker *)

(** [worker_run] with the answers of the tasks kept. *)
Fixpoint worker_log (clock : nat -> Z) (posts : list Network) (w : World)
  : list TaskResult :=
  match posts with
  | [] => []
  | post :: later =>
      match worker_step clock post w with
      | None => []
      | Some (r, w1) => r :: worker_log clock later w1
      end
  end.

(** *** devices/views.py: the views on the inbox of a device *)

(** [DeviceViewSet.get_queryset()] for the user of the request. *)
Definition get_queryset (user : Owner.t) (w : World) : list Device.t :=
  if Owner.is_staff user then filter Device.active (devices w)
  else
    filter (fun d =>
              ((Owner.id (Device.owner d) =? Owner.id user)
               || existsb (Z.eqb (Owner.id user)) (Device.users d))
              && Device.active d)
           (devices w).

(** [self.get_object()]: the device with primary key [pk] among
    [get_queryset()]; [None] stands for [Http404]. *)
Definition get_object (user : Owner.t) (pk : Z) (w : World)
  : option Device.t :=
  find (fun d => Device.device_id d =? pk) (get_queryset user w).

(** [ordering = ['-created_at']]: the rows by falling time of creation,
    rows of the same time in the order of the table. *)
Fixpoint insert_by_created_at (e : DeviceInbox.t) (l : list DeviceInbox.t)
  : list DeviceInbox.t :=
  match l with
  | [] => [e]
  | r :: rest =>
      if DeviceInbox.created_at r <? DeviceInbox.created_at e
      then e :: l
      else r :: insert_by_created_at e rest
  end.

Definition order_by_created_at_desc (l : list DeviceInbox.t)
  : list DeviceInbox.t :=
  fold_left (fun sorted e => insert_by_created_at e sorted) l [].

(** The query parameters of [inbox]: each is absent or a text. *)
Record InboxParams : Type := {
  param_user : option string;
  param_nid : option string;
  param_hid : option string
}.

Definition no_params : InboxParams :=
  {| param_user := None; param_nid := None; param_hid := None |}.

(** [queryset.filter(field=wanted)] when the parameter counts as true. *)
Definition param_filter (param : option string)
           (field : DeviceInbox.t -> option string)
           (rows : list DeviceInbox.t) : list DeviceInbox.t :=
  if column_truthy param
  then filter (fun e => match field e, param with
                        | Some have, Some wanted => String.eqb have wanted
                        | _, _ => false
                        end) rows
  else rows.

(** The lookups [message__user], [device__nid] and [device__hid] of an
    inbox row, across its foreign keys. *)
Definition message__user (w : World) (e : DeviceInbox.t) : option string :=
  match message_get (DeviceInbox.message e) w with
  | Some m => Message.user m
  | None => None
  end.

Definition device__nid (w : World) (e : DeviceInbox.t) : option string :=
  match device_get (DeviceInbox.device e) w with
  | Some d => Device.nid d
  | None => None
  end.

Definition device__hid (w : World) (e : DeviceInbox.t) : option string :=
  match device_get (DeviceInbox.device e) w with
  | Some d => Some (Device.hid d)
  | None => None
  end.

(** The rows that [inbox] answers with for [device]. *)
Definition inbox_rows (device : Device.t) (params : InboxParams) (w : World)
  : list DeviceInbox.t :=
  let queryset :=
    filter (fun e => (DeviceInbox.device e =? Device.device_id device)
                     && match DeviceInbox.status e with
                        | PENDING => true
                        | _ => false
                        end)
           (device_inbox w) in
  let queryset := param_filter (param_user params) (message__user w) queryset in
  let queryset := param_filter (param_nid params) (device__nid w) queryset in
  let queryset := param_filter (param_hid params) (device__hid w) queryset in
  order_by_created_at_desc queryset.

(** What the views on one device answer: the rows of [inbox] (before
    serialization), the device of [device_by_hid], 403 or 404. *)
Inductive ViewResponse (A : Type) : Type :=
  | View_200 : A -> ViewResponse A
  | View_403 : ViewResponse A
  | View_404 : ViewResponse A.
Arguments View_200 {A} _.
Arguments View_403 {A}.
Arguments View_404 {A}.

(** [DeviceViewSet.inbox], from [get_object()] on. *)
Definition inbox (user : Owner.t) (pk : Z) (params : InboxParams) (w : World)
  : ViewResponse (list DeviceInbox.t) :=
  match get_object user pk w with
  | None => View_404
  | Some device =>
      if negb (has_permission device user) then View_403
      else View_200 (inbox_rows device params w)
  end.

(** [DeviceViewSet.acknowledge_message], from [get_object()] on. *)
Definition acknowledge_view (clock : nat -> Z) (user : Owner.t) (pk : Z)
           (message_id : Z) (w : World) : Response * World :=
  match get_object user pk w with
  | None => (HTTP_404_NOT_FOUND, w)
  | Some device => acknowledge_message clock user device message_id w
  end.

(** [DeviceViewSet.device_by_hid]: [queryset.get(hid=hid)] finds one
    device, none, or several. *)
Definition device_by_hid (user : Owner.t) (hid : string) (w : World)
  : Outcome (ViewResponse Device.t) :=
  match filter (fun d => String.eqb (Device.hid d) hid) (get_queryset user w)
  with
  | [] => Returned View_404
  | [device] =>
      if negb (has_permission device user) then Returned View_403
      else Returned (View_200 device)
  | _ :: _ :: _ => Raised MultipleObjectsReturned
  end.

(** *** devices/models.py: the users of a device *)

Definition MAX_USERS : nat := 6.

(** [Device.add_user(user)]: [None] stands for [ValueError]. *)
Definition add_user (user : Z) (device : Device.t) : option Device.t :=
  if (MAX_USERS <=? List.length (Device.users device))%nat then None
  else if negb (existsb (Z.eqb user) (Device.users device)) then
    Some (Device.Build (Device.device_id device) (Device.hid device)
            (Device.location device) (Device.webhook_url device)
            (Device.retry_limit device) (Device.owner device)
            (Device.group device) (Device.nid device) (Device.active device)
            (Device.users device ++ [user]))
  else Some device.

(** A run of [add_user] calls, a refused call leaving the device as it
    is. *)
Fixpoint add_users (users : list Z) (device : Device.t) : Device.t :=
  match users with
  | [] => device
  | u :: rest =>
      match add_user u device with
      | Some device' => add_users rest device'
      | None => add_users rest device
      end
  end.

(** [Device.get_user_ids()] *)
Definition get_user_ids (device : Device.t) : list Z :=
  firstn MAX_USERS (Device.users device).

(** *** devices/serializers.py: the NID of a device at registration *)

Inductive Validated (A : Type) : Type :=
  | Valid : A -> Validated A
  | ValidationError : Validated A.
Arguments Valid {A} _.
Arguments ValidationError {A}.

Definition MAX_NID : Z := 0xFFFFFFFF.

(** [DeviceSerializer.validate_nid(value)] *)
Definition validate_nid (value : option string) : Validated (option string) :=
  match value with
  | None => Valid None
  | Some v =>
      if String.eqb (Py.strip v) "" then Valid None
      else if Py.truthy (Py.PStr v) then
        let value := Py.strip v in
        let value_clean := Py.remove_char "-"%char value in
        if Py.startswith value_clean "0x" || Py.startswith value_clean "0X"
        then
          match Py.int_of 16 value_clean with
          | Some nid_int =>
              if nid_int >? MAX_NID then ValidationError
              else Valid (Some (Py.str_of_int nid_int))
          | None => ValidationError
          end
        else
          match Py.int_of 10 value_clean with
          | Some nid_int =>
              if (nid_int <? 0) || (nid_int >? MAX_NID) then ValidationError
              else Valid (Some (Py.str_of_int nid_int))
          | None => ValidationError
          end
      else Valid (Some v)
  end.

(** *** devices/serializers.py: the propagate object of a device *)

Inductive PropagateType : Type := communal | radial | enhance.

Record Propagate : Type := {
  propagate_type : PropagateType;
  propagate_nid : option string;
  propagate_radius : option Float.t
}.

(** [obj.nid or group.nid] *)
Definition nid_or (nid group_nid : option string) : option string :=
  if column_truthy nid then nid else group_nid.

(** [DeviceSerializer.get_propagate(obj)]; every device has a group. *)
Definition get_propagate (obj : Device.t) : option Propagate :=
  let group := Device.group obj in
  match Group.group_type group with
  | PRIVATE | EXCLUSIVE | DATA_LOGGING =>
      Some {| propagate_type := communal;
              propagate_nid := nid_or (Device.nid obj) (Group.nid group);
              propagate_radius := None |}
  | OPEN =>
      Some {| propagate_type := radial;
              propagate_nid := None;
              propagate_radius := Group.radius group |}
  | ENHANCED =>
      Some {| propagate_type := enhance;
              propagate_nid := nid_or (Device.nid obj) (Group.nid group);
              propagate_radius := Group.radius group |}
  | LOCATION =>
      Some {| propagate_type := enhance;
              propagate_nid := Some "0xFFFFFFFF";
              propagate_radius := Group.radius group |}
  end.

(** *** utils.py: the default groups *)

(** A row of the table of groups: the columns of [Group] that routing
    reads, and the description. *)
Record GroupRow : Type := {
  row_group : Group.t;
  row_description : option string
}.

Record GroupTable : Type := {
  group_rows : list GroupRow;
  group_seq : Z
}.

Definition DEFAULT_GROUPS : list (GroupType * string) :=
  [ (PRIVATE, "Private group (uses NID, no distance).");
    (EXCLUSIVE, "Exclusive group (uses NID, no distance).");
    (OPEN, "Open group (uses distance only).");
    (DATA_LOGGING, "Data Logger group (uses NID, no distance).");
    (ENHANCED, "Enhanced group (uses NID and distance).");
    (LOCATION, "Location group (uses NID and distance).") ].

(** [Group.objects.create(group_type=, description=)] *)
Definition group_create (gt : GroupType) (description : string)
           (t : GroupTable) : GroupTable :=
  {| group_rows :=
       group_rows t
       ++ [ {| row_group := Group.Build (group_seq t) gt None None;
               row_description := Some description |} ];
     group_seq := group_seq t + 1 |}.

(** [ensure_default_groups()] *)
Definition ensure_default_groups (t : GroupTable) : bool * GroupTable :=
  match group_rows t with
  | _ :: _ => (false, t)
  | [] =>
      (true,
       fold_left (fun t gd => group_create (fst gd) (snd gd) t)
                 DEFAULT_GROUPS t)
  end.

(** *** Notions for the properties of these functions *)

(** What routing reads of a message: its key and the NID in its
    payload. *)
Definition same_routing_input (m m' : Message.t) : Prop :=
  Message.message_id m = Message.message_id m'
  /\ payload_get (Message.payload m) "nid"
     = payload_get (Message.payload m') "nid".

(** The tasks that routing schedules for the created entries: one for
    each target with a webhook. *)
Fixpoint tasks_for (targets : list Device.t) (entries : list DeviceInbox.t)
  : list Task :=
  match targets, entries with
  | d :: ds, e :: es =>
      (if column_truthy (Device.webhook_url d)
       then [ {| task_inbox_id := DeviceInbox.id e; countdown := 0 |} ]
       else []) ++ tasks_for ds es
  | _, _ => []
  end.

(** The network lets every call through. *)
Definition post_succeeds (post : Network) : Prop :=
  forall url payload, post url payload = PostReturned.

(** The call fails, but not in transport. *)
Definition post_breaks (post : Network) : Prop :=
  forall url payload, post url payload = PostOtherException.

Module Fixture.

Definition carol : Owner.t := Owner.Build 3 false None.
Definition admin : Owner.t := Owner.Build 9 true None.

(** A device of [alice] that is switched off, and one that [carol] is a
    user of. *)
Definition dev_off : Device.t :=
  Device.Build 40 "OFF" None None 3 Sample.alice Sample.private_group
               (Some "1193046") false [].
Definition dev_shared : Device.t :=
  Device.Build 41 "SH" None (Some "http://sh/hook") 3 Sample.alice
               Sample.private_group (Some "1193046") true [3].

Definition world : World :=
  mkWorld [Sample.dev_a; Sample.dev_b; dev_off; dev_shared]
          [Sample.msg1; Sample.msg2] [] 1 [] 0.

Definition succeeding : Network := fun _ _ => PostReturned.
Definition breaking : Network := fun _ _ => PostOtherException.

End Fixture.

(** An open group.  The owner of the source has the radius [0.3]
    kilometers, and the back end finds the candidate 300 meters from the
    source. *)
Module Boundary.

Definition open_group : Group.t := Group.Build 5 OPEN None None.

Definition three_tenths : Float.t := Sample.fraction 3 10.

Definition owner : Owner.t := Owner.Build 5 false (Some three_tenths).

Definition here : Point := {| x := Sample.whole 0; y := Sample.whole 0 |}.

Definition source : Device.t :=
  Device.Build 51 "BS" (Some here) None 3 owner open_group None true [].

Definition Distance (p q : Point) : Float.t := Float.of_int 300.

End Boundary.

(* ================================================================== *)
(** ** Properties of the NID normalizer                                *)
(* ================================================================== *)

Lemma startswith_lower_0x (text : string) :
  Py.startswith (Py.lower text) "0x" = has_hex_prefix text.
Proof.
  destruct text as [|a [|b r]]; [reflexivity | |].
  - destruct a as [[|] [|] [|] [|] [|] [|] [|] [|]]; reflexivity.
  - destruct a as [[|] [|] [|] [|] [|] [|] [|] [|]]; try reflexivity;
      destruct b as [[|] [|] [|] [|] [|] [|] [|] [|]]; try reflexivity;
      destruct r; reflexivity.
Qed.

Lemma remove_char_absent (c : ascii) (s : string) :
  ~ In c (list_ascii_of_string (Py.remove_char c s)).
Proof.
  induction s as [|a r IH]; simpl; [tauto |].
  destruct (Ascii.eqb a c) eqn:E; [exact IH |].
  simpl. intros [H | H]; [| exact (IH H)].
  subst a. rewrite Ascii.eqb_refl in E. discriminate.
Qed.

(** *** The texts of a number are read back *)

Lemma scan_digits_digit (base : Z) (c : ascii) (d : Z) (r : string)
      (prev seen : bool) (acc : Z) :
Ascii.eqb c "_" = false ->
Py.digit_in base c = Some d ->
Py.scan_digits base (String c r) prev seen acc
= Py.scan_digits base r false true (acc * base + d).
Proof. intros H1 H2. cbn [Py.scan_digits]. now rewrite H1, H2. Qed.

Lemma rstrip_cons (c : ascii) (r : string) :
Py.isspace c = false -> Py.rstrip r = r ->
Py.rstrip (String c r) = String c r.
Proof.
intros H1 H2. cbn [Py.rstrip]. rewrite H2, H1. now destruct r.
Qed.

Lemma remove_char_cons (c a : ascii) (r : string) :
Ascii.eqb a c = false -> Py.remove_char c r = r ->
Py.remove_char c (String a r) = String a r.
Proof. intros H1 H2. cbn [Py.remove_char]. now rewrite H1, H2. Qed.

Lemma skip_prefix_10 (s : string) : Py.skip_prefix 10 s = s.
Proof.
destruct s as [| a [| b r]]; try reflexivity;
  destruct a as [[|] [|] [|] [|] [|] [|] [|] [|]]; reflexivity.
Qed.

Ltac by_ascii c H :=
  destruct c as [[|] [|] [|] [|] [|] [|] [|] [|]];
  try (exfalso; apply H; reflexivity).

Lemma digit_is_plain (base : Z) (c : ascii) :
Py.digit_in base c <> None ->
Py.isspace c = false /\ Ascii.eqb c "-" = false.
Proof. intros H. by_ascii c H; split; reflexivity. Qed.

Lemma int_of_unsigned (base : Z) (c : ascii) (r : string) :
Py.digit_in base c <> None ->
Py.int_of base (String c r) = Py.unsigned_literal base (String c r).
Proof. intros H. unfold Py.int_of. by_ascii c H; reflexivity. Qed.

Lemma unsigned_literal_scan (base : Z) (c : ascii) (r : string) :
Py.digit_in base c <> None ->
Py.skip_prefix base (String c r) = String c r ->
Py.unsigned_literal base (String c r)
= match Py.scan_digits base (String c r) false false 0 with
  | Some (v, rest) =>
      match Py.skip_spaces rest with
      | EmptyString => Some v
      | _ => None
      end
  | None => None
  end.
Proof.
intros H E. unfold Py.unsigned_literal. rewrite E.
by_ascii c H; reflexivity.
Qed.

Lemma unsigned_literal_0x (x c : ascii) (r : string) :
x = "x"%char \/ x = "X"%char ->
Py.digit_in 16 c <> None ->
Py.unsigned_literal 16 (String "0" (String x (String c r)))
= match Py.scan_digits 16 (String c r) false false 0 with
  | Some (v, rest) =>
      match Py.skip_spaces rest with
      | EmptyString => Some v
      | _ => None
      end
  | None => None
  end.
Proof.
intros [-> | ->] H; unfold Py.unsigned_literal; by_ascii c H; reflexivity.
Qed.

(** Plain decimal digits are read in base 10. *)
Lemma normalize_nid_plain_10 (s : string) (v : Z) :
plain_digits 10 s v -> has_hex_prefix s = false ->
normalize_nid (Py.PStr s) = Some v.
Proof.
intros [[c [r [-> Hc]]] [Hr [Hh Hs]]] Hp.
destruct (digit_is_plain 10 c Hc) as [Hsp _].
assert (Hl : Py.lstrip (String c r) = String c r)
  by (cbn [Py.lstrip]; now rewrite Hsp).
unfold normalize_nid. cbn [Py.str].
unfold Py.strip. rewrite Hl, Hr, Hh.
rewrite startswith_lower_0x, Hp. cbn [String.eqb].
rewrite (int_of_unsigned 10 c r Hc).
rewrite (unsigned_literal_scan 10 c r Hc (skip_prefix_10 _)).
now rewrite Hs.
Qed.

(** Plain hexadecimal digits behind [0x] or [0X] are read in base 16. *)
Lemma normalize_nid_plain_16 (x : ascii) (s : string) (v : Z) :
x = "x"%char \/ x = "X"%char ->
plain_digits 16 s v ->
normalize_nid (Py.PStr (String "0" (String x s))) = Some v.
Proof.
intros Hx [[c [r [-> Hc]]] [Hr [Hh Hs]]].
assert (Hx' : Py.isspace x = false /\ Ascii.eqb x "-" = false
              /\ has_hex_prefix (String "0" (String x (String c r))) = true).
{ destruct Hx as [-> | ->]; repeat split; reflexivity. }
destruct Hx' as [X1 [X2 X3]].
unfold normalize_nid. cbn [Py.str].
assert (E : Py.remove_char "-" (Py.strip (String "0" (String x (String c r))))
            = String "0" (String x (String c r))).
{ unfold Py.strip. cbn [Py.lstrip]. 
  change (Py.isspace "0") with false. cbv iota.
  rewrite (rstrip_cons "0" _ eq_refl (rstrip_cons x _ X1 Hr)).
  apply (remove_char_cons "-" "0" _ eq_refl).
  now apply remove_char_cons. }
rewrite E, startswith_lower_0x, X3. cbn [String.eqb].
rewrite (int_of_unsigned 16 "0" _ ltac:(discriminate)).
rewrite (unsigned_literal_0x x c r Hx Hc).
now rewrite Hs.
Qed.

Ltac read_digit :=
  match goal with
  | |- Py.scan_digits ?base (String ?c _) _ _ _ = _ =>
      let k := eval vm_compute in (Py.digit_in base c) in
      match k with
      | Some ?d => rewrite (scan_digits_digit base c d) by reflexivity
      end
  end.

Ltac digit_step IH :=
  read_digit;
  match goal with
  | |- _ = Some (Z.pos (_ _ ?a), _) => rewrite <- (IH a); f_equal; lia
  end.

Lemma scan_decimal_acc (d : Decimal.uint) :
forall acc,
  Py.scan_digits 10 (DecimalString.NilEmpty.string_of_uint d) false true
                 (Z.pos acc)
  = Some (Z.pos (Pos.of_uint_acc d acc), "").
Proof.
induction d as [| d IH | d IH | d IH | d IH | d IH | d IH | d IH | d IH
                | d IH | d IH]; intros acc;
  cbn [DecimalString.NilEmpty.string_of_uint Pos.of_uint_acc];
  [reflexivity | digit_step IH ..].
Qed.

Lemma scan_decimal (d : Decimal.uint) :
forall seen,
  seen = true \/ d <> Decimal.Nil ->
  Py.scan_digits 10 (DecimalString.NilEmpty.string_of_uint d) false seen 0
  = Some (Z.of_N (Pos.of_uint d), "").
Proof.
induction d as [| d IH | d | d | d | d | d | d | d | d | d]; intros seen H;
  cbn [DecimalString.NilEmpty.string_of_uint Pos.of_uint].
- destruct H as [-> | H]; [reflexivity | contradiction].
- read_digit.
  apply IH. now left.
- read_digit. apply (scan_decimal_acc d 1).
- read_digit. apply (scan_decimal_acc d 2).
- read_digit. apply (scan_decimal_acc d 3).
- read_digit. apply (scan_decimal_acc d 4).
- read_digit. apply (scan_decimal_acc d 5).
- read_digit. apply (scan_decimal_acc d 6).
- read_digit. apply (scan_decimal_acc d 7).
- read_digit. apply (scan_decimal_acc d 8).
- read_digit. apply (scan_decimal_acc d 9).
Qed.

Lemma decimal_text_stable (d : Decimal.uint) :
let s := DecimalString.NilEmpty.string_of_uint d in
Py.rstrip s = s /\ Py.remove_char "-" s = s
/\ Py.lower s = s /\ Py.upper s = s.
Proof.
induction d as [| d IH | d IH | d IH | d IH | d IH | d IH | d IH | d IH
                | d IH | d IH];
  cbn [DecimalString.NilEmpty.string_of_uint];
  [repeat split | ..];
  destruct IH as [H1 [H2 [H3 H4]]];
  (split; [now apply rstrip_cons |]);
  (split; [now apply remove_char_cons |]);
  unfold Py.lower, Py.upper in *; cbn [Py.map_string];
  rewrite H3, H4; split; reflexivity.
Qed.

Lemma decimal_plain (d : Decimal.uint) :
d <> Decimal.Nil ->
plain_digits 10 (DecimalString.NilEmpty.string_of_uint d)
             (Z.of_N (Pos.of_uint d))
/\ has_hex_prefix (DecimalString.NilEmpty.string_of_uint d) = false.
Proof.
intros H. destruct (decimal_text_stable d) as [H1 [H2 _]].
split.
- split; [| split; [exact H1 | split; [exact H2 |]]].
  + destruct d; [contradiction | ..];
      cbn [DecimalString.NilEmpty.string_of_uint];
      eexists _, _; (split; [reflexivity | discriminate]).
  + apply scan_decimal. now right.
- destruct d as [| d' | d' | d' | d' | d' | d' | d' | d' | d' | d'];
    try reflexivity.
  destruct d'; reflexivity.
Qed.

Lemma normalize_nid_str_of_int (n : Z) :
0 <= n -> normalize_nid (Py.PStr (Py.str_of_int n)) = Some n.
Proof.
intros Hn. destruct n as [| p | p]; [reflexivity | | lia].
unfold Py.str_of_int. cbn [Z.to_int DecimalString.NilZero.string_of_int].
pose proof (DecimalPos.Unsigned.to_uint_nonnil p) as Hd.
assert (E : DecimalString.NilZero.string_of_uint (Pos.to_uint p)
            = DecimalString.NilEmpty.string_of_uint (Pos.to_uint p)).
{ unfold DecimalString.NilZero.string_of_uint.
  destruct (Pos.to_uint p); [contradiction | reflexivity ..]. }
rewrite E.
destruct (decimal_plain _ Hd) as [Hp Hx].
rewrite (normalize_nid_plain_10 _ _ Hp Hx).
now rewrite DecimalPos.Unsigned.of_to.
Qed.

Lemma scan_hex_acc (d : Hexadecimal.uint) :
forall acc,
  Py.scan_digits 16 (HexadecimalString.NilEmpty.string_of_uint d) false true
                 (Z.pos acc)
  = Some (Z.pos (Pos.of_hex_uint_acc d acc), "")
  /\ Py.scan_digits 16 (Py.upper (HexadecimalString.NilEmpty.string_of_uint d))
                    false true (Z.pos acc)
     = Some (Z.pos (Pos.of_hex_uint_acc d acc), "").
Proof.
unfold Py.upper.
induction d as [| d IH | d IH | d IH | d IH | d IH | d IH | d IH | d IH
                | d IH | d IH | d IH | d IH | d IH | d IH | d IH | d IH];
  intros acc;
  cbn [HexadecimalString.NilEmpty.string_of_uint Pos.of_hex_uint_acc
       Py.map_string];
  [split; reflexivity | ..];
  (split; [digit_step (fun a => proj1 (IH a))
          | digit_step (fun a => proj2 (IH a))]).
Qed.

Lemma scan_hex (d : Hexadecimal.uint) :
forall seen,
  seen = true \/ d <> Hexadecimal.Nil ->
  Py.scan_digits 16 (HexadecimalString.NilEmpty.string_of_uint d) false seen 0
  = Some (Z.of_N (Pos.of_hex_uint d), "")
  /\ Py.scan_digits 16 (Py.upper (HexadecimalString.NilEmpty.string_of_uint d))
                    false seen 0
     = Some (Z.of_N (Pos.of_hex_uint d), "").
Proof.
unfold Py.upper.
induction d as [| d IH | d | d | d | d | d | d | d | d | d
                | d | d | d | d | d | d]; intros seen H;
  cbn [HexadecimalString.NilEmpty.string_of_uint Pos.of_hex_uint
       Py.map_string].
- destruct H as [-> | H]; [split; reflexivity | contradiction].
- split; read_digit; apply IH; now left.
- split; read_digit; apply (scan_hex_acc d 1).
- split; read_digit; apply (scan_hex_acc d 2).
- split; read_digit; apply (scan_hex_acc d 3).
- split; read_digit; apply (scan_hex_acc d 4).
- split; read_digit; apply (scan_hex_acc d 5).
- split; read_digit; apply (scan_hex_acc d 6).
- split; read_digit; apply (scan_hex_acc d 7).
- split; read_digit; apply (scan_hex_acc d 8).
- split; read_digit; apply (scan_hex_acc d 9).
- split; read_digit; apply (scan_hex_acc d 10).
- split; read_digit; apply (scan_hex_acc d 11).
- split; read_digit; apply (scan_hex_acc d 12).
- split; read_digit; apply (scan_hex_acc d 13).
- split; read_digit; apply (scan_hex_acc d 14).
- split; read_digit; apply (scan_hex_acc d 15).
Qed.

Lemma hex_text_stable (d : Hexadecimal.uint) :
let s := HexadecimalString.NilEmpty.string_of_uint d in
Py.rstrip s = s /\ Py.remove_char "-" s = s
/\ Py.rstrip (Py.upper s) = Py.upper s
/\ Py.remove_char "-" (Py.upper s) = Py.upper s.
Proof.
unfold Py.upper.
induction d as [| d IH | d IH | d IH | d IH | d IH | d IH | d IH | d IH
                | d IH | d IH | d IH | d IH | d IH | d IH | d IH | d IH];
  cbn [HexadecimalString.NilEmpty.string_of_uint Py.map_string];
  [repeat split | ..];
  destruct IH as [H1 [H2 [H3 H4]]];
  (split; [now apply rstrip_cons |]);
  (split; [now apply remove_char_cons |]);
  (split; [now apply rstrip_cons | now apply remove_char_cons]).
Qed.

Lemma hex_plain (d : Hexadecimal.uint) :
d <> Hexadecimal.Nil ->
plain_digits 16 (HexadecimalString.NilEmpty.string_of_uint d)
             (Z.of_N (Pos.of_hex_uint d))
/\ plain_digits 16 (Py.upper (HexadecimalString.NilEmpty.string_of_uint d))
                (Z.of_N (Pos.of_hex_uint d)).
Proof.
intros H. destruct (hex_text_stable d) as [H1 [H2 [H3 H4]]].
destruct (scan_hex d false (or_intror H)) as [S1 S2].
split.
- split; [| split; [exact H1 | split; [exact H2 | exact S1]]].
  destruct d; [contradiction | ..];
    cbn [HexadecimalString.NilEmpty.string_of_uint];
    eexists _, _; (split; [reflexivity | discriminate]).
- split; [| split; [exact H3 | split; [exact H4 | exact S2]]].
  unfold Py.upper.
  destruct d; [contradiction | ..];
    cbn [HexadecimalString.NilEmpty.string_of_uint Py.map_string];
    eexists _, _; (split; [reflexivity | discriminate]).
Qed.

(** The hexadecimal texts of [n]: [hex(n)], its upper case, and the two
    forms built from [f"{n:X}"]. *)
Lemma normalize_nid_hex (n : Z) :
0 <= n ->
normalize_nid (Py.PStr (Py.hex n)) = Some n
/\ normalize_nid (Py.PStr (Py.upper (Py.hex n))) = Some n
/\ normalize_nid (Py.PStr ("0x" ++ Py.format_X n)) = Some n
/\ normalize_nid (Py.PStr ("0X" ++ Py.format_X n)) = Some n.
Proof.
intros Hn. destruct n as [| p | p]; [repeat split | | lia].
unfold Py.hex, Py.format_X, Py.hex_digits, Py.sign_text.
cbn [Z.ltb Z.compare Z.abs_N N.to_hex_uint String.append].
pose proof (HexadecimalPos.Unsigned.to_uint_nonnil p) as Hd.
assert (E : HexadecimalString.NilZero.string_of_uint (Pos.to_hex_uint p)
            = HexadecimalString.NilEmpty.string_of_uint (Pos.to_hex_uint p)).
{ unfold HexadecimalString.NilZero.string_of_uint.
  destruct (Pos.to_hex_uint p); [contradiction | reflexivity ..]. }
rewrite E.
destruct (hex_plain _ Hd) as [Hl Hu].
rewrite HexadecimalPos.Unsigned.of_to in Hl, Hu.
change (Py.upper (String "0" (String "x" ?s)))
  with (String "0" (String "X" (Py.upper s))).
repeat split.
- apply (normalize_nid_plain_16 "x"); auto.
- apply (normalize_nid_plain_16 "X"); auto.
- apply (normalize_nid_plain_16 "x"); auto.
- apply (normalize_nid_plain_16 "X"); auto.
Qed.


(** *** The source against the words of the specification *)

Lemma digit_of_digit_in (base : Z) (c : ascii) :
base = 10 \/ base = 16 -> digit_of base c = Py.digit_in base c.
Proof.
intros [-> | ->];
  destruct c as [[|] [|] [|] [|] [|] [|] [|] [|]]; reflexivity.
Qed.

Lemma strip_separators_lstrip (s : string) :
strip_separators (Py.lstrip s) = strip_separators s.
Proof.
induction s as [| c r IH]; [reflexivity |].
cbn [Py.lstrip]. destruct (Py.isspace c) eqn:E; [| reflexivity].
rewrite IH. cbn [strip_separators]. unfold is_separator.
now rewrite E, orb_true_r.
Qed.

Lemma strip_separators_rstrip (s : string) :
strip_separators (Py.rstrip s) = strip_separators s.
Proof.
induction s as [| c r IH]; [reflexivity |].
cbn [Py.rstrip strip_separators].
destruct (Py.rstrip r) as [| c' r'] eqn:E.
- rewrite <- IH. cbn [strip_separators].
  destruct (Py.isspace c) eqn:Hc.
  + unfold is_separator. now rewrite Hc, orb_true_r.
  + cbn [strip_separators]. reflexivity.
- cbn [strip_separators]. rewrite <- IH. reflexivity.
Qed.

Lemma strip_separators_plain (t : string) :
plain_text (Py.remove_char "-" t) = true ->
strip_separators t = Py.remove_char "-" t.
Proof.
induction t as [| c r IH]; [reflexivity |].
cbn [Py.remove_char strip_separators]. unfold is_separator.
destruct (Ascii.eqb c "-") eqn:E; cbn [orb]; [exact IH |].
cbn [plain_text]. intros H. apply andb_true_iff in H as [Hc Hr].
unfold plain_char in Hc. apply negb_true_iff in Hc.
apply orb_false_iff in Hc as [Hc _]. apply orb_false_iff in Hc as [Hc _].
rewrite Hc. now rewrite IH.
Qed.

Lemma strip_separators_cleaned (s : string) :
plain_text (cleaned s) = true -> strip_separators s = cleaned s.
Proof.
intros H. unfold cleaned in *.
rewrite <- (strip_separators_plain _ H).
unfold Py.strip. now rewrite strip_separators_rstrip, strip_separators_lstrip.
Qed.

Lemma plain_char_facts (c : ascii) :
plain_char c = true ->
Py.Py_ISSPACE c = false /\ Ascii.eqb c "_" = false /\ Ascii.eqb c "+" = false.
Proof.
destruct c as [[|] [|] [|] [|] [|] [|] [|] [|]]; try discriminate;
  intros _; repeat split.
Qed.

(** On a plain text the digit loop of [int] and the end of the text that
    follows it read a run of digits. *)
Lemma scan_digits_plain (base : Z) (u : string) :
base = 10 \/ base = 16 ->
plain_text u = true ->
forall seen acc,
  match Py.scan_digits base u false seen acc with
  | Some (v, rest) =>
      match Py.skip_spaces rest with
      | EmptyString => Some v
      | String _ _ => None
      end
  | None => None
  end
  = match u with
    | EmptyString => if seen then Some acc else None
    | String _ _ => digits_value base u acc
    end.
Proof.
intros Hb. induction u as [| c r IH]; intros Hp seen acc.
- cbn [Py.scan_digits orb]. now destruct seen.
- cbn [plain_text] in Hp. apply andb_true_iff in Hp as [Hc Hr].
  destruct (plain_char_facts c Hc) as [Hs [Hu _]].
  cbn [Py.scan_digits digits_value]. rewrite Hu, (digit_of_digit_in base c Hb).
  destruct (Py.digit_in base c) as [d |].
  + rewrite (IH Hr true (acc * base + d)). now destruct r.
  + cbn [orb]. destruct seen; cbn [negb]; [| reflexivity].
    cbn [Py.skip_spaces]. now rewrite Hs.
Qed.

Lemma unsigned_literal_plain_10 (t : string) :
plain_text t = true -> t <> "" ->
Py.unsigned_literal 10 t = digits_value 10 t 0.
Proof.
intros Hp Hne. unfold Py.unsigned_literal.
assert (E : Py.skip_prefix 10 t = t).
{ destruct t as [| a [| b r]]; try reflexivity;
    destruct a as [[|] [|] [|] [|] [|] [|] [|] [|]]; reflexivity. }
rewrite E.
pose proof (scan_digits_plain 10 t (or_introl eq_refl) Hp false 0) as S.
destruct t as [| c r]; [contradiction |].
cbn [plain_text] in Hp. apply andb_true_iff in Hp as [Hc _].
destruct (plain_char_facts c Hc) as [_ [Hu _]].
rewrite <- S.
destruct c as [[|] [|] [|] [|] [|] [|] [|] [|]]; try reflexivity;
  discriminate.
Qed.

Lemma int_of_plain (base : Z) (t : string) :
plain_text t = true ->
~ In "-"%char (list_ascii_of_string t) ->
Py.int_of base t = Py.unsigned_literal base t.
Proof.
intros Hp Hh. unfold Py.int_of.
destruct t as [| c r]; [reflexivity |].
cbn [plain_text] in Hp. apply andb_true_iff in Hp as [Hc _].
destruct (plain_char_facts c Hc) as [Hs [_ Hplus]].
cbn [Py.skip_spaces]. rewrite Hs.
destruct c as [[|] [|] [|] [|] [|] [|] [|] [|]]; try reflexivity;
  try discriminate.
exfalso. apply Hh. now left.
Qed.

Lemma unsigned_literal_plain_16 (x : ascii) (digits : string) :
x = "x"%char \/ x = "X"%char ->
plain_text digits = true ->
Py.unsigned_literal 16 (String "0" (String x digits)) = parse 16 digits.
Proof.
intros Hx Hp. unfold Py.unsigned_literal, parse.
pose proof (scan_digits_plain 16 digits (or_intror eq_refl) Hp false 0) as S.
destruct digits as [| c r].
- destruct Hx as [-> | ->]; reflexivity.
- cbn [plain_text] in Hp. apply andb_true_iff in Hp as [Hc _].
  destruct (plain_char_facts c Hc) as [_ [Hu _]].
  rewrite <- S.
  destruct Hx as [-> | ->];
    destruct c as [[|] [|] [|] [|] [|] [|] [|] [|]]; try reflexivity;
    discriminate.
Qed.

(** On a text that leaves no white space, underscore or plus sign behind,
    the source and the words of the specification agree. *)
Lemma normalize_nid_plain_text (s : string) :
plain_text (cleaned s) = true ->
normalize_nid (Py.PStr s) = normalize_spec s.
Proof.
intros Hp. unfold normalize_nid, normalize_spec. cbn [Py.str].
rewrite (strip_separators_cleaned s Hp). fold (cleaned s).
pose proof (remove_char_absent "-" (Py.strip s)) as Hh. fold (cleaned s) in Hh.
set (t := cleaned s) in *.
rewrite startswith_lower_0x.
destruct (String.eqb_spec t "") as [| Hne]; [reflexivity |].
rewrite !(int_of_plain _ t Hp Hh).
destruct t as [| a [| b digits]]; [contradiction | |].
- assert (P : has_hex_prefix (String a "") = false)
    by (destruct a as [[|] [|] [|] [|] [|] [|] [|] [|]]; reflexivity).
  rewrite P, (unsigned_literal_plain_10 _ Hp Hne).
  destruct a as [[|] [|] [|] [|] [|] [|] [|] [|]]; reflexivity.
- destruct (has_hex_prefix (String a (String b digits))) eqn:P.
  + assert (K : a = "0"%char /\ (b = "x"%char \/ b = "X"%char)).
    { unfold has_hex_prefix in P. cbn [String.prefix] in P.
      destruct a as [[|] [|] [|] [|] [|] [|] [|] [|]]; try discriminate;
        destruct b as [[|] [|] [|] [|] [|] [|] [|] [|]]; try discriminate;
        auto. }
    destruct K as [-> Hb].
    assert (Hd : plain_text digits = true).
    { cbn [plain_text] in Hp. apply andb_true_iff in Hp as [_ Hp].
      now apply andb_true_iff in Hp as [_ Hp]. }
    rewrite (unsigned_literal_plain_16 b digits Hb Hd).
    destruct Hb as [-> | ->]; reflexivity.
  + rewrite (unsigned_literal_plain_10 _ Hp Hne).
    unfold has_hex_prefix in P. cbn [String.prefix] in P.
    destruct a as [[|] [|] [|] [|] [|] [|] [|] [|]]; try reflexivity;
      destruct b as [[|] [|] [|] [|] [|] [|] [|] [|]]; try reflexivity;
      destruct digits; discriminate.
Qed.

(** *** Texts with their white space at the two ends *)

Lemma lstrip_all_space (l t : string) :
all_space l = true -> Py.lstrip (l ++ t) = Py.lstrip t.
Proof.
induction l as [| c r IH]; [reflexivity |].
cbn [all_space]. intros H. apply andb_true_iff in H as [Hc Hr].
cbn [append Py.lstrip]. rewrite Hc. now apply IH.
Qed.

Lemma rstrip_all_space (r : string) :
all_space r = true -> Py.rstrip r = "".
Proof.
induction r as [| c r IH]; [reflexivity |].
cbn [all_space]. intros H. apply andb_true_iff in H as [Hc Hr].
cbn [Py.rstrip]. now rewrite (IH Hr), Hc.
Qed.

Lemma plain_char_not_space (c : ascii) :
plain_char c = true -> Py.isspace c = false.
Proof.
unfold plain_char. intros H. apply negb_true_iff in H.
apply orb_false_iff in H as [H _]. now apply orb_false_iff in H as [H _].
Qed.

Lemma rstrip_plain_app (core r : string) :
plain_text core = true -> all_space r = true ->
Py.rstrip (core ++ r) = core.
Proof.
intros Hp Hr. induction core as [| c k IH].
- now apply rstrip_all_space.
- cbn [plain_text] in Hp. apply andb_true_iff in Hp as [Hc Hk].
  cbn [append Py.rstrip]. rewrite (IH Hk).
  destruct k; [now rewrite (plain_char_not_space c Hc) | reflexivity].
Qed.

Lemma strip_padded (l core r : string) :
all_space l = true -> plain_text core = true -> all_space r = true ->
Py.strip (l ++ core ++ r) = core.
Proof.
intros Hl Hp Hr. unfold Py.strip. rewrite (lstrip_all_space l _ Hl).
destruct core as [| c k].
- cbn [append].
  assert (E : Py.lstrip r = "").
  { clear - Hr. induction r as [| c r IH]; [reflexivity |].
    cbn [all_space] in Hr. apply andb_true_iff in Hr as [Hc Hr].
    cbn [Py.lstrip]. rewrite Hc. now apply IH. }
  now rewrite E.
- assert (Hc : Py.isspace c = false).
  { cbn [plain_text] in Hp. apply andb_true_iff in Hp as [Hc _].
    now apply plain_char_not_space. }
  cbn [append Py.lstrip]. rewrite Hc.
  exact (rstrip_plain_app (String c k) r Hp Hr).
Qed.

Lemma remove_char_plain (core : string) :
plain_text core = true -> plain_text (Py.remove_char "-" core) = true.
Proof.
induction core as [| c k IH]; [reflexivity |].
cbn [plain_text Py.remove_char]. intros H.
apply andb_true_iff in H as [Hc Hk].
destruct (Ascii.eqb c "-"); [now apply IH |].
cbn [plain_text]. now rewrite Hc, IH.
Qed.

(** C6, amended.  [normalize_nid] gives nothing for a missing value and
    gives an integer back as it is.  Of a text it trims the white space
    around it and then takes its hyphens out, in this order.  For a text
    that has its white space at its two ends only and holds no
    underscore and no plus sign, this is what the specification says of
    [normalize]: the text is stripped of hyphens and white space, and
    the result is null when nothing is left, the number read in base 16
    when the cleaned text starts with [0x] or [0X] and in base 10
    otherwise, and null when the text does not parse.  Every text, these
    and the others, is read after the cleaning of the source by [int], in
    base 16 when the cleaned text starts with [0x] or [0X] and in base 10
    otherwise, and gives null when [int] refuses it or nothing is
    left. *)
Theorem normalize_nid_on_plain_text :
  normalize_nid Py.PNone = None
  /\ (forall n, normalize_nid (Py.PInt n) = Some n)
  /\ (forall l core r,
        all_space l = true -> plain_text core = true ->
        all_space r = true ->
        let raw := l ++ core ++ r in
        normalize_nid (Py.PStr raw) = normalize_spec raw
        /\ cleaned raw = strip_separators raw
        /\ cleaned raw = Py.remove_char "-" core)
  /\ (forall s,
        normalize_nid (Py.PStr s)
        = if String.eqb (cleaned s) "" then None
          else if has_hex_prefix (cleaned s) then Py.int_of 16 (cleaned s)
          else Py.int_of 10 (cleaned s)).
Proof.
split; [reflexivity |]. split; [reflexivity |].
split;
  [| intros s; unfold normalize_nid, cleaned; cbn [Py.str];
     now rewrite startswith_lower_0x].
intros l core r Hl Hp Hr raw.
assert (E : cleaned raw = Py.remove_char "-" core).
{ unfold cleaned, raw. now rewrite strip_padded. }
assert (P : plain_text (cleaned raw) = true).
{ rewrite E. now apply remove_char_plain. }
split; [now apply normalize_nid_plain_text |].
split; [symmetry; now apply strip_separators_cleaned | exact E].
Qed.

Lemma normalize_nid_witness :
  (all_space " " = true /\ plain_text "0x12-34" = true)
  /\ normalize_nid (Py.PStr " 0x12-34 ") = normalize_spec " 0x12-34 "
  /\ normalize_spec " 0x12-34 " = Some 0x1234.
Proof.
  split; [split; reflexivity |].
  split; [| reflexivity].
  exact (proj1 (proj1 (proj2 (proj2 normalize_nid_on_plain_text))
                  " " "0x12-34" " " eq_refl eq_refl eq_refl)).
Defined.

(** The order of the two steps shows where a hyphen stands before white
    space: the white space is left in the text, [0x] is no prefix of it
    any more, and the text is not read; the specification has 16 for
    it. *)
Lemma normalize_nid_order_counterexample :
  normalize_nid (Py.PStr "- 0x10") = None
  /\ normalize_spec "- 0x10" = Some 16
  /\ normalize_nid (Py.PStr "- 0x10") <> normalize_spec "- 0x10".
Proof. repeat split. discriminate. Qed.

(** Outside the plain texts [int] accepts more than a run of digits, and
    less white space than [strip] removes. *)
Example int_beyond_digits :
  normalize_nid (Py.PStr "1_0") = Some 10
  /\ normalize_nid (Py.PStr "+5") = Some 5
  /\ normalize_nid (Py.PStr "- 16") = Some 16
  /\ normalize_nid (Py.PStr "0x_1f") = Some 31
  /\ normalize_nid (Py.PStr (String "-" (String (ascii_of_nat 28) "5"))) = None.
Proof. repeat split; reflexivity. Qed.

Example normalize_nid_examples :
  normalize_nid (Py.PStr "1193046") = Some 1193046
  /\ normalize_nid (Py.PStr "0x123456") = Some 1193046
  /\ normalize_nid (Py.PStr "0X12-34-56") = Some 1193046
  /\ normalize_nid (Py.PStr "  42  ") = Some 42
  /\ normalize_nid (Py.PStr "") = None
  /\ normalize_nid (Py.PStr " - ") = None
  /\ normalize_nid (Py.PStr "12ab") = None
  /\ normalize_nid (Py.PStr "0x") = None
  /\ normalize_nid (Py.PStr "1 2") = None
  /\ normalize_nid (Py.PInt 7) = Some 7
  /\ normalize_nid Py.PNone = None.
Proof. repeat split; reflexivity. Qed.

(** *** Membership in [nid_variants] *)

Lemma add_variant_In (s t : string) (vs : set string) :
  In t (add_variant s vs) <-> t = s \/ In t vs.
Proof. unfold add_variant. apply set_add_iff. Qed.

Lemma nid_variants_In (v : Py.value) (t : string) :
  v <> Py.PNone ->
  (In t (nid_variants v) <->
   t = Py.str v \/ t = Py.lower (Py.str v) \/ t = Py.upper (Py.str v)
   \/ exists n, normalize_nid v = Some n
               /\ (t = Py.str_of_int n \/ t = Py.hex n
                   \/ t = Py.upper (Py.hex n)
                   \/ t = "0x" ++ Py.format_X n
                   \/ t = "0X" ++ Py.format_X n)).
Proof.
  intros Hv.
  assert (E : nid_variants v =
              let variants := add_variant (Py.upper (Py.str v))
                                (add_variant (Py.lower (Py.str v))
                                   (add_variant (Py.str v) (empty_set string))) in
              match normalize_nid v with
              | Some n =>
                  add_variant ("0X" ++ Py.format_X n)
                    (add_variant ("0x" ++ Py.format_X n)
                       (add_variant (Py.upper (Py.hex n))
                          (add_variant (Py.hex n)
                             (add_variant (Py.str_of_int n) variants))))
              | None => variants
              end).
  { destruct v; [contradiction | reflexivity | reflexivity]. }
  rewrite E; cbv zeta.
  destruct (normalize_nid v) as [n |];
    repeat rewrite add_variant_In; unfold empty_set; simpl In.
  - split.
    + intros H; repeat (destruct H as [H | H]); subst;
        try contradiction; auto;
        right; right; right; exists n; split; auto 10.
    + intros [H | [H | [H | [k [Hk H]]]]]; subst; auto 12.
      injection Hk as <-.
      repeat (destruct H as [H | H]); subst; auto 12.
  - split.
    + intros H; repeat (destruct H as [H | H]); subst;
        try contradiction; auto.
    + intros [H | [H | [H | [k [Hk H]]]]]; subst; auto 12.
      discriminate.
Qed.

Lemma nid_variants_nil (v : Py.value) : nid_variants v = [] <-> v = Py.PNone.
Proof.
  split.
  - intros H. destruct (Py.value_eq_none v) as [-> | Hv]; [reflexivity |].
    assert (In (Py.str v) (nid_variants v))
      by (apply nid_variants_In; [exact Hv | now left]).
    rewrite H in H0. destruct H0.
  - intros ->. reflexivity.
Qed.

(** Every text that [nid_variants] produces for a NID in range is read
    back as that NID: the forms are equal for routing. *)
Lemma nid_variants_read_back (n : Z) (t : string) :
0 <= n -> In t (nid_variants (Py.PInt n)) ->
normalize_nid (Py.PStr t) = Some n.
Proof.
intros Hn Ht.
apply nid_variants_In in Ht; [| discriminate].
pose proof (normalize_nid_str_of_int n Hn) as Hs.
destruct (normalize_nid_hex n Hn) as [H1 [H2 [H3 H4]]].
assert (Hc : Py.lower (Py.str_of_int n) = Py.str_of_int n
             /\ Py.upper (Py.str_of_int n) = Py.str_of_int n).
{ destruct n as [| p | p]; [split; reflexivity | | lia].
  unfold Py.str_of_int.
  cbn [Z.to_int DecimalString.NilZero.string_of_int].
  unfold DecimalString.NilZero.string_of_uint.
  destruct (decimal_text_stable (Pos.to_uint p)) as [_ [_ [L U]]].
  destruct (Pos.to_uint p); [split; reflexivity | split; assumption ..]. }
destruct Hc as [Hlo Hup]. cbn [Py.str] in Ht.
destruct Ht as [-> | [-> | [-> | [k [Hk Ht]]]]];
  [exact Hs | now rewrite Hlo | now rewrite Hup |].
cbn [normalize_nid] in Hk. injection Hk as <-.
destruct Ht as [-> | [-> | [-> | [-> | ->]]]]; assumption.
Qed.

(* ================================================================== *)
(** ** Properties of the candidate filter                              *)
(* ================================================================== *)

Lemma mem_string_In (s : string) (l : list string) :
  mem_string s l = true <-> In s l.
Proof.
  unfold mem_string. rewrite existsb_exists. split.
  - intros [t [Ht E]]. apply String.eqb_eq in E. now subst.
  - intros H. exists s. split; [exact H | apply String.eqb_refl].
Qed.

Lemma nid_in_iff (l : list string) (d : Device.t) :
  nid_in l d = true <-> exists n, Device.nid d = Some n /\ In n l.
Proof.
  unfold nid_in. destruct (Device.nid d) as [n |].
  - rewrite mem_string_In. split.
    + intros H. now exists n.
    + intros [k [E H]]. now injection E as <-.
  - split; [discriminate | intros [k [E _]]; discriminate].
Qed.

Lemma nid_filter_iff (vs : list string) (d : Device.t) :
  nid_filter vs d = true <->
  exists n, Device.nid d = Some n /\ (In n vs \/ In n broadcast_values).
Proof.
  unfold nid_filter. rewrite orb_true_iff, !nid_in_iff. split.
  - intros [[n [E H]] | [n [E H]]]; exists n; auto.
  - intros [n [E [H | H]]]; [left | right]; now exists n.
Qed.

(** Step 2 when it is in play and an effective NID is there. *)
Lemma nid_filtering_resolved message source_device candidates :
  Group.uses_nid (Device.group source_device) = true ->
  message_nid message source_device <> Py.PNone ->
  nid_filtering message source_device candidates =
  filter (nid_filter (nid_variants (message_nid message source_device)))
         candidates.
Proof.
  intros Hg Hv. unfold nid_filtering. rewrite Hg.
  destruct (nid_variants (message_nid message source_device)) eqn:E;
    [| reflexivity].
  apply nid_variants_nil in E. contradiction.
Qed.

Lemma nid_filtering_unresolved message source_device candidates :
  message_nid message source_device = Py.PNone ->
  nid_filtering message source_device candidates = candidates.
Proof.
  intros Hv. unfold nid_filtering. rewrite Hv.
  now destruct (Group.uses_nid _).
Qed.

Lemma is_broadcast_resolved (v : Py.value) : is_broadcast v -> v <> Py.PNone.
Proof. intros H ->. discriminate H. Qed.

(** C3, as stated, fails.  [dev_s] sends with the broadcast sentinel as
    effective NID in a private group; [dev_b] is a candidate of the
    membership step, its own NID is another one, and Step 2 drops it. *)
Lemma broadcast_effective_nid_counterexample :
  Group.uses_nid (Device.group Sample.dev_s) = true
  /\ is_broadcast (message_nid Sample.msg1 Sample.dev_s)
  /\ In Sample.dev_b (group_filtering Sample.dev_s Sample.world0)
  /\ ~ In Sample.dev_b
        (nid_filtering Sample.msg1 Sample.dev_s
           (group_filtering Sample.dev_s Sample.world0)).
Proof.
  split; [reflexivity |]. split; [reflexivity |].
  split; [vm_compute; tauto |].
  vm_compute. tauto.
Qed.

(** C3, amended.  In a group that uses the NID, the sentinel works on the
    side of the candidate: a candidate whose stored NID is one of the
    broadcast texts stays, whatever the effective NID of the message is.
    A sentinel as effective NID is compared like any other value: a
    candidate stays exactly when its stored NID is the text of the
    effective NID (as given, in lower or in upper case), one of the forms
    of 4294967295 that [nid_variants] produces, or a broadcast text. *)
Theorem broadcast_nid_of_candidate_kept :
  forall message source_device candidates d,
    Group.uses_nid (Device.group source_device) = true ->
    In d candidates ->
    (forall n, Device.nid d = Some n -> In n broadcast_values ->
               In d (nid_filtering message source_device candidates))
    /\ (is_broadcast (message_nid message source_device) ->
        (In d (nid_filtering message source_device candidates) <->
         exists n, Device.nid d = Some n
                   /\ (n = Py.str (message_nid message source_device)
                       \/ n = Py.lower (Py.str (message_nid message source_device))
                       \/ n = Py.upper (Py.str (message_nid message source_device))
                       \/ In n ["4294967295"; "0xffffffff"; "0XFFFFFFFF";
                                "0xFFFFFFFF"]))).
Proof.
  intros message src cands d Hg Hd. split.
  - intros n En Hn. unfold nid_filtering. rewrite Hg.
    assert (K : forall vs, In d (filter (nid_filter vs) cands)).
    { intros vs. apply filter_In. split; [exact Hd |].
      apply nid_filter_iff. exists n. auto. }
    destruct (nid_variants _); [exact Hd | apply K].
  - intros Hb.
    rewrite (nid_filtering_resolved _ _ _ Hg (is_broadcast_resolved _ Hb)).
    rewrite filter_In, nid_filter_iff.
    split.
    + intros [_ [n [En H]]]. exists n. split; [exact En |].
      destruct H as [H | H].
      * apply nid_variants_In in H; [| exact (is_broadcast_resolved _ Hb)].
        destruct H as [H | [H | [H | [k [Hk H]]]]]; auto.
        unfold is_broadcast in Hb. rewrite Hb in Hk. injection Hk as <-.
        right; right; right.
        repeat (destruct H as [H | H]); subst; vm_compute; auto 6.
      * right; right; right.
        repeat (destruct H as [H | H]); subst; vm_compute; auto 6;
          contradiction.
    + intros [n [En H]]. split; [exact Hd |]. exists n. split; [exact En |].
      left. apply nid_variants_In; [exact (is_broadcast_resolved _ Hb) |].
      destruct H as [H | [H | [H | H]]]; auto.
      right; right; right. exists 0xFFFFFFFF. split; [exact Hb |].
      repeat (destruct H as [H | H]); subst; vm_compute; auto 6;
        contradiction.
Qed.

Lemma broadcast_nid_of_candidate_kept_witness :
  (Group.uses_nid (Device.group Sample.dev_a) = true
   /\ In Sample.dev_s (group_filtering Sample.dev_a Sample.world0)
   /\ Device.nid Sample.dev_s = Some "4294967295"
   /\ In "4294967295" broadcast_values)
  /\ In Sample.dev_s
        (nid_filtering Sample.msg1 Sample.dev_a
           (group_filtering Sample.dev_a Sample.world0)).
Proof.
  assert (Hg : Group.uses_nid (Device.group Sample.dev_a) = true)
    by reflexivity.
  assert (Hd : In Sample.dev_s (group_filtering Sample.dev_a Sample.world0))
    by (vm_compute; tauto).
  assert (Hn : In "4294967295" broadcast_values) by (vm_compute; tauto).
  split; [repeat split; assumption |].
  exact (proj1 (broadcast_nid_of_candidate_kept Sample.msg1 Sample.dev_a
                  _ Sample.dev_s Hg Hd) "4294967295" eq_refl Hn).
Defined.

(** C8.  The override of the payload is lost when it is the NID 0 given
    as a number: the payload of [msg2] carries it, and
    [payload.get('nid') or source_device.nid] takes the NID of the source
    device instead, because 0 counts as false.  A candidate with the NID
    0, which the override keeps, is dropped, and a candidate with the NID
    of the source stays.  The same override given as the text ["0"] is
    taken. *)
Theorem message_nid_zero_override_dropped :
  payload_get (Message.payload Sample.msg2) "nid" = Py.PInt 0
  /\ Device.nid Sample.dev_a = Some "1193046"
  /\ message_nid Sample.msg2 Sample.dev_a = Py.PStr "1193046"
  /\ message_nid Sample.msg2 Sample.dev_a
     <> payload_get (Message.payload Sample.msg2) "nid"
  /\ filter (nid_filter (nid_variants (Py.PInt 0)))
            [Sample.dev_o; Sample.dev_d] = [Sample.dev_o]
  /\ nid_filtering Sample.msg2 Sample.dev_a [Sample.dev_o; Sample.dev_d]
     = [Sample.dev_d]
  /\ nid_filtering (Sample.message 4 ALARM [("nid", Py.PStr "0")] 1)
       Sample.dev_a [Sample.dev_o; Sample.dev_d]
     = [Sample.dev_o].
Proof. repeat split; try reflexivity. discriminate. Qed.

(** X26.  The effective NID of Step 2 is the override of the payload
    when that counts as true in Python, else the NID of the source
    device.  In a group that uses the NID, Step 2 is skipped when no
    effective NID is there, so that with no NID in the payload and none
    on the source device every candidate stays (the step fails open);
    with an effective NID the predicate is applied. *)
Theorem nid_step_fail_open :
  forall message source_device candidates,
    let override := payload_get (Message.payload message) "nid" in
    (Py.truthy override = true ->
       message_nid message source_device = override)
    /\ (Py.truthy override = false ->
          message_nid message source_device
          = Py.of_column (Device.nid source_device))
    /\ (Group.uses_nid (Device.group source_device) = true ->
          message_nid message source_device = Py.PNone ->
          nid_filtering message source_device candidates = candidates)
    /\ (Group.uses_nid (Device.group source_device) = true ->
          Py.truthy override = false ->
          Device.nid source_device = None ->
          nid_filtering message source_device candidates = candidates)
    /\ (Group.uses_nid (Device.group source_device) = true ->
          message_nid message source_device <> Py.PNone ->
          nid_filtering message source_device candidates
          = filter (nid_filter
                      (nid_variants (message_nid message source_device)))
                   candidates).
Proof.
  intros message src cands override.
  assert (T : Py.truthy override = true ->
              message_nid message src = override).
  { intros H. unfold message_nid, Py.or_else. fold override. now rewrite H. }
  assert (F : Py.truthy override = false ->
              message_nid message src = Py.of_column (Device.nid src)).
  { intros H. unfold message_nid, Py.or_else. fold override. now rewrite H. }
  repeat split; auto.
  - intros _ H. now apply nid_filtering_unresolved.
  - intros _ H E. apply nid_filtering_unresolved.
    rewrite (F H), E. reflexivity.
  - intros Hg Hv. now apply nid_filtering_resolved.
Qed.

Lemma nid_step_fail_open_witness :
  (Group.uses_nid (Device.group Sample.bare_a) = true
   /\ Py.truthy (payload_get (Message.payload Sample.msg3) "nid") = false
   /\ Device.nid Sample.bare_a = None)
  /\ nid_filtering Sample.msg3 Sample.bare_a [Sample.bare_b] = [Sample.bare_b]
  /\ nid_filtering Sample.msg3 Sample.bare_a [Sample.bare_b; Sample.dev_c]
     = [Sample.bare_b; Sample.dev_c].
Proof.
  split; [repeat split |].
  split.
  - exact (proj1 (proj2 (proj2 (proj2
             (nid_step_fail_open Sample.msg3 Sample.bare_a [Sample.bare_b]))))
             eq_refl eq_refl eq_refl).
  - exact (proj1 (proj2 (proj2 (proj2
             (nid_step_fail_open Sample.msg3 Sample.bare_a
                [Sample.bare_b; Sample.dev_c]))))
             eq_refl eq_refl eq_refl).
Defined.


Section DistanceStep.

Variable Distance : Point -> Point -> Float.t.



End DistanceStep.



(** The radius of the owner goes before the one of the group, and a
    candidate on the border stays. *)
Example distance_border_included :
  let flat (a b : Point) :=
    Float.mul (Float.abs (Float.sub (x a) (x b))) (Float.of_int 1000) in
  let src := Sample.device 31 "S" (Sample.at_ (Sample.whole 0) (Sample.whole 0))
               None 3 Sample.bob Sample.location_group None in
  let on_border := Sample.device 32 "R"
                     (Sample.at_ (Sample.fraction 1 2) (Sample.whole 0))
                     None 3 Sample.alice Sample.location_group None in
  let beyond := Sample.device 33 "T"
                  (Sample.at_ (Sample.fraction 501 1000) (Sample.whole 0))
                  None 3 Sample.alice Sample.location_group None in
  radius_km src = Some (Sample.fraction 1 2)
  /\ distance_filtering flat src [on_border; beyond] = [on_border].
Proof. split; reflexivity. Qed.

(* ================================================================== *)
(** ** Properties of inbox population                                  *)
(* ================================================================== *)

Lemma same_pair_true (dev msg : Z) (e : DeviceInbox.t) :
  same_pair dev msg e = true <->
  DeviceInbox.device e = dev /\ DeviceInbox.message e = msg.
Proof. unfold same_pair. rewrite andb_true_iff, !Z.eqb_eq. tauto. Qed.

Lemma count_pair_app (dev msg : Z) (tbl : list DeviceInbox.t) (e : DeviceInbox.t) :
  count_pair dev msg (tbl ++ [e])%list
  = (count_pair dev msg tbl + (if same_pair dev msg e then 1 else 0))%nat.
Proof.
  unfold count_pair. rewrite filter_app, length_app. simpl.
  now destruct (same_pair dev msg e).
Qed.

Lemma count_pair_absent (dev msg : Z) (tbl : list DeviceInbox.t) :
  existsb (same_pair dev msg) tbl = false -> count_pair dev msg tbl = 0%nat.
Proof.
  unfold count_pair. induction tbl as [| e r IH]; simpl; [reflexivity |].
  intros H. apply orb_false_iff in H as [He Hr]. rewrite He. auto.
Qed.

Lemma seq_fresh_no_pk (w : World) :
  seq_fresh w ->
  existsb (fun e => DeviceInbox.id e =? inbox_seq w) (device_inbox w) = false.
Proof.
  intros H. destruct (existsb _ _) eqn:E; [| reflexivity].
  apply existsb_exists in E as [e [He Hid]].
  apply Z.eqb_eq in Hid. specialize (H e He). lia.
Qed.

Section InboxPopulation.

Variable clock : nat -> Z.

Lemma inbox_create_frame dev msg st w :
  let w' := snd (inbox_create clock dev msg st w) in
  devices w' = devices w /\ messages w' = messages w
  /\ broker w' = broker w /\ inbox_seq w' = inbox_seq w + 1.
Proof.
  unfold inbox_create, timezone_now; simpl.
  destruct (_ || _); simpl; auto.
Qed.

Lemma inbox_create_created dev msg w :
  created dev msg w (fst (inbox_create clock dev msg PENDING w))
                    (snd (inbox_create clock dev msg PENDING w)).
Proof.
  unfold inbox_create, timezone_now; simpl.
  destruct (existsb (same_pair dev msg) (device_inbox w)) eqn:E;
    destruct (existsb (fun e => DeviceInbox.id e =? inbox_seq w)
                      (device_inbox w)) eqn:K;
    simpl; now constructor.
Qed.

Lemma inbox_create_existing dev msg st w :
  existsb (same_pair dev msg) (device_inbox w) = true ->
  fst (inbox_create clock dev msg st w) = Raised IntegrityError
  /\ device_inbox (snd (inbox_create clock dev msg st w)) = device_inbox w.
Proof.
  intros H. unfold inbox_create, timezone_now; simpl. rewrite H. simpl. auto.
Qed.

Lemma inbox_create_new dev msg st w :
  seq_fresh w ->
  existsb (same_pair dev msg) (device_inbox w) = false ->
  exists e,
    inbox_create clock dev msg st w
    = (Returned e, snd (inbox_create clock dev msg st w))
    /\ same_pair dev msg e = true
    /\ device_inbox (snd (inbox_create clock dev msg st w))
       = (device_inbox w ++ [e])%list.
Proof.
  intros Hs H. unfold inbox_create, timezone_now; simpl.
  rewrite H, (seq_fresh_no_pk w Hs). simpl.
  eexists. split; [reflexivity |]. split; [| reflexivity].
  apply same_pair_true. simpl. auto.
Qed.

Lemma inbox_create_fresh dev msg st w :
  seq_fresh w -> seq_fresh (snd (inbox_create clock dev msg st w)).
Proof.
  intros Hs. unfold inbox_create, timezone_now; simpl.
  destruct (_ || _); simpl; intros e He; simpl in *.
  - specialize (Hs e He). lia.
  - apply in_app_or in He as [He | [<- | []]]; simpl.
    + specialize (Hs e He). lia.
    + lia.
Qed.

(** The loop does not touch the devices, keeps the sequence ahead, and
    never takes a pair out of the inbox. *)
Lemma inbox_population_frame message targets :
  forall acc w,
    seq_fresh w ->
    let w' := snd (inbox_population clock message targets acc w) in
    seq_fresh w'
    /\ devices w' = devices w
    /\ (forall dev msg,
           existsb (same_pair dev msg) (device_inbox w) = true ->
           existsb (same_pair dev msg) (device_inbox w') = true).
Proof.
  induction targets as [| d rest IH]; intros acc w Hs; simpl.
  - auto.
  - pose proof (inbox_create_fresh (Device.device_id d)
                  (Message.message_id message) PENDING w Hs) as Hs1.
    pose proof (inbox_create_frame (Device.device_id d)
                  (Message.message_id message) PENDING w) as Hf.
    pose proof (inbox_create_created (Device.device_id d)
                  (Message.message_id message) w) as Hc.
    destruct (inbox_create clock (Device.device_id d)
                (Message.message_id message) PENDING w) as [[e | ex] w1];
      simpl in *.
    + set (w2 := if column_truthy (Device.webhook_url d) then _ else w1).
      assert (E2 : device_inbox w2 = device_inbox w1
                   /\ devices w2 = devices w1 /\ inbox_seq w2 = inbox_seq w1).
      { subst w2. destruct (column_truthy _); [| auto].
        destruct (Message.is_alarm message); simpl; auto. }
      destruct E2 as [Ei [Ed Eq]].
      assert (Hs2 : seq_fresh w2).
      { intros r Hr. rewrite Ei in Hr. rewrite Eq. now apply Hs1. }
      destruct (IH (acc ++ [e])%list w2 Hs2) as [Ha [Hb Hc']].
      split; [exact Ha |]. split; [rewrite Hb, Ed; tauto |].
      intros dev msg H. apply Hc'. rewrite Ei.
      inversion Hc as [| e' w' Hex Hdv Hmg Hfr Hi]; subst.
      rewrite Hi, existsb_app, H. reflexivity.
    + split; [exact Hs1 |]. split; [tauto |].
      intros dev msg H. inversion Hc as [w' Hi |]; subst. now rewrite Hi.
Qed.

(** After the loop the pair of the first target is in the inbox. *)
Lemma inbox_population_head message d rest acc w :
  seq_fresh w ->
  existsb (same_pair (Device.device_id d) (Message.message_id message))
          (device_inbox
             (snd (inbox_population clock message (d :: rest) acc w)))
  = true.
Proof.
  intros Hs. simpl.
  destruct (existsb (same_pair (Device.device_id d)
                       (Message.message_id message)) (device_inbox w)) eqn:E.
  - destruct (inbox_create_existing (Device.device_id d)
                (Message.message_id message) PENDING w E) as [H1 H2].
    destruct (inbox_create clock _ _ PENDING w) as [r w1]; simpl in *.
    subst r. simpl. now rewrite H2.
  - destruct (inbox_create_new (Device.device_id d)
                (Message.message_id message) PENDING w Hs E)
      as [e [H1 [H2 H3]]].
    pose proof (inbox_create_fresh (Device.device_id d)
                  (Message.message_id message) PENDING w Hs) as Hs1.
    rewrite H1. set (w1 := snd (inbox_create clock _ _ PENDING w)) in *.
    set (w2 := if column_truthy (Device.webhook_url d) then _ else w1).
    assert (E2 : device_inbox w2 = device_inbox w1
                 /\ inbox_seq w2 = inbox_seq w1).
    { subst w2. destruct (column_truthy _); [| auto].
      destruct (Message.is_alarm message); simpl; auto. }
    destruct E2 as [Ei Eq].
    assert (Hs2 : seq_fresh w2).
    { intros r Hr. rewrite Ei in Hr. rewrite Eq. now apply Hs1. }
    apply (inbox_population_frame message rest (acc ++ [e])%list w2 Hs2).
    rewrite Ei, H3, existsb_app. simpl. rewrite H2.
    now rewrite orb_true_r.
Qed.

(** With the pair of the first target in the inbox the loop stops at
    once and leaves inbox and broker as they are. *)
Lemma inbox_population_stops message d rest acc w :
  existsb (same_pair (Device.device_id d) (Message.message_id message))
          (device_inbox w) = true ->
  let r := inbox_population clock message (d :: rest) acc w in
  fst r = Raised IntegrityError
  /\ device_inbox (snd r) = device_inbox w
  /\ broker (snd r) = broker w.
Proof.
  intros E. simpl.
  destruct (inbox_create_existing (Device.device_id d)
              (Message.message_id message) PENDING w E) as [H1 H2].
  pose proof (inbox_create_frame (Device.device_id d)
                (Message.message_id message) PENDING w) as Hf.
  destruct (inbox_create clock _ _ PENDING w) as [r w1]; simpl in *.
  subst r. simpl. tauto.
Qed.

(** The loop adds a row only for a pair that has none. *)
Lemma inbox_population_count message targets :
  forall acc w dev msg,
    (count_pair dev msg
       (device_inbox (snd (inbox_population clock message targets acc w)))
     <= Nat.max 1 (count_pair dev msg (device_inbox w)))%nat.
Proof.
  induction targets as [| d rest IH]; intros acc w dev msg.
  - cbn [inbox_population snd]. apply Nat.le_max_r.
  - cbn [inbox_population].
    pose proof (inbox_create_created (Device.device_id d)
                  (Message.message_id message) w) as Hc.
    destruct (inbox_create clock (Device.device_id d)
                (Message.message_id message) PENDING w) as [[e | ex] w1];
      cbn [fst snd] in Hc |- *.
    + set (w2 := if column_truthy (Device.webhook_url d) then _ else w1).
      assert (Ei : device_inbox w2 = device_inbox w1).
      { subst w2. destruct (column_truthy _); [| auto].
        destruct (Message.is_alarm message); simpl; auto. }
      specialize (IH (acc ++ [e])%list w2 dev msg).
      rewrite Ei in IH.
      inversion Hc as [| e' w' Hex Hdv Hmg Hfr Hi]; subst.
      rewrite Hi, count_pair_app in IH.
      destruct (same_pair dev msg e) eqn:P.
      * apply same_pair_true in P as [Pd Pm]. subst dev msg.
        rewrite Hdv, Hmg in IH |- *.
        rewrite (count_pair_absent _ _ _ Hex) in IH |- *. lia.
      * lia.
    + inversion Hc as [w' Hi |]; subst. rewrite Hi. apply Nat.le_max_r.
Qed.

(** When no target holds an entry for the message yet, the loop creates
    one fresh entry for each target, in the order of the targets, and
    returns them. *)
Lemma inbox_population_creates message targets :
forall acc w,
  seq_fresh w ->
  NoDup (map Device.device_id targets) ->
  (forall d, In d targets ->
     existsb (same_pair (Device.device_id d) (Message.message_id message))
             (device_inbox w) = false) ->
  exists entries,
    fst (inbox_population clock message targets acc w)
    = Returned (acc ++ entries)%list
    /\ device_inbox (snd (inbox_population clock message targets acc w))
       = (device_inbox w ++ entries)%list
    /\ map DeviceInbox.device entries = map Device.device_id targets
    /\ Forall (fun e => fresh_entry e
                        /\ DeviceInbox.message e = Message.message_id message)
              entries.
Proof.
induction targets as [| d rest IH]; intros acc w Hs Hn Hnew.
- exists []. cbn [inbox_population fst snd].
  rewrite !app_nil_r. repeat split. constructor.
- cbn [inbox_population].
  assert (Hd : existsb (same_pair (Device.device_id d)
                          (Message.message_id message)) (device_inbox w)
               = false) by (apply Hnew; now left).
  destruct (inbox_create_new (Device.device_id d)
              (Message.message_id message) PENDING w Hs Hd)
    as [e [H1 [H2 H3]]].
  pose proof (inbox_create_fresh (Device.device_id d)
                (Message.message_id message) PENDING w Hs) as Hs1.
  pose proof (inbox_create_created (Device.device_id d)
                (Message.message_id message) w) as Hc.
  rewrite H1 in Hc |- *. cbn [fst snd] in Hc.
  set (w1 := snd (inbox_create clock _ _ PENDING w)) in *.
  set (w2 := if column_truthy (Device.webhook_url d) then _ else w1).
  assert (E2 : device_inbox w2 = device_inbox w1
               /\ inbox_seq w2 = inbox_seq w1).
  { subst w2. destruct (column_truthy _); [| auto].
    destruct (Message.is_alarm message); simpl; auto. }
  destruct E2 as [Ei Eq].
  assert (Hs2 : seq_fresh w2).
  { intros r Hr. rewrite Ei in Hr. rewrite Eq. now apply Hs1. }
  inversion Hn as [| ? ? Hnotin Hn']; subst.
  apply same_pair_true in H2 as [Hed Hem].
  destruct (IH (acc ++ [e])%list w2 Hs2 Hn') as [entries [R1 [R2 [R3 R4]]]].
  { intros d' Hd'. rewrite Ei, H3, existsb_app.
    rewrite (Hnew d' (or_intror Hd')). cbn [existsb orb].
    rewrite orb_false_r. unfold same_pair. rewrite Hed.
    destruct (Z.eqb_spec (Device.device_id d) (Device.device_id d'))
      as [K |]; [| reflexivity].
    exfalso. apply Hnotin. rewrite K. now apply in_map. }
  exists (e :: entries).
  split; [rewrite R1, <- app_assoc; reflexivity |].
  split; [rewrite R2, Ei, H3, <- app_assoc; reflexivity |].
  split; [cbn [map]; now rewrite R3, Hed |].
  constructor; [| exact R4].
  inversion Hc as [| e' w' Hex Hdv Hmg Hfr Hi]; subst. auto.
Qed.

End InboxPopulation.

(* ================================================================== *)
(** ** Routing the same message again                                  *)
(* ================================================================== *)

Section Rerouting.

Variable clock : nat -> Z.
Variable Distance : Point -> Point -> Float.t.
Variable message : Message.t.
Variable source_device : Device.t.

Let route (w : World) : World :=
  snd (route_message clock Distance message source_device w).

Lemma target_devices_devices (w w' : World) :
  devices w' = devices w ->
  target_devices Distance message source_device w'
  = target_devices Distance message source_device w.
Proof.
  intros E. unfold target_devices, group_filtering. now rewrite E.
Qed.

Lemma route_message_routed (w : World) :
  seq_fresh w ->
  routed Distance message source_device (route w)
  /\ seq_fresh (route w) /\ devices (route w) = devices w.
Proof.
  intros Hs. unfold route, route_message.
  destruct (inbox_population_frame clock message
              (target_devices Distance message source_device w) [] w Hs)
    as [Ha [Hb _]].
  split; [| split; assumption].
  unfold routed. rewrite (target_devices_devices w _ Hb).
  destruct (target_devices Distance message source_device w) as [| d rest];
    [exact I |].
  now apply inbox_population_head.
Qed.

Lemma route_message_again (w : World) :
  seq_fresh w ->
  routed Distance message source_device w ->
  device_inbox (route w) = device_inbox w
  /\ broker (route w) = broker w
  /\ routed Distance message source_device (route w)
  /\ seq_fresh (route w).
Proof.
  intros Hs Hr.
  destruct (route_message_routed w Hs) as [Hr' [Hs' _]].
  repeat split; try assumption; unfold route, route_message;
    unfold routed in Hr;
    destruct (target_devices Distance message source_device w)
      as [| d rest]; try reflexivity;
    now apply inbox_population_stops.
Qed.

Lemma route_times_again (n : nat) :
  forall w,
    seq_fresh w ->
    routed Distance message source_device w ->
    device_inbox (route_times clock Distance n message source_device w)
    = device_inbox w
    /\ broker (route_times clock Distance n message source_device w)
       = broker w.
Proof.
  induction n as [| n IH]; intros w Hs Hr; simpl; [auto |].
  destruct (route_message_again w Hs Hr) as [Hi [Hb [Hr' Hs']]].
  fold (route w). destruct (IH (route w) Hs' Hr') as [Hi' Hb'].
  split; congruence.
Qed.

(** C1.  Routing the same message again changes nothing: after any
    number of calls, one or more, the inbox is the table that the first
    call left (the same rows, none touched, the same count) and no
    further attempt is scheduled; and no call gives a (device, message)
    pair a second row.  (A repeated call that finds a target ends with
    [IntegrityError] at the first one, whose pair is there already.) *)
Theorem route_message_idempotent :
  forall (n : nat) (w : World),
    seq_fresh w ->
    let once := route_times clock Distance 1 message source_device w in
    let again := route_times clock Distance (S n) message source_device w in
    device_inbox again = device_inbox once
    /\ List.length (device_inbox again) = List.length (device_inbox once)
    /\ broker again = broker once
    /\ (forall dev msg,
           (count_pair dev msg (device_inbox again)
            <= Nat.max 1 (count_pair dev msg (device_inbox w)))%nat).
Proof.
  intros n w Hs once again.
  destruct (route_message_routed w Hs) as [Hr [Hs' _]].
  assert (E : device_inbox again = device_inbox once
              /\ broker again = broker once).
  { subst once again. cbn [route_times]. fold (route w).
    now apply route_times_again. }
  destruct E as [Ei Eb].
  split; [exact Ei |]. split; [now rewrite Ei |]. split; [exact Eb |].
  intros dev msg. rewrite Ei. subst once. cbn [route_times].
  unfold route_message. apply inbox_population_count.
Qed.

End Rerouting.

Lemma route_message_idempotent_witness :
  seq_fresh Sample.world0
  /\ device_inbox
       (route_times Sample.clock Sample.Distance 3 Sample.msg1 Sample.dev_a
          Sample.world0)
     = device_inbox
         (route_times Sample.clock Sample.Distance 1 Sample.msg1 Sample.dev_a
            Sample.world0)
  /\ List.length
       (device_inbox
          (route_times Sample.clock Sample.Distance 3 Sample.msg1 Sample.dev_a
             Sample.world0)) = 3%nat.
Proof.
  assert (Hs : seq_fresh Sample.world0) by (intros e []).
  split; [exact Hs |]. split; [| reflexivity].
  exact (proj1 (route_message_idempotent Sample.clock Sample.Distance
                  Sample.msg1 Sample.dev_a 2 Sample.world0 Hs)).
Defined.

(** The first call creates one pending entry for each target and schedules
    an attempt for the target that has a webhook; the second call is
    refused and adds nothing. *)
Example route_message_twice :
  let r1 := route_message Sample.clock Sample.Distance Sample.msg1
              Sample.dev_a Sample.world0 in
  let r2 := route_message Sample.clock Sample.Distance Sample.msg1
              Sample.dev_a (snd r1) in
  map DeviceInbox.device (device_inbox (snd r1)) = [2; 4; 5]
  /\ map DeviceInbox.status (device_inbox (snd r1))
     = [PENDING; PENDING; PENDING]
  /\ broker (snd r1) = [ {| task_inbox_id := 1; countdown := 0 |} ]
  /\ fst r2 = Raised IntegrityError
  /\ device_inbox (snd r2) = device_inbox (snd r1)
  /\ broker (snd r2) = broker (snd r1).
Proof. repeat split; reflexivity. Qed.

(* ================================================================== *)
(** ** Properties of the delivery worker                               *)
(* ================================================================== *)

Lemma find_id_save (i : Z) (e : DeviceInbox.t) (tbl : list DeviceInbox.t) :
DeviceInbox.id e = i ->
find (fun r => DeviceInbox.id r =? i)
     (map (fun r => if DeviceInbox.id r =? DeviceInbox.id e then e else r) tbl)
= match find (fun r => DeviceInbox.id r =? i) tbl with
  | Some _ => Some e
  | None => None
  end.
Proof.
intros <-. induction tbl as [| r rest IH]; simpl; [reflexivity |].
destruct (DeviceInbox.id r =? DeviceInbox.id e) eqn:K.
- now rewrite Z.eqb_refl.
- now rewrite K.
Qed.

Lemma inbox_get_by_id_pk (i : Z) (w : World) (e : DeviceInbox.t) :
inbox_get_by_id i w = Some e -> DeviceInbox.id e = i.
Proof.
unfold inbox_get_by_id. intros H. apply find_some in H as [_ H].
now apply Z.eqb_eq.
Qed.

Lemma inbox_get_by_id_save (i : Z) (w : World) (e0 e : DeviceInbox.t) :
inbox_get_by_id i w = Some e0 -> DeviceInbox.id e = i ->
inbox_get_by_id i (inbox_save e w) = Some e.
Proof.
unfold inbox_get_by_id, inbox_save. simpl. intros H E.
now rewrite (find_id_save i e _ E), H.
Qed.

Section Delivery.

Variable clock : nat -> Z.

(** C9.  An attempt for an entry whose device has no webhook URL (none, or
    the empty text) is skipped: the answer is "skipped", and the world
    after it is the world before it, so that status, attempts and time
    stamps of the entry are what they were and the broker holds no new
    task. *)
Theorem deliver_webhook_without_url_is_noop :
forall (post : Network) (inbox_id : Z) (w : World)
       (inbox : DeviceInbox.t) (device : Device.t),
  inbox_get_by_id inbox_id w = Some inbox ->
  device_get (DeviceInbox.device inbox) w = Some device ->
  fk_message inbox w ->
  column_truthy (Device.webhook_url device) = false ->
  deliver_webhook clock post inbox_id w = (Skipped_no_webhook_url, w)
  /\ inbox_get_by_id inbox_id (snd (deliver_webhook clock post inbox_id w))
     = Some inbox
  /\ device_inbox (snd (deliver_webhook clock post inbox_id w))
     = device_inbox w
  /\ broker (snd (deliver_webhook clock post inbox_id w)) = broker w.
Proof.
intros post inbox_id w inbox device Hi Hd Hm Hu.
assert (E : deliver_webhook clock post inbox_id w
            = (Skipped_no_webhook_url, w)).
{ unfold deliver_webhook. rewrite Hi, Hd.
  unfold fk_message in Hm.
  destruct (message_get (DeviceInbox.message inbox) w); [| contradiction].
  now rewrite Hu. }
rewrite E. simpl. auto.
Qed.

(** One run of the task when the call fails in transport. *)
Lemma deliver_webhook_transport_failure :
forall (post : Network) (inbox_id : Z) (w : World)
       (inbox : DeviceInbox.t) (device source : Device.t)
       (message : Message.t),
  transport_fails post ->
  inbox_get_by_id inbox_id w = Some inbox ->
  device_get (DeviceInbox.device inbox) w = Some device ->
  message_get (DeviceInbox.message inbox) w = Some message ->
  device_get (Message.source_device message) w = Some source ->
  column_truthy (Device.webhook_url device) = true ->
  deliver_webhook clock post inbox_id w
  = let attempts := DeviceInbox.delivery_attempts inbox + 1 in
    let inbox1 := DeviceInbox.set_delivery_attempts attempts inbox in
    if attempts >=? Device.retry_limit device then
      (Failed_max_retries inbox_id,
       inbox_save (DeviceInbox.set_status FAILED inbox1) w)
    else
      (Retrying inbox_id attempts,
       apply_async inbox_id (2 ^ attempts) (inbox_save inbox1 w)).
Proof.
intros post inbox_id w inbox device source message Hp Hi Hd Hm Hs Hu.
unfold deliver_webhook. rewrite Hi, Hd, Hm, Hu, Hs. cbn [negb].
rewrite Hp. reflexivity.
Qed.

Lemma worker_run_idle (posts : list Network) (w : World) :
broker w = [] -> worker_run clock posts w = w.
Proof.
intros H. destruct posts as [| p r]; [reflexivity |].
simpl. unfold worker_step. now rewrite H.
Qed.

(** The run of the worker on an entry whose attempts all fail, from any
    point before the limit. *)
Lemma worker_run_failing (posts : list Network) :
forall (w : World) (inbox_id k c : Z)
       (inbox : DeviceInbox.t) (device source : Device.t)
       (message : Message.t),
  Forall transport_fails posts ->
  inbox_get_by_id inbox_id w = Some inbox ->
  DeviceInbox.status inbox = PENDING ->
  DeviceInbox.delivery_attempts inbox = k ->
  0 <= k < Z.max 1 (Device.retry_limit device) ->
  device_get (DeviceInbox.device inbox) w = Some device ->
  message_get (DeviceInbox.message inbox) w = Some message ->
  device_get (Message.source_device message) w = Some source ->
  column_truthy (Device.webhook_url device) = true ->
  broker w = [ {| task_inbox_id := inbox_id; countdown := c |} ] ->
  let limit := Z.max 1 (Device.retry_limit device) in
  let n := k + Z.of_nat (List.length posts) in
  exists e,
    inbox_get_by_id inbox_id (worker_run clock posts w) = Some e
    /\ DeviceInbox.delivery_attempts e = Z.min n limit
    /\ DeviceInbox.status e = (if n <? limit then PENDING else FAILED)
    /\ broker (worker_run clock posts w)
       = (if n <? limit
          then [ {| task_inbox_id := inbox_id;
                    countdown := match posts with [] => c | _ => 2 ^ n end |} ]
          else []).
Proof.
induction posts as [| post rest IH];
  intros w inbox_id k c inbox device source message
         Hf Hi Hst Hk Hlt Hd Hm Hs Hu Hb limit n.
- exists inbox. subst n limit. simpl. rewrite Z.add_0_r.
  destruct (Z.ltb_spec k (Z.max 1 (Device.retry_limit device))); [| lia].
  repeat split; auto. lia.
- inversion Hf as [| p r Hp Hrest]; subst p r.
  cbn [worker_run]. unfold worker_step. rewrite Hb. cbn [task_inbox_id].
  set (w0 := mkWorld (devices w) (messages w) (device_inbox w)
                     (inbox_seq w) [] (ticks w)).
  rewrite (deliver_webhook_transport_failure post inbox_id w0 inbox device
             source message Hp Hi Hd Hm Hs Hu).
  cbv zeta. rewrite Hk.
  pose proof (inbox_get_by_id_pk _ _ _ Hi) as Hpk.
  destruct (Z.geb_spec (k + 1) (Device.retry_limit device)) as [Hge | Hlo].
  + (* the limit is reached *)
    rewrite worker_run_idle by reflexivity.
    eexists. split.
    { apply (inbox_get_by_id_save inbox_id w0 inbox); [exact Hi | exact Hpk]. }
    subst n limit. cbn [List.length]. 
    destruct (Z.ltb_spec (k + Z.of_nat (S (List.length rest)))
                          (Z.max 1 (Device.retry_limit device))); [lia |].
    simpl. repeat split; auto. lia.
  + (* a retry is scheduled *)
    set (inbox1 := DeviceInbox.set_delivery_attempts (k + 1) inbox).
    set (w1 := apply_async inbox_id (2 ^ (k + 1)) (inbox_save inbox1 w0)).
    assert (Hi1 : inbox_get_by_id inbox_id w1 = Some inbox1).
    { apply (inbox_get_by_id_save inbox_id w0 inbox); [exact Hi | exact Hpk]. }
    destruct (IH w1 inbox_id (k + 1) (2 ^ (k + 1)) inbox1 device source
                 message Hrest Hi1 Hst eq_refl ltac:(lia) Hd Hm Hs Hu
                 eq_refl) as [e [He [Ha [Hs' Hb']]]].
    exists e. subst n limit. cbn [List.length].
    replace (k + Z.of_nat (S (List.length rest)))
      with (k + 1 + Z.of_nat (List.length rest)) by lia.
    split; [exact He |]. split; [exact Ha |]. split; [exact Hs' |].
    rewrite Hb'. destruct (_ <? _); [| reflexivity].
    destruct rest; [| reflexivity].
    simpl. now rewrite Z.add_0_r.
Qed.

(** C2, amended.  An entry that routing has just created (pending, no
    attempt yet, its first attempt scheduled) for a device with a webhook
    and retry limit [r], when every attempt fails in transport: each
    failure adds one to [delivery_attempts]; after [n] runs of the worker
    the count is [n], the entry is pending and one retry is scheduled with
    a countdown of [2 ^ n] seconds, as long as [n] is below
    [max 1 r]; from there on the count stays at [max 1 r], the entry is
    failed and nothing is scheduled.  So for [r >= 1] the entry is failed
    exactly when [delivery_attempts = r]; for [r <= 0] it is failed from
    the first failure on, with [delivery_attempts = 1]. *)
Theorem transport_failures_until_limit :
forall (posts : list Network) (w : World) (inbox_id : Z)
       (inbox : DeviceInbox.t) (device source : Device.t)
       (message : Message.t),
  Forall transport_fails posts ->
  inbox_get_by_id inbox_id w = Some inbox ->
  fresh_entry inbox ->
  device_get (DeviceInbox.device inbox) w = Some device ->
  message_get (DeviceInbox.message inbox) w = Some message ->
  device_get (Message.source_device message) w = Some source ->
  column_truthy (Device.webhook_url device) = true ->
  broker w = [ {| task_inbox_id := inbox_id; countdown := 0 |} ] ->
  let limit := Z.max 1 (Device.retry_limit device) in
  let n := Z.of_nat (List.length posts) in
  exists e,
    inbox_get_by_id inbox_id (worker_run clock posts w) = Some e
    /\ DeviceInbox.delivery_attempts e = Z.min n limit
    /\ DeviceInbox.status e = (if n <? limit then PENDING else FAILED)
    /\ broker (worker_run clock posts w)
       = (if n <? limit
          then [ {| task_inbox_id := inbox_id;
                    countdown := match posts with [] => 0 | _ => 2 ^ n end |} ]
          else [])
    /\ (1 <= Device.retry_limit device ->
        (DeviceInbox.status e = FAILED
         <-> DeviceInbox.delivery_attempts e = Device.retry_limit device))
    /\ (Device.retry_limit device <= 0 ->
        (DeviceInbox.status e = FAILED
         <-> DeviceInbox.delivery_attempts e = 1)).
Proof.
intros posts w inbox_id inbox device source message
       Hf Hi [Hst Hk] Hd Hm Hs Hu Hb limit n.
destruct (worker_run_failing posts w inbox_id 0 0 inbox device source message
            Hf Hi Hst Hk ltac:(lia) Hd Hm Hs Hu Hb)
  as [e [He [Ha [Hs' Hb']]]].
rewrite Z.add_0_l in *. fold n limit in Ha, Hs', Hb'.
exists e. split; [exact He |]. split; [exact Ha |]. split; [exact Hs' |].
split; [exact Hb' |].
rewrite Ha, Hs'. subst limit.
split; intros Hr;
  destruct (Z.ltb_spec n (Z.max 1 (Device.retry_limit device))) as [L | L];
  split; intros H; try discriminate; try reflexivity; lia.
Qed.

End Delivery.

Lemma transport_failures_until_limit_witness :
(Forall transport_fails [Sample.failing; Sample.failing; Sample.failing]
 /\ inbox_get_by_id 1 Sample.world_pending
    = Some (Sample.entry 1 2 1 PENDING 0 None)
 /\ fresh_entry (Sample.entry 1 2 1 PENDING 0 None)
 /\ device_get 2 Sample.world_pending = Some Sample.dev_b
 /\ message_get 1 Sample.world_pending = Some Sample.msg1
 /\ device_get 1 Sample.world_pending = Some Sample.dev_a
 /\ column_truthy (Device.webhook_url Sample.dev_b) = true
 /\ broker Sample.world_pending = [ {| task_inbox_id := 1; countdown := 0 |} ])
/\ exists e,
    inbox_get_by_id 1
      (worker_run Sample.clock
         [Sample.failing; Sample.failing; Sample.failing]
         Sample.world_pending) = Some e
    /\ DeviceInbox.delivery_attempts e = 3
    /\ DeviceInbox.status e = FAILED.
Proof.
assert (Hf : Forall transport_fails
               [Sample.failing; Sample.failing; Sample.failing])
  by (repeat constructor).
assert (Hfr : fresh_entry (Sample.entry 1 2 1 PENDING 0 None))
  by (split; reflexivity).
split; [repeat split; try reflexivity; assumption |].
destruct (transport_failures_until_limit Sample.clock
            [Sample.failing; Sample.failing; Sample.failing]
            Sample.world_pending 1 (Sample.entry 1 2 1 PENDING 0 None)
            Sample.dev_b Sample.dev_a Sample.msg1
            Hf eq_refl Hfr eq_refl eq_refl eq_refl eq_refl eq_refl)
  as [e [He [Ha [Hs _]]]].
exists e. split; [exact He |]. split; [exact Ha | exact Hs].
Defined.

(** C2, as stated, fails for the retry limit 0: before any attempt the
    count equals the limit and the entry is pending; the first failure
    makes the entry failed with a count of 1, which is not the limit. *)
Lemma retry_limit_zero_counterexample :
let before := Sample.entry 1 6 1 PENDING 0 None in
let after := Sample.entry 1 6 1 FAILED 1 None in
let w := worker_run Sample.clock [Sample.failing] Sample.world_zero in
0 <= Device.retry_limit Sample.dev_z
/\ transport_fails Sample.failing
/\ device_get 6 Sample.world_zero = Some Sample.dev_z
/\ inbox_get_by_id 1 Sample.world_zero = Some before
/\ DeviceInbox.delivery_attempts before = Device.retry_limit Sample.dev_z
/\ DeviceInbox.status before <> FAILED
/\ inbox_get_by_id 1 w = Some after
/\ DeviceInbox.status after = FAILED
/\ DeviceInbox.delivery_attempts after <> Device.retry_limit Sample.dev_z
/\ broker w = [].
Proof.
repeat split; try reflexivity; try discriminate.
Qed.

Lemma deliver_webhook_without_url_is_noop_witness :
(inbox_get_by_id 2 Sample.world_acked
 = Some (Sample.entry 2 4 1 DELIVERED 0 None)
 /\ device_get 4 Sample.world_acked = Some Sample.dev_d
 /\ fk_message (Sample.entry 2 4 1 DELIVERED 0 None) Sample.world_acked
 /\ column_truthy (Device.webhook_url Sample.dev_d) = false)
/\ deliver_webhook Sample.clock Sample.failing 2 Sample.world_acked
   = (Skipped_no_webhook_url, Sample.world_acked).
Proof.
assert (Hm : fk_message (Sample.entry 2 4 1 DELIVERED 0 None)
                        Sample.world_acked) by discriminate.
split; [repeat split; try reflexivity; exact Hm |].
exact (proj1 (deliver_webhook_without_url_is_noop Sample.clock Sample.failing
                2 Sample.world_acked (Sample.entry 2 4 1 DELIVERED 0 None)
                Sample.dev_d eq_refl eq_refl Hm eq_refl)).
Defined.

(* ================================================================== *)
(** ** Properties of acknowledge                                       *)
(* ================================================================== *)

Lemma NoDup_map_injective {A B : Type} (g : A -> B) (l : list A) :
NoDup (map g l) ->
forall a b, In a l -> In b l -> g a = g b -> a = b.
Proof.
induction l as [| c r IH]; simpl; intros Hn a b Ha Hb E; [contradiction |].
inversion Hn as [| ? ? Hc Hr]; subst.
destruct Ha as [<- | Ha], Hb as [<- | Hb]; auto.
- exfalso. apply Hc. rewrite E. now apply in_map.
- exfalso. apply Hc. rewrite <- E. now apply in_map.
Qed.

Lemma filter_map_commute {A : Type} (P : A -> bool) (f : A -> A) (l : list A) :
(forall r, In r l -> P (f r) = P r) ->
filter P (map f l) = map f (filter P l).
Proof.
induction l as [| a r IH]; simpl; intros H; [reflexivity |].
rewrite (H a (or_introl eq_refl)).
destruct (P a); simpl; rewrite IH; auto.
Qed.

Lemma inbox_get_returned (dev msg : Z) (w : World) (e : DeviceInbox.t) :
inbox_get dev msg w = Returned e <->
filter (same_pair dev msg) (device_inbox w) = [e].
Proof.
unfold inbox_get.
destruct (filter (same_pair dev msg) (device_inbox w)) as [| a [| b l]];
  split; intros H; try discriminate; congruence.
Qed.

Lemma inbox_get_missing (dev msg : Z) (w : World) :
inbox_get dev msg w = Raised DoesNotExist <->
~ exists e, In e (device_inbox w)
            /\ DeviceInbox.device e = dev /\ DeviceInbox.message e = msg.
Proof.
unfold inbox_get.
destruct (filter (same_pair dev msg) (device_inbox w)) as [| a [| b l]] eqn:F.
- split; [| reflexivity]. intros _ [e [He Hp]].
  apply same_pair_true in Hp.
  assert (K : In e (filter (same_pair dev msg) (device_inbox w)))
    by (apply filter_In; auto).
  rewrite F in K. destruct K.
- split; [discriminate |]. intros H. exfalso. apply H. exists a.
  assert (K : In a (filter (same_pair dev msg) (device_inbox w)))
    by (rewrite F; now left).
  apply filter_In in K as [K1 K2]. apply same_pair_true in K2. auto.
- split; [discriminate |]. intros H. exfalso. apply H. exists a.
  assert (K : In a (filter (same_pair dev msg) (device_inbox w)))
    by (rewrite F; now left).
  apply filter_In in K as [K1 K2]. apply same_pair_true in K2. auto.
Qed.

Lemma inbox_get_save (dev msg : Z) (w : World) (e e' : DeviceInbox.t) :
pk_unique w ->
inbox_get dev msg w = Returned e ->
DeviceInbox.id e' = DeviceInbox.id e ->
same_pair dev msg e' = true ->
inbox_get dev msg (inbox_save e' w) = Returned e'.
Proof.
intros Hn Hg Hid Hp. apply inbox_get_returned in Hg.
apply inbox_get_returned. unfold inbox_save. simpl.
assert (He : In e (device_inbox w) /\ same_pair dev msg e = true).
{ apply filter_In. rewrite Hg. now left. }
destruct He as [He Hpe].
rewrite filter_map_commute.
- rewrite Hg. simpl. rewrite <- Hid, Z.eqb_refl. reflexivity.
- intros r Hr. destruct (DeviceInbox.id r =? DeviceInbox.id e') eqn:K;
    [| reflexivity].
  apply Z.eqb_eq in K. rewrite Hid in K.
  rewrite (NoDup_map_injective DeviceInbox.id _ Hn r e Hr He K).
  congruence.
Qed.

Lemma message_get_save (i : Z) (w : World) (m0 m : Message.t) :
message_get i w = Some m0 -> Message.message_id m = i ->
message_get i (message_save m w) = Some m.
Proof.
unfold message_get, message_save. simpl. intros H <-.
induction (messages w) as [| r rest IH]; simpl in *; [discriminate |].
destruct (Message.message_id r =? Message.message_id m) eqn:K.
- now rewrite Z.eqb_refl.
- rewrite K. auto.
Qed.

Section Acknowledge.

Variable clock : nat -> Z.

(** What the view does when it finds the entry. *)
Lemma acknowledge_message_found :
forall (user : Owner.t) (device : Device.t) (message_id : Z) (w : World)
       (e : DeviceInbox.t) (m : Message.t),
  has_permission device user = true ->
  pk_unique w ->
  inbox_get (Device.device_id device) message_id w = Returned e ->
  message_get message_id w = Some m ->
  let r := acknowledge_message clock user device message_id w in
  exists e' m',
    fst r = HTTP_200_acknowledged message_id (Device.device_id device)
    /\ inbox_get (Device.device_id device) message_id (snd r) = Returned e'
    /\ e' = DeviceInbox.set_acknowledged_at (Some (clock (ticks w)))
              (DeviceInbox.set_status ACKNOWLEDGED e)
    /\ message_get message_id (snd r) = Some m'
    /\ Message.read m' = true
    /\ Message.last_read_at m'
       = match Message.last_read_at m with
         | Some ts => Some ts
         | None => Some (clock (S (ticks w)))
         end
    /\ Message.last_modified_read m'
       = Some (clock (match Message.last_read_at m with
                      | Some _ => S (ticks w)
                      | None => S (S (ticks w))
                      end))
    /\ Message.acknowledge_status m' = Some "YES"
    /\ broker (snd r) = broker w.
Proof.
intros user device mid w e m Hperm Hn Hg Hm r.
pose proof (proj1 (inbox_get_returned _ _ _ _) Hg) as Hf.
assert (He : In e (device_inbox w)
             /\ same_pair (Device.device_id device) mid e = true).
{ apply filter_In. rewrite Hf. now left. }
destruct He as [He Hp].
pose proof (proj1 (same_pair_true _ _ _) Hp) as [Hd Hmsg].
set (e' := DeviceInbox.set_acknowledged_at (Some (clock (ticks w)))
             (DeviceInbox.set_status ACKNOWLEDGED e)).
assert (Hg' : forall w0, device_inbox w0 = device_inbox w ->
                inbox_get (Device.device_id device) mid (inbox_save e' w0)
                = Returned e').
{ intros w0 E. apply (inbox_get_save _ _ w0 e).
  - unfold pk_unique. now rewrite E.
  - apply inbox_get_returned. rewrite E. exact Hf.
  - reflexivity.
  - exact Hp. }
subst r. unfold acknowledge_message. rewrite Hperm. cbn [negb].
rewrite Hg. unfold timezone_now. cbn [ticks devices messages device_inbox inbox_seq broker].
fold e'.
set (w1 := mkWorld (devices w) (messages w) (device_inbox w) (inbox_seq w)
                   (broker w) (S (ticks w))).
change (message_get (DeviceInbox.message e') (inbox_save e' w1))
  with (message_get (DeviceInbox.message e) w).
rewrite Hmsg, Hm.
assert (Hmid : Message.message_id m = mid).
{ unfold message_get in Hm. apply find_some in Hm as [_ K].
  now apply Z.eqb_eq. }
destruct (Message.last_read_at m) as [ts |] eqn:L; cbn [fst snd];
  eexists e', _;
  (split; [reflexivity |]);
  (split; [exact (Hg' w eq_refl) |]);
  (split; [reflexivity |]);
  (split; [apply (message_get_save mid _ m); [exact Hm | exact Hmid] |]);
  repeat split; reflexivity.
Qed.

(** C5.  For a caller who may act for the device, [acknowledge_message]
    answers "not found" exactly when the inbox holds no entry for the
    (device, message) pair, and then changes nothing.  When the entry is
    there, the answer is "acknowledged"; the entry gets the status
    acknowledged and the current time as [acknowledged_at]; the message
    gets [read = true], keeps its [last_read_at] when it had one and gets
    the current time otherwise, gets a new [last_modified_read], and
    [acknowledge_status = "YES"]. *)
Theorem acknowledge_message_spec :
forall (user : Owner.t) (device : Device.t) (message_id : Z) (w : World),
  has_permission device user = true ->
  let r := acknowledge_message clock user device message_id w in
  (fst r = HTTP_404_NOT_FOUND <->
   ~ exists e, In e (device_inbox w)
               /\ DeviceInbox.device e = Device.device_id device
               /\ DeviceInbox.message e = message_id)
  /\ (fst r = HTTP_404_NOT_FOUND -> snd r = w)
  /\ (forall e m,
         pk_unique w ->
         inbox_get (Device.device_id device) message_id w = Returned e ->
         message_get message_id w = Some m ->
         exists e' m',
           fst r = HTTP_200_acknowledged message_id (Device.device_id device)
           /\ inbox_get (Device.device_id device) message_id (snd r)
              = Returned e'
           /\ DeviceInbox.status e' = ACKNOWLEDGED
           /\ DeviceInbox.acknowledged_at e' = Some (clock (ticks w))
           /\ message_get message_id (snd r) = Some m'
           /\ Message.read m' = true
           /\ (Message.last_read_at m = None ->
               Message.last_read_at m' = Some (clock (S (ticks w))))
           /\ (forall ts, Message.last_read_at m = Some ts ->
                          Message.last_read_at m' = Some ts)
           /\ (exists k, (ticks w < k)%nat
                         /\ Message.last_modified_read m' = Some (clock k))
           /\ Message.acknowledge_status m' = Some "YES").
Proof.
intros user device mid w Hperm r.
assert (K : fst r = HTTP_404_NOT_FOUND <->
            inbox_get (Device.device_id device) mid w = Raised DoesNotExist).
{ subst r. unfold acknowledge_message. rewrite Hperm. cbn [negb].
  destruct (inbox_get (Device.device_id device) mid w) as [e | ex].
  - unfold timezone_now; cbn [fst snd].
    destruct (message_get _ _) as [m |]; [| split; discriminate].
    destruct (Message.last_read_at m); split; discriminate.
  - destruct ex; split; intros H; try discriminate; reflexivity. }
split; [rewrite K; apply inbox_get_missing |].
split.
- intros H. apply K in H. subst r. unfold acknowledge_message.
  rewrite Hperm. cbn [negb]. now rewrite H.
- intros e m Hn Hg Hm.
  destruct (acknowledge_message_found user device mid w e m Hperm Hn Hg Hm)
    as [e' [m' [H1 [H2 [H3 [H4 [H5 [H6 [H7 [H8 H9]]]]]]]]]].
  exists e', m'. fold r in H1, H2, H4.
  split; [exact H1 |]. split; [exact H2 |].
  split; [subst e'; reflexivity |]. split; [subst e'; reflexivity |].
  split; [exact H4 |]. split; [exact H5 |].
  split; [intros L; now rewrite L in H6 |].
  split; [intros ts L; now rewrite L in H6 |].
  split; [| exact H8].
  eexists. split; [| exact H7].
  destruct (Message.last_read_at m); lia.
Qed.

(** C10.  Whatever the status of the entry is (pending, delivered,
    acknowledged or failed) and whatever its [acknowledged_at] was,
    [acknowledge_message] sets the status to acknowledged and
    [acknowledged_at] to the time of the call, and leaves the other
    columns of the entry as they are. *)
Theorem acknowledge_message_unconditional :
forall (user : Owner.t) (device : Device.t) (message_id : Z) (w : World)
       (e : DeviceInbox.t) (m : Message.t),
  has_permission device user = true ->
  pk_unique w ->
  inbox_get (Device.device_id device) message_id w = Returned e ->
  message_get message_id w = Some m ->
  let r := acknowledge_message clock user device message_id w in
  exists e',
    inbox_get (Device.device_id device) message_id (snd r) = Returned e'
    /\ DeviceInbox.status e' = ACKNOWLEDGED
    /\ DeviceInbox.acknowledged_at e' = Some (clock (ticks w))
    /\ DeviceInbox.id e' = DeviceInbox.id e
    /\ DeviceInbox.device e' = DeviceInbox.device e
    /\ DeviceInbox.message e' = DeviceInbox.message e
    /\ DeviceInbox.delivery_attempts e' = DeviceInbox.delivery_attempts e
    /\ DeviceInbox.created_at e' = DeviceInbox.created_at e
    /\ DeviceInbox.delivered_at e' = DeviceInbox.delivered_at e.
Proof.
intros user device mid w e m Hperm Hn Hg Hm r.
destruct (acknowledge_message_found user device mid w e m Hperm Hn Hg Hm)
  as [e' [m' [_ [H2 [H3 _]]]]].
exists e'. split; [exact H2 |]. subst e'. repeat split.
Qed.

(** C4, amended.  Acknowledging an entry that is acknowledged already is
    not an error and leaves it acknowledged; but [acknowledged_at] is set
    again, to the time of this call, so that it stays what it was only
    when the clock still shows the time of the earlier acknowledgement.
    The message keeps the [last_read_at] it has when it has one, and gets
    the time of this call as [last_read_at] when it has none. *)
Theorem acknowledge_message_again :
forall (user : Owner.t) (device : Device.t) (message_id : Z) (w : World)
       (e : DeviceInbox.t) (m : Message.t) (earlier : Z),
  has_permission device user = true ->
  pk_unique w ->
  inbox_get (Device.device_id device) message_id w = Returned e ->
  message_get message_id w = Some m ->
  DeviceInbox.status e = ACKNOWLEDGED ->
  DeviceInbox.acknowledged_at e = Some earlier ->
  let r := acknowledge_message clock user device message_id w in
  fst r = HTTP_200_acknowledged message_id (Device.device_id device)
  /\ exists e' m',
      inbox_get (Device.device_id device) message_id (snd r) = Returned e'
      /\ DeviceInbox.status e' = ACKNOWLEDGED
      /\ DeviceInbox.acknowledged_at e' = Some (clock (ticks w))
      /\ (DeviceInbox.acknowledged_at e' = DeviceInbox.acknowledged_at e
          <-> clock (ticks w) = earlier)
      /\ message_get message_id (snd r) = Some m'
      /\ Message.last_read_at m'
         = match Message.last_read_at m with
           | Some ts => Some ts
           | None => Some (clock (S (ticks w)))
           end.
Proof.
intros user device mid w e m earlier Hperm Hn Hg Hm Hst Hat r.
destruct (acknowledge_message_found user device mid w e m Hperm Hn Hg Hm)
  as [e' [m' [H1 [H2 [H3 [H4 [_ [H6 _]]]]]]]].
split; [exact H1 |]. exists e', m'.
split; [exact H2 |]. split; [subst e'; reflexivity |].
split; [subst e'; reflexivity |].
split; [| split; [exact H4 | exact H6]].
rewrite Hat. subst e'. cbn. split; congruence.
Qed.

End Acknowledge.

Lemma acknowledge_message_spec_witness :
has_permission Sample.dev_d Sample.alice = true
/\ (fst (acknowledge_message Sample.clock Sample.alice Sample.dev_d 3
           Sample.world_acked) = HTTP_404_NOT_FOUND
    <-> ~ exists e, In e (device_inbox Sample.world_acked)
                    /\ DeviceInbox.device e = Device.device_id Sample.dev_d
                    /\ DeviceInbox.message e = 3)
/\ fst (acknowledge_message Sample.clock Sample.alice Sample.dev_d 3
          Sample.world_acked) = HTTP_404_NOT_FOUND
/\ fst (acknowledge_message Sample.clock Sample.alice Sample.dev_d 2
          Sample.world_acked) = HTTP_200_acknowledged 2 4.
Proof.
split; [reflexivity |].
split; [| split; reflexivity].
exact (proj1 (acknowledge_message_spec Sample.clock Sample.alice Sample.dev_d
                3 Sample.world_acked eq_refl)).
Defined.

Lemma acknowledge_message_unconditional_witness :
(has_permission Sample.dev_d Sample.alice = true
 /\ pk_unique Sample.world_acked
 /\ inbox_get 4 1 Sample.world_acked
    = Returned (Sample.entry 2 4 1 DELIVERED 0 None)
 /\ message_get 1 Sample.world_acked = Some Sample.msg1_read)
/\ exists e',
    inbox_get 4 1
      (snd (acknowledge_message Sample.clock Sample.alice Sample.dev_d 1
              Sample.world_acked)) = Returned e'
    /\ DeviceInbox.status e' = ACKNOWLEDGED
    /\ DeviceInbox.acknowledged_at e' = Some 1000.
Proof.
assert (Hn : pk_unique Sample.world_acked).
{ unfold pk_unique. simpl.
  repeat constructor; simpl; intuition discriminate. }
split; [repeat split; try reflexivity; exact Hn |].
destruct (acknowledge_message_unconditional Sample.clock Sample.alice
            Sample.dev_d 1 Sample.world_acked
            (Sample.entry 2 4 1 DELIVERED 0 None) Sample.msg1_read
            eq_refl Hn eq_refl eq_refl) as [e' [H1 [H2 [H3 _]]]].
exists e'. auto.
Defined.

(** A failed entry is acknowledged as well. *)
Example acknowledge_failed_entry :
let r := acknowledge_message Sample.clock Sample.alice Sample.dev_d 2
           Sample.world_acked in
inbox_get 4 2 Sample.world_acked = Returned (Sample.entry 3 4 2 FAILED 3 None)
/\ fst r = HTTP_200_acknowledged 2 4
/\ inbox_get 4 2 (snd r)
   = Returned (Sample.entry 3 4 2 ACKNOWLEDGED 3 (Some 1000)).
Proof. repeat split; reflexivity. Qed.

Lemma acknowledge_message_again_witness :
(has_permission Sample.dev_b Sample.alice = true
 /\ pk_unique Sample.world_acked
 /\ inbox_get 2 1 Sample.world_acked
    = Returned (Sample.entry 1 2 1 ACKNOWLEDGED 0 (Some 960))
 /\ message_get 1 Sample.world_acked = Some Sample.msg1_read)
/\ fst (acknowledge_message Sample.clock Sample.alice Sample.dev_b 1
          Sample.world_acked) = HTTP_200_acknowledged 1 2.
Proof.
assert (Hn : pk_unique Sample.world_acked).
{ unfold pk_unique. simpl.
  repeat constructor; simpl; intuition discriminate. }
split; [repeat split; try reflexivity; exact Hn |].
exact (proj1 (acknowledge_message_again Sample.clock Sample.alice
                Sample.dev_b 1 Sample.world_acked
                (Sample.entry 1 2 1 ACKNOWLEDGED 0 (Some 960))
                Sample.msg1_read 960 eq_refl Hn eq_refl eq_refl
                eq_refl eq_refl)).
Defined.

(** C4, as stated, fails: [dev_b] has acknowledged [msg1] at time 960;
    acknowledging again at time 1000 is answered without error, and the
    entry then carries 1000 as [acknowledged_at]. *)
Lemma acknowledge_again_counterexample :
let r := acknowledge_message Sample.clock Sample.alice Sample.dev_b 1
           Sample.world_acked in
inbox_get 2 1 Sample.world_acked
= Returned (Sample.entry 1 2 1 ACKNOWLEDGED 0 (Some 960))
/\ fst r = HTTP_200_acknowledged 1 2
/\ inbox_get 2 1 (snd r)
   = Returned (Sample.entry 1 2 1 ACKNOWLEDGED 0 (Some 1000))
/\ Some 1000 <> Some 960.
Proof. repeat split; try reflexivity. discriminate. Qed.

(* ================================================================== *)
(** ** More on the NID texts                                           *)
(* ================================================================== *)

Lemma skip_spaces_suffix (c : ascii) (s : string) :
In c (list_ascii_of_string (Py.skip_spaces s)) -> In c (list_ascii_of_string s).
Proof.
induction s as [| a r IH]; simpl; [tauto |].
destruct (Py.Py_ISSPACE a); simpl; auto.
Qed.

Lemma digit_in_nonneg (base : Z) (c : ascii) (d : Z) :
Py.digit_in base c = Some d -> 0 <= d.
Proof.
unfold Py.digit_in, Py.digit_value.
repeat match goal with
       | |- context [if ?b then _ else _] => destruct b
       end; intros H; inversion H; lia.
Qed.

Lemma scan_digits_nonneg (base : Z) (s : string) :
0 <= base ->
forall prev seen acc v rest,
  0 <= acc ->
  Py.scan_digits base s prev seen acc = Some (v, rest) -> 0 <= v.
Proof.
intros Hb. induction s as [| c r IH]; intros prev seen acc v rest Ha;
  cbn [Py.scan_digits].
- destruct (prev || negb seen); intros H; inversion H; now subst.
- destruct (Ascii.eqb c "_").
  + destruct prev; [discriminate | apply IH; exact Ha].
  + destruct (Py.digit_in base c) as [d |] eqn:D.
    * apply IH. pose proof (digit_in_nonneg _ _ _ D). nia.
    * destruct (prev || negb seen); intros H; inversion H; now subst.
Qed.

Lemma skip_prefix_suffix (base : Z) (c : ascii) (s : string) :
In c (list_ascii_of_string (Py.skip_prefix base s)) ->
In c (list_ascii_of_string s).
Proof.
unfold Py.skip_prefix.
destruct s as [| a [| b r]]; try tauto.
- destruct a as [[|] [|] [|] [|] [|] [|] [|] [|]]; tauto.
- destruct a as [[|] [|] [|] [|] [|] [|] [|] [|]]; try tauto.
  destruct (_ && _); [| tauto].
  intros H. right. right.
  destruct r as [| u r']; [exact H |].
  destruct u as [[|] [|] [|] [|] [|] [|] [|] [|]]; try exact H;
    now right.
Qed.

Lemma unsigned_literal_nonneg (base : Z) (s : string) (n : Z) :
0 <= base -> Py.unsigned_literal base s = Some n -> 0 <= n.
Proof.
intros Hb. unfold Py.unsigned_literal.
assert (K : match Py.scan_digits base (Py.skip_prefix base s) false false 0
            with
            | Some (v, rest) =>
                match Py.skip_spaces rest with
                | EmptyString => Some v
                | String _ _ => None
                end
            | None => None
            end = Some n -> 0 <= n).
{ destruct (Py.scan_digits base (Py.skip_prefix base s) false false 0)
    as [[v rest] |] eqn:E; [| discriminate].
  destruct (Py.skip_spaces rest); [| discriminate].
  intros H. injection H as <-.
  apply (scan_digits_nonneg base _ Hb _ _ 0 v rest ltac:(lia) E). }
destruct (Py.skip_prefix base s) as [| a r]; [exact K |].
destruct a as [[|] [|] [|] [|] [|] [|] [|] [|]]; try exact K; discriminate.
Qed.

Lemma int_of_cases (base : Z) (s : string) :
Py.int_of base s
= match Py.skip_spaces s with
  | EmptyString => Py.unsigned_literal base EmptyString
  | String c r =>
      if Ascii.eqb c "+" then Py.unsigned_literal base r
      else if Ascii.eqb c "-" then option_map Z.opp (Py.unsigned_literal base r)
      else Py.unsigned_literal base (String c r)
  end.
Proof.
unfold Py.int_of. destruct (Py.skip_spaces s) as [| c r]; [reflexivity |].
destruct c as [[|] [|] [|] [|] [|] [|] [|] [|]]; reflexivity.
Qed.

(** A text without hyphen is never read as a negative number. *)
Lemma int_of_nonneg (base : Z) (s : string) (n : Z) :
0 <= base ->
~ In "-"%char (list_ascii_of_string s) ->
Py.int_of base s = Some n -> 0 <= n.
Proof.
intros Hb Hh. rewrite int_of_cases.
destruct (Py.skip_spaces s) as [| c r] eqn:L.
- now apply unsigned_literal_nonneg.
- destruct (Ascii.eqb c "+"); [now apply unsigned_literal_nonneg |].
  destruct (Ascii.eqb c "-") eqn:E; [| now apply unsigned_literal_nonneg].
  exfalso. apply Hh. apply skip_spaces_suffix. rewrite L.
  apply Ascii.eqb_eq in E. subst c. now left.
Qed.

Lemma normalize_nid_text_nonneg_aux (s : string) (n : Z) :
normalize_nid (Py.PStr s) = Some n -> 0 <= n.
Proof.
unfold normalize_nid. cbn [Py.str].
pose proof (remove_char_absent "-" (Py.strip s)) as Hh.
destruct (String.eqb _ ""); [discriminate |].
destruct (Py.startswith _ "0x"); apply int_of_nonneg; auto; lia.
Qed.

(** X1.  [normalize_nid] never gives a negative number for a text: a
    hyphen is a separator, not a sign.  (A number given as [int] comes
    back as it is, a negative one included.) *)
Theorem normalize_nid_text_nonnegative :
forall (s : string) (n : Z),
  normalize_nid (Py.PStr s) = Some n -> 0 <= n.
Proof. exact normalize_nid_text_nonneg_aux. Qed.

Lemma normalize_nid_text_nonnegative_witness :
normalize_nid (Py.PStr "-42") = Some 42 /\ 0 <= 42.
Proof.
split; [reflexivity |].
exact (normalize_nid_text_nonnegative "-42" 42 eq_refl).
Defined.

Lemma set_add_length (s : string) (vs : set string) :
(List.length (add_variant s vs) <= S (List.length vs))%nat.
Proof.
unfold add_variant. induction vs as [| a r IH]; simpl; [lia |].
destruct (string_dec s a); simpl; lia.
Qed.

Lemma add_variant_NoDup (s : string) (vs : set string) :
NoDup vs -> NoDup (add_variant s vs).
Proof. apply set_add_nodup. Qed.

(** X2.  [nid_variants] gives a set: no text twice, at most eight texts,
    none for [None], and for any other value the text of the value itself
    is among them. *)
Theorem nid_variants_is_set :
forall v : Py.value,
  NoDup (nid_variants v)
  /\ (List.length (nid_variants v) <= 8)%nat
  /\ (v = Py.PNone -> nid_variants v = [])
  /\ (v <> Py.PNone -> In (Py.str v) (nid_variants v)).
Proof.
intros v.
assert (A : forall s vs n, NoDup vs -> (List.length vs <= n)%nat ->
              NoDup (add_variant s vs)
              /\ (List.length (add_variant s vs) <= S n)%nat).
{ intros s vs n H1 H2. split; [now apply add_variant_NoDup |].
  pose proof (set_add_length s vs). lia. }
split; [| split; [| split]].
- destruct v as [| n | s]; [constructor | |];
    unfold nid_variants;
    destruct (normalize_nid _);
    repeat apply add_variant_NoDup; constructor.
- destruct v as [| n | s]; [simpl; lia | |];
    unfold nid_variants;
    destruct (normalize_nid _);
    repeat (etransitivity; [apply set_add_length |]; apply le_n_S);
    simpl; lia.
- intros ->. reflexivity.
- intros Hv. apply nid_variants_In; [exact Hv | now left].
Qed.

Lemma nid_variants_is_set_witness :
Py.PStr "0xFFFFFFFF" <> Py.PNone
/\ In "0xFFFFFFFF" (nid_variants (Py.PStr "0xFFFFFFFF"))
/\ List.length (nid_variants (Py.PStr "0xFFFFFFFF")) = 4%nat.
Proof.
assert (H : Py.PStr "0xFFFFFFFF" <> Py.PNone) by discriminate.
split; [exact H |]. split; [| reflexivity].
exact (proj2 (proj2 (proj2 (nid_variants_is_set (Py.PStr "0xFFFFFFFF")))) H).
Defined.

Lemma strip_empty_text (v : string) : v = "" -> Py.strip v = "".
Proof. intros ->. reflexivity. Qed.

Lemma str_of_int_plain (n : Z) :
0 <= n ->
Py.strip (Py.str_of_int n) = Py.str_of_int n
/\ Py.remove_char "-" (Py.str_of_int n) = Py.str_of_int n
/\ Py.lower (Py.str_of_int n) = Py.str_of_int n
/\ Py.upper (Py.str_of_int n) = Py.str_of_int n
/\ Py.str_of_int n <> "".
Proof.
intros Hn. destruct n as [| p | p]; [repeat split; discriminate | | lia].
unfold Py.str_of_int.
cbn [Z.to_int DecimalString.NilZero.string_of_int].
unfold DecimalString.NilZero.string_of_uint.
pose proof (DecimalPos.Unsigned.to_uint_nonnil p) as Hd.
destruct (decimal_text_stable (Pos.to_uint p)) as [R [H [L U]]].
destruct (decimal_plain _ Hd) as [[[c [r [E Hc]]] _] _].
destruct (digit_is_plain 10 c Hc) as [Hsp _].
assert (S : Py.strip (DecimalString.NilEmpty.string_of_uint (Pos.to_uint p))
            = DecimalString.NilEmpty.string_of_uint (Pos.to_uint p)).
{ unfold Py.strip. rewrite E. cbn [Py.lstrip]. rewrite Hsp.
  rewrite <- E. exact R. }
destruct (Pos.to_uint p); [contradiction | ..];
  (split; [exact S |]); (split; [exact H |]); (split; [exact L |]);
  (split; [exact U | discriminate]).
Qed.

(** The texts that [nid_variants] gives for a canonical decimal text. *)
Lemma nid_variants_of_canonical (n : Z) (t : string) :
0 <= n -> In t (nid_variants (Py.PStr (Py.str_of_int n))) ->
normalize_nid (Py.PStr t) = Some n.
Proof.
intros Hn Ht.
apply nid_variants_In in Ht; [| discriminate].
pose proof (normalize_nid_str_of_int n Hn) as Hs.
destruct (normalize_nid_hex n Hn) as [H1 [H2 [H3 H4]]].
destruct (str_of_int_plain n Hn) as [_ [_ [Hlo [Hup _]]]].
cbn [Py.str] in Ht.
destruct Ht as [-> | [-> | [-> | [k [Hk Ht]]]]];
  [exact Hs | now rewrite Hlo | now rewrite Hup |].
rewrite Hs in Hk. injection Hk as <-.
destruct Ht as [-> | [-> | [-> | [-> | ->]]]]; assumption.
Qed.

Lemma broadcast_values_read (t : string) :
In t broadcast_values -> normalize_nid (Py.PStr t) = Some 0xFFFFFFFF.
Proof.
intros [<- | [<- | [<- | []]]]; reflexivity.
Qed.

(** X3.  The texts of one NID are equal for routing: every text that
    [nid_variants] gives for a number [n >= 0] (decimal, [0x] and [0X]
    hexadecimal in lower and upper case) is read back by [normalize_nid]
    as [n]. *)
Theorem nid_variants_normalize_to_the_nid :
forall (n : Z) (t : string),
  0 <= n -> In t (nid_variants (Py.PInt n)) ->
  normalize_nid (Py.PStr t) = Some n.
Proof. intros n t. apply nid_variants_read_back. Qed.

Lemma nid_variants_normalize_to_the_nid_witness :
(0 <= 1193046 /\ In "0X123456" (nid_variants (Py.PInt 1193046)))
/\ normalize_nid (Py.PStr "0X123456") = Some 1193046.
Proof.
assert (H0 : 0 <= 1193046) by discriminate.
assert (H1 : In "0X123456" (nid_variants (Py.PInt 1193046)))
  by (vm_compute; tauto).
split; [split; assumption |].
exact (nid_variants_normalize_to_the_nid 1193046 "0X123456" H0 H1).
Defined.

(** X4.  Between devices that store their NID as canonical decimal text,
    in a group that uses the NID and for a message without override: a
    candidate with the NID [m] passes Step 2 of a source with the NID [n]
    exactly when [m = n] or [m] is the broadcast value 4294967295. *)
Theorem nid_filtering_canonical :
forall message source_device candidates d (n m : Z),
  Group.uses_nid (Device.group source_device) = true ->
  Py.truthy (payload_get (Message.payload message) "nid") = false ->
  0 <= n -> 0 <= m ->
  Device.nid source_device = Some (Py.str_of_int n) ->
  Device.nid d = Some (Py.str_of_int m) ->
  In d candidates ->
  (In d (nid_filtering message source_device candidates)
   <-> m = n \/ m = 0xFFFFFFFF).
Proof.
intros message src cands d n m Hg Hp Hn Hm Es Ed Hd.
assert (Ev : message_nid message src = Py.PStr (Py.str_of_int n)).
{ unfold message_nid, Py.or_else. now rewrite Hp, Es. }
rewrite (nid_filtering_resolved message src cands Hg)
  by (rewrite Ev; discriminate).
rewrite Ev, filter_In, nid_filter_iff.
pose proof (normalize_nid_str_of_int m Hm) as Rm.
split.
- intros [_ [t [Et [H | H]]]]; rewrite Ed in Et; injection Et as <-.
  + left. apply (nid_variants_of_canonical n _ Hn) in H. congruence.
  + right. apply broadcast_values_read in H. congruence.
- intros H. split; [exact Hd |]. exists (Py.str_of_int m).
  split; [exact Ed |]. destruct H as [-> | ->].
  + left. apply nid_variants_In; [discriminate | now left].
  + right. vm_compute. tauto.
Qed.

Lemma nid_filtering_canonical_witness :
(Group.uses_nid (Device.group Sample.dev_a) = true
 /\ Py.truthy (payload_get (Message.payload Sample.msg1) "nid") = false
 /\ Device.nid Sample.dev_a = Some (Py.str_of_int 1193046)
 /\ Device.nid Sample.dev_c = Some (Py.str_of_int 9999999)
 /\ In Sample.dev_c [Sample.dev_c])
/\ ~ In Sample.dev_c (nid_filtering Sample.msg1 Sample.dev_a [Sample.dev_c]).
Proof.
split; [repeat split; try reflexivity; now left |].
intros H.
apply (nid_filtering_canonical Sample.msg1 Sample.dev_a [Sample.dev_c]
         Sample.dev_c 1193046 9999999 eq_refl eq_refl
         ltac:(discriminate) ltac:(discriminate) eq_refl eq_refl
         (or_introl eq_refl)) in H.
destruct H; discriminate.
Defined.

(* ================================================================== *)
(** ** The NID of a device at registration                             *)
(* ================================================================== *)

(** On a text that is not blank, validation is normalization followed by
    the test of the upper bound. *)
Lemma validate_nid_normalize (v : string) :
Py.strip v <> "" ->
validate_nid (Some v)
= match normalize_nid (Py.PStr v) with
  | Some n =>
      if n >? MAX_NID then ValidationError
      else Valid (Some (Py.str_of_int n))
  | None => ValidationError
  end.
Proof.
intros Hs. unfold validate_nid, normalize_nid. cbn [Py.str].
destruct (String.eqb_spec (Py.strip v) "") as [| _]; [contradiction |].
assert (Hv : Py.truthy (Py.PStr v) = true).
{ cbn [Py.truthy]. destruct (String.eqb_spec v "") as [E |]; [| reflexivity].
  exfalso. apply Hs. now apply strip_empty_text. }
rewrite Hv, startswith_lower_0x.
change (Py.startswith ?t "0x" || Py.startswith ?t "0X")
  with (has_hex_prefix t).
set (text := Py.remove_char "-" (Py.strip v)).
pose proof (remove_char_absent "-" (Py.strip v)) as Hh. fold text in Hh.
destruct (String.eqb_spec text "") as [E | E].
- rewrite E. reflexivity.
- destruct (has_hex_prefix text); [reflexivity |].
  destruct (Py.int_of 10 text) as [n |] eqn:I; [| reflexivity].
  pose proof (int_of_nonneg 10 text n ltac:(lia) Hh I) as Hn.
  destruct (Z.ltb_spec n 0); [lia | reflexivity].
Qed.

(** X5.  [validate_nid] accepts a text that is not blank exactly when
    [normalize_nid] reads it as a number of at most 0xFFFFFFFF, and then
    gives the decimal text of that number; it turns a blank text (and
    [None]) into [None]. *)
Theorem validate_nid_accepts :
forall v : string,
  (Py.strip v = "" -> validate_nid (Some v) = Valid None)
  /\ (Py.strip v <> "" ->
      forall t,
        validate_nid (Some v) = Valid t <->
        exists n, normalize_nid (Py.PStr v) = Some n
                  /\ 0 <= n <= MAX_NID /\ t = Some (Py.str_of_int n))
  /\ (Py.strip v <> "" ->
      (validate_nid (Some v) = ValidationError <->
       normalize_nid (Py.PStr v) = None
       \/ exists n, normalize_nid (Py.PStr v) = Some n /\ MAX_NID < n)).
Proof.
intros v. split; [| split].
- intros E. unfold validate_nid. now rewrite E.
- intros Hs t. rewrite (validate_nid_normalize v Hs).
  destruct (normalize_nid (Py.PStr v)) as [n |] eqn:N.
  + pose proof (normalize_nid_text_nonneg_aux v n N) as Hn.
    destruct (Z.gtb_spec n MAX_NID) as [G | G]; split.
    * discriminate.
    * intros [k [Hk [Hr _]]]. injection Hk as <-. lia.
    * intros H. injection H as <-. exists n. repeat split; auto; lia.
    * intros [k [Hk [_ ->]]]. now injection Hk as <-.
  + split; [discriminate | intros [k [Hk _]]; discriminate].
- intros Hs. rewrite (validate_nid_normalize v Hs).
  destruct (normalize_nid (Py.PStr v)) as [n |] eqn:N.
  + destruct (Z.gtb_spec n MAX_NID) as [G | G]; split.
    * intros _. right. exists n. split; [reflexivity | lia].
    * reflexivity.
    * discriminate.
    * intros [H | [k [Hk Hlt]]]; [discriminate |].
      injection Hk as <-. lia.
  + split; [now left | reflexivity].
Qed.

Lemma validate_nid_accepts_witness :
Py.strip " 0x12-34-56 " <> ""
/\ validate_nid (Some " 0x12-34-56 ") = Valid (Some "1193046")
/\ validate_nid (Some "0x1FFFFFFFF") = ValidationError.
Proof.
assert (H : Py.strip " 0x12-34-56 " <> "") by discriminate.
split; [exact H |]. split; [| reflexivity].
apply (proj1 (proj2 (validate_nid_accepts " 0x12-34-56 ")) H).
exists 1193046. repeat split; discriminate.
Defined.

(** X6.  What [validate_nid] stores is canonical: the stored text is read
    by [normalize_nid] as the same number as the text that was given, a
    number from 0 to 0xFFFFFFFF; it is one of the [nid_variants] of the
    given text, so that a source with the given text matches a candidate
    with the stored one; and validating the stored text again gives it
    back. *)
Theorem validate_nid_stores_canonical :
forall v t : string,
  validate_nid (Some v) = Valid (Some t) ->
  (exists n, 0 <= n <= MAX_NID /\ t = Py.str_of_int n
             /\ normalize_nid (Py.PStr v) = Some n
             /\ normalize_nid (Py.PStr t) = Some n)
  /\ In t (nid_variants (Py.PStr v))
  /\ validate_nid (Some t) = Valid (Some t).
Proof.
intros v t H.
assert (Hs : Py.strip v <> "").
{ intros E. unfold validate_nid in H. rewrite E in H. discriminate. }
rewrite (validate_nid_normalize v Hs) in H.
destruct (normalize_nid (Py.PStr v)) as [n |] eqn:N; [| discriminate].
destruct (Z.gtb_spec n MAX_NID) as [G | G]; [discriminate |].
injection H as <-.
pose proof (normalize_nid_text_nonneg_aux v n N) as Hn.
pose proof (normalize_nid_str_of_int n Hn) as R.
split; [exists n; repeat split; auto |].
split.
- apply nid_variants_In; [discriminate |].
  right; right; right. exists n. split; [exact N | now left].
- destruct (str_of_int_plain n Hn) as [S [_ [_ [_ Ne]]]].
  rewrite validate_nid_normalize by (rewrite S; exact Ne).
  rewrite R. destruct (Z.gtb_spec n MAX_NID); [lia | reflexivity].
Qed.

Lemma validate_nid_stores_canonical_witness :
validate_nid (Some "0xFFFF-FFFF") = Valid (Some "4294967295")
/\ In "4294967295" (nid_variants (Py.PStr "0xFFFF-FFFF"))
/\ validate_nid (Some "4294967295") = Valid (Some "4294967295").
Proof.
split; [reflexivity |].
exact (proj2 (validate_nid_stores_canonical "0xFFFF-FFFF" "4294967295"
                eq_refl)).
Defined.

(* ================================================================== *)
(** ** More on routing                                                 *)
(* ================================================================== *)

Lemma nid_filtering_incl message source_device candidates d :
In d (nid_filtering message source_device candidates) -> In d candidates.
Proof.
unfold nid_filtering. destruct (Group.uses_nid _); [| auto].
destruct (nid_variants _); [auto |]. intros H. now apply filter_In in H.
Qed.

Lemma distance_filtering_incl Distance source_device candidates d :
In d (distance_filtering Distance source_device candidates) ->
In d candidates.
Proof.
unfold distance_filtering.
destruct (Group.uses_distance _); [| auto].
destruct (Device.location source_device); [| auto].
destruct (radius_km source_device); [| auto].
intros H. now apply filter_In in H.
Qed.

Lemma NoDup_map_filter {A B : Type} (g : A -> B) (P : A -> bool) (l : list A) :
NoDup (map g l) -> NoDup (map g (filter P l)).
Proof.
induction l as [| a r IH]; simpl; intros H; [constructor |].
inversion H as [| ? ? Ha Hr]; subst.
destruct (P a); simpl; [| auto].
constructor; [| auto].
intros K. apply Ha. apply in_map_iff in K as [x [Ex Hx]].
apply filter_In in Hx as [Hx _]. rewrite <- Ex. now apply in_map.
Qed.

Lemma target_devices_NoDup Distance message source_device w :
NoDup (map Device.device_id (devices w)) ->
NoDup (map Device.device_id
           (target_devices Distance message source_device w)).
Proof.
intros H. unfold target_devices, distance_filtering, nid_filtering,
  group_filtering.
repeat match goal with
       | |- context [match ?x with _ => _ end] => destruct x
       end;
  repeat apply NoDup_map_filter; exact H.
Qed.

(** X7.  Routing never chooses the source itself, a device that is
    switched off, or a device of another group: every target is a row of
    the device table that is active, in the group of the source, and not
    the source. *)
Theorem target_devices_members :
forall Distance message source_device w d,
  In d (target_devices Distance message source_device w) ->
  In d (devices w)
  /\ Device.active d = true
  /\ Group.group_id (Device.group d)
     = Group.group_id (Device.group source_device)
  /\ Device.device_id d <> Device.device_id source_device.
Proof.
intros Distance message src w d H. unfold target_devices in H.
apply distance_filtering_incl, nid_filtering_incl in H.
unfold group_filtering in H. apply filter_In in H as [Hd Hp].
apply andb_true_iff in Hp as [Hp Hne].
apply andb_true_iff in Hp as [Hg Ha].
apply Z.eqb_eq in Hg. apply negb_true_iff, Z.eqb_neq in Hne. auto.
Qed.

Lemma target_devices_members_witness :
In Sample.dev_b
   (target_devices Sample.Distance Sample.msg1 Sample.dev_a Sample.world0)
/\ Device.active Sample.dev_b = true
/\ Device.device_id Sample.dev_b <> Device.device_id Sample.dev_a.
Proof.
assert (H : In Sample.dev_b
              (target_devices Sample.Distance Sample.msg1 Sample.dev_a
                 Sample.world0)) by (vm_compute; tauto).
split; [exact H |].
destruct (target_devices_members Sample.Distance Sample.msg1 Sample.dev_a
            Sample.world0 Sample.dev_b H) as [_ [Ha [_ Hne]]].
split; assumption.
Defined.

Section RoutingEffects.

Variable clock : nat -> Z.

Lemma scheduling_frame (message : Message.t) (d : Device.t) (i : Z)
      (w1 : World) :
let w2 := if column_truthy (Device.webhook_url d) then
            if Message.is_alarm message then delay i w1
            else apply_async i 0 w1
          else w1 in
device_inbox w2 = device_inbox w1 /\ inbox_seq w2 = inbox_seq w1
/\ devices w2 = devices w1 /\ messages w2 = messages w1
/\ broker w2
   = (broker w1
      ++ (if column_truthy (Device.webhook_url d)
          then [ {| task_inbox_id := i; countdown := 0 |} ] else []))%list.
Proof.
cbv zeta. destruct (column_truthy _).
- destruct (Message.is_alarm message); simpl; auto.
- rewrite app_nil_r. auto.
Qed.

(** The loop only appends: what it returns is what it has added. *)
Lemma inbox_population_appends message targets :
forall acc w,
  let r := inbox_population clock message targets acc w in
  exists added,
    device_inbox (snd r) = (device_inbox w ++ added)%list
    /\ devices (snd r) = devices w /\ messages (snd r) = messages w
    /\ Forall (fun e => fresh_entry e
                        /\ DeviceInbox.message e = Message.message_id message
                        /\ exists d, In d targets
                                     /\ DeviceInbox.device e
                                        = Device.device_id d) added
    /\ (forall entries, fst r = Returned entries ->
                        entries = (acc ++ added)%list).
Proof.
induction targets as [| d rest IH]; intros acc w; cbv zeta.
- exists []. cbn [inbox_population fst snd]. rewrite !app_nil_r.
  repeat split; [constructor |]. intros entries H. now injection H as <-.
- cbn [inbox_population].
  pose proof (inbox_create_created clock (Device.device_id d)
                (Message.message_id message) w) as Hc.
  pose proof (inbox_create_frame clock (Device.device_id d)
                (Message.message_id message) PENDING w) as Hf.
  destruct (inbox_create clock (Device.device_id d)
              (Message.message_id message) PENDING w) as [[e | ex] w1];
    cbn [fst snd] in Hc, Hf |- *.
  + destruct (scheduling_frame message d (DeviceInbox.id e) w1)
      as [Ei [_ [Ed [Em _]]]].
    set (w2 := if column_truthy (Device.webhook_url d) then _ else w1) in *.
    destruct (IH (acc ++ [e])%list w2) as [added [A1 [A2 [A3 [A4 A5]]]]].
    inversion Hc as [| e' w' Hex Hdv Hmg Hfr Hi]; subst.
    exists (e :: added).
    split; [rewrite A1, Ei, Hi, <- app_assoc; reflexivity |].
    split; [rewrite A2, Ed; tauto |]. split; [rewrite A3, Em; tauto |].
    split.
    * constructor.
      { split; [exact Hfr |]. split; [exact Hmg |].
        exists d. split; [now left | exact Hdv]. }
      { eapply Forall_impl; [| exact A4].
        intros x [X1 [X2 [d' [X3 X4]]]]. split; [exact X1 |].
        split; [exact X2 |]. exists d'. split; [now right | exact X4]. }
    * intros entries H. rewrite (A5 entries H), <- app_assoc. reflexivity.
  + exists []. rewrite app_nil_r.
    inversion Hc as [w' Hi |]; subst.
    split; [exact Hi |]. split; [tauto |]. split; [tauto |].
    split; [constructor | discriminate].
Qed.

Variable Distance : Point -> Point -> Float.t.

(** X8.  [route_message] only adds to the inbox: the rows that were there
    stay as they are, in place; every row it adds is pending, without
    attempt, for the routed message and for one of the targets; devices
    and messages are not written; and when the call returns, it returns
    the rows it has added. *)
Theorem route_message_only_appends :
forall message source_device w,
  let r := route_message clock Distance message source_device w in
  exists added,
    device_inbox (snd r) = (device_inbox w ++ added)%list
    /\ devices (snd r) = devices w /\ messages (snd r) = messages w
    /\ Forall (fun e =>
                 fresh_entry e
                 /\ DeviceInbox.message e = Message.message_id message
                 /\ exists d,
                      In d (target_devices Distance message source_device w)
                      /\ DeviceInbox.device e = Device.device_id d) added
    /\ (forall entries, fst r = Returned entries -> entries = added).
Proof.
intros message src w. cbv zeta. unfold route_message.
destruct (inbox_population_appends message
            (target_devices Distance message src w) [] w)
  as [added [A1 [A2 [A3 [A4 A5]]]]].
exists added. repeat split; auto.
Qed.

(** The loop on targets none of which has an entry: the entries and the
    tasks. *)
Lemma inbox_population_schedules message targets :
forall acc w,
  seq_fresh w ->
  NoDup (map Device.device_id targets) ->
  (forall d, In d targets ->
     existsb (same_pair (Device.device_id d) (Message.message_id message))
             (device_inbox w) = false) ->
  exists entries,
    inbox_population clock message targets acc w
    = (Returned (acc ++ entries)%list,
       snd (inbox_population clock message targets acc w))
    /\ device_inbox (snd (inbox_population clock message targets acc w))
       = (device_inbox w ++ entries)%list
    /\ map DeviceInbox.device entries = map Device.device_id targets
    /\ broker (snd (inbox_population clock message targets acc w))
       = (broker w ++ tasks_for targets entries)%list.
Proof.
induction targets as [| d rest IH]; intros acc w Hs Hn Hnew.
- exists []. cbn [inbox_population fst snd tasks_for].
  rewrite !app_nil_r. repeat split.
- cbn [inbox_population].
  assert (Hd : existsb (same_pair (Device.device_id d)
                          (Message.message_id message)) (device_inbox w)
               = false) by (apply Hnew; now left).
  destruct (inbox_create_new clock (Device.device_id d)
              (Message.message_id message) PENDING w Hs Hd)
    as [e [H1 [H2 H3]]].
  pose proof (inbox_create_fresh clock (Device.device_id d)
                (Message.message_id message) PENDING w Hs) as Hs1.
  pose proof (inbox_create_frame clock (Device.device_id d)
                (Message.message_id message) PENDING w) as Hf.
  rewrite H1. set (w1 := snd (inbox_create clock _ _ PENDING w)) in *.
  cbv zeta in Hf. destruct Hf as [_ [_ [Hb _]]].
  destruct (scheduling_frame message d (DeviceInbox.id e) w1)
    as [Ei [Eq [_ [_ Eb]]]].
  set (w2 := if column_truthy (Device.webhook_url d) then _ else w1) in *.
  assert (Hs2 : seq_fresh w2).
  { intros r Hr. rewrite Ei in Hr. rewrite Eq. now apply Hs1. }
  inversion Hn as [| ? ? Hnotin Hn']; subst.
  apply same_pair_true in H2 as [Hed Hem].
  destruct (IH (acc ++ [e])%list w2 Hs2 Hn') as [entries [R1 [R2 [R3 R4]]]].
  { intros d' Hd'. rewrite Ei, H3, existsb_app.
    rewrite (Hnew d' (or_intror Hd')). cbn [existsb orb].
    rewrite orb_false_r. unfold same_pair. rewrite Hed.
    destruct (Z.eqb_spec (Device.device_id d) (Device.device_id d'))
      as [K |]; [| reflexivity].
    exfalso. apply Hnotin. rewrite K. now apply in_map. }
  exists (e :: entries).
  split; [rewrite R1 at 1; cbn [snd]; rewrite <- app_assoc; reflexivity |].
  split; [rewrite R2, Ei, H3, <- app_assoc; reflexivity |].
  split; [cbn [map]; now rewrite R3, Hed |].
  rewrite R4, Eb, Hb. cbn [tasks_for]. now rewrite <- app_assoc.
Qed.

(** X9.  The first routing of a message.  When the inbox holds no entry
    for the message yet (and device keys are distinct), [route_message]
    returns one entry for each target, in the order of the targets, and
    schedules one delivery task (without countdown) for each target with
    a webhook URL, none for the others. *)
Theorem route_message_first_call :
forall message source_device w,
  seq_fresh w ->
  NoDup (map Device.device_id (devices w)) ->
  (forall e, In e (device_inbox w) ->
             DeviceInbox.message e <> Message.message_id message) ->
  let targets := target_devices Distance message source_device w in
  let r := route_message clock Distance message source_device w in
  exists entries,
    fst r = Returned entries
    /\ device_inbox (snd r) = (device_inbox w ++ entries)%list
    /\ map DeviceInbox.device entries = map Device.device_id targets
    /\ broker (snd r) = (broker w ++ tasks_for targets entries)%list.
Proof.
intros message src w Hs Hn Hnew targets r.
destruct (inbox_population_schedules message targets [] w Hs)
  as [entries [R1 [R2 [R3 R4]]]].
- now apply target_devices_NoDup.
- intros d _. destruct (existsb _ _) eqn:E; [| reflexivity].
  apply existsb_exists in E as [e [He Hp]].
  apply same_pair_true in Hp as [_ Hm]. now apply Hnew in He.
- exists entries. subst r. unfold route_message. fold targets.
  rewrite R1 at 1. cbn [fst]. auto.
Qed.

End RoutingEffects.

Lemma route_message_first_call_witness :
(seq_fresh Sample.world0
 /\ NoDup (map Device.device_id (devices Sample.world0))
 /\ (forall e, In e (device_inbox Sample.world0) ->
               DeviceInbox.message e <> Message.message_id Sample.msg1))
/\ exists entries,
    fst (route_message Sample.clock Sample.Distance Sample.msg1 Sample.dev_a
           Sample.world0) = Returned entries
    /\ map DeviceInbox.device entries = [2; 4; 5]
    /\ broker (snd (route_message Sample.clock Sample.Distance Sample.msg1
                      Sample.dev_a Sample.world0))
       = [ {| task_inbox_id := 1; countdown := 0 |} ].
Proof.
assert (Hs : seq_fresh Sample.world0) by (intros e []).
assert (Hn : NoDup (map Device.device_id (devices Sample.world0))).
{ simpl. repeat constructor; simpl; intuition discriminate. }
assert (Hm : forall e, In e (device_inbox Sample.world0) ->
               DeviceInbox.message e <> Message.message_id Sample.msg1)
  by (intros e []).
split; [repeat split; assumption |].
destruct (route_message_first_call Sample.clock Sample.Distance Sample.msg1
            Sample.dev_a Sample.world0 Hs Hn Hm)
  as [entries [R1 [_ [R3 _]]]].
exists entries. split; [exact R1 |]. split; [exact R3 | reflexivity].
Defined.

Lemma filter_comm {A : Type} (P Q : A -> bool) (l : list A) :
filter P (filter Q l) = filter Q (filter P l).
Proof.
induction l as [| a r IH]; simpl; [reflexivity |].
destruct (P a) eqn:EP, (Q a) eqn:EQ; simpl;
  rewrite ?EP, ?EQ, IH; reflexivity.
Qed.

Lemma filter_andb {A : Type} (P Q : A -> bool) (l : list A) :
filter (fun a => P a && Q a) l = filter Q (filter P l).
Proof.
induction l as [| a r IH]; simpl; [reflexivity |].
destruct (P a); simpl; [destruct (Q a) |]; now rewrite IH.
Qed.

Section RoutingAndRange.

Variable clock : nat -> Z.
Variable Distance : Point -> Point -> Float.t.

Lemma target_devices_same_nid (m m' : Message.t) source_device w :
payload_get (Message.payload m) "nid" = payload_get (Message.payload m') "nid" ->
target_devices Distance m source_device w
= target_devices Distance m' source_device w.
Proof.
intros E. unfold target_devices, nid_filtering, message_nid. now rewrite E.
Qed.

Lemma inbox_population_same_key (m m' : Message.t) targets :
Message.message_id m = Message.message_id m' ->
forall acc w,
  inbox_population clock m targets acc w
  = inbox_population clock m' targets acc w.
Proof.
intros E. induction targets as [| d rest IH]; intros acc w;
  cbn [inbox_population]; [reflexivity |].
rewrite E.
destruct (inbox_create clock _ _ PENDING w) as [[e | ex] w1];
  [| reflexivity].
assert (K : (if column_truthy (Device.webhook_url d)
             then if Message.is_alarm m then delay (DeviceInbox.id e) w1
                  else apply_async (DeviceInbox.id e) 0 w1
             else w1)
            = (if column_truthy (Device.webhook_url d)
               then if Message.is_alarm m' then delay (DeviceInbox.id e) w1
                    else apply_async (DeviceInbox.id e) 0 w1
               else w1)).
{ destruct (column_truthy _); [| reflexivity].
  destruct (Message.is_alarm m), (Message.is_alarm m'); reflexivity. }
rewrite K. apply IH.
Qed.

(** X10.  Routing reads of the message its key and the NID of its payload
    only: two messages that agree on these are routed alike, whatever
    their type is.  An alarm is scheduled as an alert is. *)
Theorem route_message_ignores_type :
forall (m m' : Message.t) source_device w,
  same_routing_input m m' ->
  route_message clock Distance m source_device w
  = route_message clock Distance m' source_device w.
Proof.
intros m m' src w [Ek En]. unfold route_message.
rewrite (target_devices_same_nid m m' src w En).
now apply inbox_population_same_key.
Qed.

(** X11.  The discovery query and routing choose the same devices: for a
    message without NID override and a device whose NID is not the empty
    text, [get_devices_in_network_range] gives the targets that
    [route_message] computes for a message from that device. *)
Theorem network_range_is_target_devices :
forall message device w,
  Py.truthy (payload_get (Message.payload message) "nid") = false ->
  Device.nid device <> Some "" ->
  get_devices_in_network_range Distance device w
  = target_devices Distance message device w.
Proof.
intros message device w Hp Hn.
unfold get_devices_in_network_range, target_devices,
  distance_filtering, nid_filtering, group_filtering, message_nid,
  Py.or_else.
rewrite Hp.
set (ne := fun d => negb (Device.device_id d =? Device.device_id device)).
set (ga := fun d => (Group.group_id (Device.group d)
                       =? Group.group_id (Device.group device))
                    && Device.active d).
assert (G : filter (fun d => (Group.group_id (Device.group d)
                               =? Group.group_id (Device.group device))
                             && Device.active d
                             && negb (Device.device_id d
                                        =? Device.device_id device))
                   (devices w)
            = filter ne (filter ga (devices w))).
{ apply (filter_andb ga ne). }
rewrite G.
assert (T : column_truthy (Device.nid device) = true
            \/ Py.of_column (Device.nid device) = Py.PNone).
{ unfold column_truthy. destruct (Device.nid device) as [s |]; [| now right].
  left. cbn. destruct (String.eqb_spec s ""); [subst; contradiction | auto]. }
destruct (Group.uses_nid (Device.group device)); cbn [andb].
- destruct T as [T | T].
  + rewrite T.
    destruct (nid_variants (Py.of_column (Device.nid device))) as [| v vs].
    * destruct (Group.uses_distance _); [| reflexivity].
      destruct (Device.location device); [| reflexivity].
      destruct (radius_km device); [| reflexivity].
      apply filter_comm.
    * rewrite (filter_comm (nid_filter (v :: vs)) ne).
      destruct (Group.uses_distance _); [| reflexivity].
      destruct (Device.location device); [| reflexivity].
      destruct (radius_km device); [| reflexivity].
      apply filter_comm.
  + rewrite T. cbn [nid_variants].
    destruct (column_truthy _);
      destruct (Group.uses_distance _); try reflexivity;
      destruct (Device.location device); try reflexivity;
      destruct (radius_km device); try reflexivity;
      apply filter_comm.
- destruct (Group.uses_distance _); [| reflexivity].
  destruct (Device.location device); [| reflexivity].
  destruct (radius_km device); [| reflexivity].
  apply filter_comm.
Qed.

End RoutingAndRange.

Lemma route_message_ignores_type_witness :
same_routing_input Sample.msg1
  (Sample.message 1 ALARM [("test", Py.PStr "data")] 1)
/\ route_message Sample.clock Sample.Distance Sample.msg1 Sample.dev_a
     Sample.world0
   = route_message Sample.clock Sample.Distance
       (Sample.message 1 ALARM [("test", Py.PStr "data")] 1) Sample.dev_a
       Sample.world0.
Proof.
assert (H : same_routing_input Sample.msg1
              (Sample.message 1 ALARM [("test", Py.PStr "data")] 1))
  by (split; reflexivity).
split; [exact H |].
exact (route_message_ignores_type Sample.clock Sample.Distance _ _
         Sample.dev_a Sample.world0 H).
Defined.

Lemma network_range_is_target_devices_witness :
(Py.truthy (payload_get (Message.payload Sample.msg1) "nid") = false
 /\ Device.nid Sample.loc_a <> Some "")
/\ get_devices_in_network_range Sample.Distance Sample.loc_a Sample.world0
   = target_devices Sample.Distance Sample.msg1 Sample.loc_a Sample.world0
/\ map Device.hid
       (get_devices_in_network_range Sample.Distance Sample.loc_a
          Sample.world0) = ["LB"].
Proof.
assert (H : Device.nid Sample.loc_a <> Some "") by discriminate.
split; [split; [reflexivity | exact H] |].
split; [| reflexivity].
exact (network_range_is_target_devices Sample.Distance Sample.msg1
         Sample.loc_a Sample.world0 eq_refl H).
Defined.

(* ================================================================== *)
(** ** The owners in network range                                     *)
(* ================================================================== *)

Lemma owner_set_add_ids (o : Owner.t) (s : list Owner.t) (i : Z) :
In i (map Owner.id (owner_set_add o s))
<-> i = Owner.id o \/ In i (map Owner.id s).
Proof.
induction s as [| a r IH]; simpl.
- intuition.
- destruct (Z.eqb_spec (Owner.id a) (Owner.id o)) as [E | E]; simpl.
  + rewrite E. intuition.
  + rewrite IH. intuition.
Qed.

Lemma owner_set_add_NoDup (o : Owner.t) (s : list Owner.t) :
NoDup (map Owner.id s) -> NoDup (map Owner.id (owner_set_add o s)).
Proof.
induction s as [| a r IH]; simpl; intros H.
- repeat constructor. intros [].
- destruct (Z.eqb_spec (Owner.id a) (Owner.id o)) as [E | E]; [exact H |].
  inversion H as [| ? ? Ha Hr]; subst. simpl. constructor; [| auto].
  rewrite owner_set_add_ids. intros [K | K]; [congruence | contradiction].
Qed.

Lemma collect_owners (l : list Device.t) :
forall acc,
  let r := fold_left (fun all_owners network_device =>
                        owner_set_add (Device.owner network_device)
                                      all_owners) l acc in
  (NoDup (map Owner.id acc) -> NoDup (map Owner.id r))
  /\ forall i, In i (map Owner.id r)
               <-> In i (map Owner.id acc)
                   \/ exists nd, In nd l /\ Owner.id (Device.owner nd) = i.
Proof.
induction l as [| d rest IH]; intros acc; cbv zeta; simpl.
- split; [auto |]. intros i. split; [auto |].
  intros [H | [nd [[] _]]]. exact H.
- destruct (IH (owner_set_add (Device.owner d) acc)) as [H1 H2].
  split.
  + intros H. apply H1. now apply owner_set_add_NoDup.
  + intros i. rewrite H2, owner_set_add_ids. split.
    * intros [[-> | H] | [nd [Hn E]]]; eauto.
    * intros [H | [nd [[<- | Hn] E]]]; eauto.
Qed.

Lemma collect_network_owners (range : Device.t -> list Device.t)
      (own : list Device.t) :
forall acc,
  let r := fold_left
             (fun all_owners device =>
                fold_left (fun all_owners network_device =>
                             owner_set_add (Device.owner network_device)
                                           all_owners)
                          (range device) all_owners) own acc in
  (NoDup (map Owner.id acc) -> NoDup (map Owner.id r))
  /\ forall i, In i (map Owner.id r)
               <-> In i (map Owner.id acc)
                   \/ exists device nd,
                        In device own /\ In nd (range device)
                        /\ Owner.id (Device.owner nd) = i.
Proof.
induction own as [| d rest IH]; intros acc; cbv zeta; simpl.
- split; [auto |]. intros i. split; [auto |].
  intros [H | [device [nd [[] _]]]]. exact H.
- destruct (collect_owners (range d) acc) as [C1 C2].
  destruct (IH (fold_left (fun all_owners network_device =>
                             owner_set_add (Device.owner network_device)
                                           all_owners) (range d) acc))
    as [H1 H2].
  split.
  + intros H. apply H1, C1, H.
  + intros i. rewrite H2, C2. split.
    * intros [[H | [nd [Hn E]]] | [device [nd [Hd [Hn E]]]]]; eauto 8.
    * intros [H | [device [nd [[<- | Hd] [Hn E]]]]]; eauto 8.
Qed.

(** X12.  [get_owners_in_network_range] gives nothing for an owner that is
    not in the table.  For an owner that is there it gives every owner
    once, and an owner is given exactly when one of his devices is in
    network range of an active device of the owner asked for. *)
Theorem get_owners_in_network_range_spec :
forall Distance (owners : list Owner.t) (owner_id : Z) (w : World),
  let r := get_owners_in_network_range Distance owners owner_id w in
  ((forall o, In o owners -> Owner.id o <> owner_id) -> r = [])
  /\ NoDup (map Owner.id r)
  /\ ((exists o, In o owners /\ Owner.id o = owner_id) ->
      forall i,
        In i (map Owner.id r)
        <-> exists device nd,
              In device (devices w)
              /\ Owner.id (Device.owner device) = owner_id
              /\ Device.active device = true
              /\ In nd (get_devices_in_network_range Distance device w)
              /\ Owner.id (Device.owner nd) = i).
Proof.
intros Distance owners owner_id w. cbv zeta.
unfold get_owners_in_network_range.
destruct (find (fun o => Owner.id o =? owner_id) owners) as [owner |] eqn:F.
- apply find_some in F as [Ho Hid]. apply Z.eqb_eq in Hid.
  destruct (collect_network_owners
              (fun device => get_devices_in_network_range Distance device w)
              (filter (fun d => (Owner.id (Device.owner d) =? Owner.id owner)
                                && Device.active d) (devices w)) [])
    as [C1 C2]. cbv zeta in C1, C2.
  split; [intros H; exfalso; exact (H owner Ho Hid) |].
  split; [apply C1; constructor |].
  intros _ i. rewrite C2. rewrite Hid. split.
  + intros [[] | [device [nd [Hd [Hn E]]]]].
    apply filter_In in Hd as [Hd Hp].
    apply andb_true_iff in Hp as [Hp Ha]. apply Z.eqb_eq in Hp.
    exists device, nd. auto.
  + intros [device [nd [Hd [Ho' [Ha [Hn E]]]]]]. right.
    exists device, nd. split; [| auto].
    apply filter_In. split; [exact Hd |].
    apply andb_true_iff. split; [now apply Z.eqb_eq | exact Ha].
- split; [reflexivity |]. split; [constructor |].
  intros [o [Ho Hid]]. exfalso.
  apply (find_none _ _ F) in Ho. apply Z.eqb_neq in Ho. contradiction.
Qed.

Lemma get_owners_in_network_range_spec_witness :
(exists o, In o [Sample.alice; Sample.bob] /\ Owner.id o = 1)
/\ map Owner.id
       (get_owners_in_network_range Sample.Distance
          [Sample.alice; Sample.bob] 1 Sample.world0) = [1]
/\ get_owners_in_network_range Sample.Distance
     [Sample.alice; Sample.bob] 5 Sample.world0 = [].
Proof.
split; [exists Sample.alice; split; [now left | reflexivity] |].
split; [reflexivity |].
apply (proj1 (get_owners_in_network_range_spec Sample.Distance
                [Sample.alice; Sample.bob] 5 Sample.world0)).
intros o [<- | [<- | []]]; discriminate.
Defined.

(* ================================================================== *)
(** ** More on the delivery worker                                     *)
(* ================================================================== *)

Lemma inbox_save_ids (e : DeviceInbox.t) (w : World) :
map DeviceInbox.id (device_inbox (inbox_save e w))
= map DeviceInbox.id (device_inbox w).
Proof.
unfold inbox_save. simpl. rewrite map_map. apply map_ext.
intros r. destruct (Z.eqb_spec (DeviceInbox.id r) (DeviceInbox.id e));
  congruence.
Qed.

Lemma inbox_save_others (e r : DeviceInbox.t) (w : World) :
In r (device_inbox w) -> DeviceInbox.id r <> DeviceInbox.id e ->
In r (device_inbox (inbox_save e w)).
Proof.
intros Hr Hne. unfold inbox_save. simpl. apply in_map_iff. exists r.
split; [| exact Hr].
destruct (Z.eqb_spec (DeviceInbox.id r) (DeviceInbox.id e)); congruence.
Qed.

Section DeliveryEffects.

Variable clock : nat -> Z.

(** What a run of the task can do to the world. *)
Lemma deliver_webhook_frame (post : Network) (inbox_id : Z) (w : World) :
let w' := snd (deliver_webhook clock post inbox_id w) in
devices w' = devices w
/\ messages w' = messages w
/\ inbox_seq w' = inbox_seq w
/\ map DeviceInbox.id (device_inbox w') = map DeviceInbox.id (device_inbox w)
/\ (forall r, In r (device_inbox w) -> DeviceInbox.id r <> inbox_id ->
              In r (device_inbox w')).
Proof.
cbv zeta. unfold deliver_webhook.
destruct (inbox_get_by_id inbox_id w) as [inbox |] eqn:Hi; [| simpl; auto].
pose proof (inbox_get_by_id_pk _ _ _ Hi) as Hpk.
assert (S : forall e w0,
              DeviceInbox.id e = inbox_id ->
              devices w0 = devices w -> messages w0 = messages w ->
              inbox_seq w0 = inbox_seq w ->
              device_inbox w0 = device_inbox w ->
              let w' := inbox_save e w0 in
              devices w' = devices w /\ messages w' = messages w
              /\ inbox_seq w' = inbox_seq w
              /\ map DeviceInbox.id (device_inbox w')
                 = map DeviceInbox.id (device_inbox w)
              /\ (forall r, In r (device_inbox w) ->
                            DeviceInbox.id r <> inbox_id ->
                            In r (device_inbox w'))).
{ intros e w0 E A B C D. cbv zeta.
  split; [exact A |]. split; [exact B |]. split; [exact C |].
  split; [rewrite inbox_save_ids, D; reflexivity |].
  intros r Hr Hne. apply inbox_save_others; [now rewrite D | congruence]. }
destruct (device_get (DeviceInbox.device inbox) w) as [device |];
  [| simpl; auto].
destruct (message_get (DeviceInbox.message inbox) w) as [message |];
  [| simpl; auto].
destruct (negb (column_truthy (Device.webhook_url device))); [simpl; auto |].
destruct (device_get (Message.source_device message) w) as [source |];
  [| simpl; auto].
destruct (post _ _).
- unfold timezone_now. cbn [fst snd]. now apply S.
- cbv zeta. destruct (_ >=? _); cbn [fst snd].
  + now apply S.
  + pose proof (S (DeviceInbox.set_delivery_attempts
                     (DeviceInbox.delivery_attempts inbox + 1) inbox) w
                  Hpk eq_refl eq_refl eq_refl eq_refl) as K.
    cbv zeta in K. exact K.
- simpl. auto.
Qed.

(** X13.  A run of [deliver_webhook] writes at most one row: whatever the
    network does, the inbox has the same rows under the same keys
    afterwards, every row but the one of the task is as it was, and
    devices and messages are not written. *)
Theorem deliver_webhook_writes_one_row :
forall (post : Network) (inbox_id : Z) (w : World),
  let w' := snd (deliver_webhook clock post inbox_id w) in
  devices w' = devices w
  /\ messages w' = messages w
  /\ map DeviceInbox.id (device_inbox w') = map DeviceInbox.id (device_inbox w)
  /\ List.length (device_inbox w') = List.length (device_inbox w)
  /\ (forall r, In r (device_inbox w) -> DeviceInbox.id r <> inbox_id ->
                In r (device_inbox w')).
Proof.
intros post inbox_id w.
destruct (deliver_webhook_frame post inbox_id w) as [A [B [_ [C D]]]].
cbv zeta. repeat split; auto.
rewrite <- (length_map DeviceInbox.id), C. apply length_map.
Qed.

(** One run of the task when the call goes through. *)
Lemma deliver_webhook_success :
forall (post : Network) (inbox_id : Z) (w : World)
       (inbox : DeviceInbox.t) (device source : Device.t)
       (message : Message.t),
  post_succeeds post ->
  inbox_get_by_id inbox_id w = Some inbox ->
  device_get (DeviceInbox.device inbox) w = Some device ->
  message_get (DeviceInbox.message inbox) w = Some message ->
  device_get (Message.source_device message) w = Some source ->
  column_truthy (Device.webhook_url device) = true ->
  deliver_webhook clock post inbox_id w
  = (Delivered inbox_id,
     inbox_save (DeviceInbox.set_delivered_at (Some (clock (ticks w)))
                   (DeviceInbox.set_status DELIVERED inbox))
                (snd (timezone_now clock w))).
Proof.
intros post inbox_id w inbox device source message Hp Hi Hd Hm Hs Hu.
unfold deliver_webhook. rewrite Hi, Hd, Hm, Hu, Hs. cbn [negb].
rewrite Hp. reflexivity.
Qed.

(** X14.  When the webhook call goes through, the entry becomes delivered
    with the time of the run as [delivered_at]; its count of attempts and
    its other columns stay, and the run schedules nothing.  The status
    the entry had is not looked at. *)
Theorem deliver_webhook_delivers :
forall (post : Network) (inbox_id : Z) (w : World)
       (inbox : DeviceInbox.t) (device source : Device.t)
       (message : Message.t),
  post_succeeds post ->
  inbox_get_by_id inbox_id w = Some inbox ->
  device_get (DeviceInbox.device inbox) w = Some device ->
  message_get (DeviceInbox.message inbox) w = Some message ->
  device_get (Message.source_device message) w = Some source ->
  column_truthy (Device.webhook_url device) = true ->
  let r := deliver_webhook clock post inbox_id w in
  fst r = Delivered inbox_id
  /\ broker (snd r) = broker w
  /\ exists e,
      inbox_get_by_id inbox_id (snd r) = Some e
      /\ DeviceInbox.status e = DELIVERED
      /\ DeviceInbox.delivered_at e = Some (clock (ticks w))
      /\ DeviceInbox.delivery_attempts e = DeviceInbox.delivery_attempts inbox
      /\ DeviceInbox.device e = DeviceInbox.device inbox
      /\ DeviceInbox.message e = DeviceInbox.message inbox
      /\ DeviceInbox.acknowledged_at e = DeviceInbox.acknowledged_at inbox.
Proof.
intros post inbox_id w inbox device source message Hp Hi Hd Hm Hs Hu.
cbv zeta.
rewrite (deliver_webhook_success post inbox_id w inbox device source message
           Hp Hi Hd Hm Hs Hu).
cbn [fst snd]. split; [reflexivity |]. split; [reflexivity |].
eexists. split.
- apply (inbox_get_by_id_save inbox_id _ inbox); [exact Hi |].
  exact (inbox_get_by_id_pk _ _ _ Hi).
- repeat split.
Qed.

End DeliveryEffects.

Lemma deliver_webhook_delivers_witness :
(post_succeeds Fixture.succeeding
 /\ inbox_get_by_id 1 Sample.world_pending
    = Some (Sample.entry 1 2 1 PENDING 0 None)
 /\ device_get 2 Sample.world_pending = Some Sample.dev_b
 /\ message_get 1 Sample.world_pending = Some Sample.msg1
 /\ device_get 1 Sample.world_pending = Some Sample.dev_a
 /\ column_truthy (Device.webhook_url Sample.dev_b) = true)
/\ fst (deliver_webhook Sample.clock Fixture.succeeding 1
          Sample.world_pending) = Delivered 1.
Proof.
assert (Hp : post_succeeds Fixture.succeeding) by (intros u p; reflexivity).
split; [repeat split; try reflexivity; exact Hp |].
exact (proj1 (deliver_webhook_delivers Sample.clock Fixture.succeeding 1
                Sample.world_pending (Sample.entry 1 2 1 PENDING 0 None)
                Sample.dev_b Sample.dev_a Sample.msg1
                Hp eq_refl eq_refl eq_refl eq_refl eq_refl)).
Defined.

Section WorkerRuns.

Variable clock : nat -> Z.

Lemma worker_run_frame (posts : list Network) :
forall w,
  devices (worker_run clock posts w) = devices w
  /\ messages (worker_run clock posts w) = messages w.
Proof.
induction posts as [| post rest IH]; intros w; cbn [worker_run]; [auto |].
unfold worker_step. destruct (broker w) as [| t later]; [auto |].
set (w0 := mkWorld (devices w) (messages w) (device_inbox w)
                   (inbox_seq w) later (ticks w)).
destruct (deliver_webhook_frame clock post (task_inbox_id t) w0)
  as [A [B _]].
destruct (deliver_webhook clock post (task_inbox_id t) w0) as [r w1].
cbn [snd] in A, B. subst w0. cbn [devices messages] in A, B.
destruct (IH w1) as [C D].
split; congruence.
Qed.

Lemma worker_run_app (posts later : list Network) :
forall w,
  worker_run clock (posts ++ later) w
  = worker_run clock later (worker_run clock posts w).
Proof.
induction posts as [| post rest IH]; intros w; [reflexivity |].
cbn [app worker_run].
destruct (worker_step clock post w) as [[r w1] |] eqn:E; [apply IH |].
unfold worker_step in E. destruct (broker w) eqn:B; [| discriminate].
now rewrite worker_run_idle.
Qed.

Lemma deliver_webhook_breaks :
forall (post : Network) (inbox_id : Z) (w : World)
       (inbox : DeviceInbox.t) (device : Device.t),
  post_breaks post ->
  inbox_get_by_id inbox_id w = Some inbox ->
  device_get (DeviceInbox.device inbox) w = Some device ->
  column_truthy (Device.webhook_url device) = true ->
  deliver_webhook clock post inbox_id w
  = (Retry_raised, apply_async inbox_id 60 w).
Proof.
intros post inbox_id w inbox device Hp Hi Hd Hu.
unfold deliver_webhook, self_retry. rewrite Hi, Hd, Hu. cbn [negb].
destruct (message_get _ w); [| reflexivity].
destruct (device_get (Message.source_device _) w); [| reflexivity].
now rewrite Hp.
Qed.

(** X15.  Failures that are not transport failures are outside the retry
    limit: when every run of the task for an entry breaks in this way,
    each run leaves the inbox as it is (the count of attempts included,
    the entry never becomes failed) and schedules the next run 60 seconds
    later, without end. *)
Theorem unexpected_failures_never_exhaust :
forall (posts : list Network) (w : World) (inbox_id c : Z)
       (inbox : DeviceInbox.t) (device : Device.t),
  Forall post_breaks posts ->
  inbox_get_by_id inbox_id w = Some inbox ->
  device_get (DeviceInbox.device inbox) w = Some device ->
  column_truthy (Device.webhook_url device) = true ->
  broker w = [ {| task_inbox_id := inbox_id; countdown := c |} ] ->
  device_inbox (worker_run clock posts w) = device_inbox w
  /\ broker (worker_run clock posts w)
     = [ {| task_inbox_id := inbox_id;
            countdown := match posts with [] => c | _ => 60 end |} ]
  /\ worker_log clock posts w = repeat Retry_raised (List.length posts).
Proof.
induction posts as [| post rest IH];
  intros w inbox_id c inbox device Hf Hi Hd Hu Hb.
- cbn. auto.
- inversion Hf as [| p r Hp Hrest]; subst p r.
  cbn [worker_run worker_log]. unfold worker_step. rewrite Hb.
  cbn [task_inbox_id].
  set (w0 := mkWorld (devices w) (messages w) (device_inbox w)
                     (inbox_seq w) [] (ticks w)).
  rewrite (deliver_webhook_breaks post inbox_id w0 inbox device Hp Hi Hd Hu).
  destruct (IH (apply_async inbox_id 60 w0) inbox_id 60 inbox device
               Hrest Hi Hd Hu eq_refl) as [A [B C]].
  split; [exact A |]. split.
  + rewrite B. now destruct rest.
  + cbn [List.length repeat]. now rewrite C.
Qed.

(** The failing runs keep the device and the message of the entry. *)
Lemma worker_run_failing_columns (posts : list Network) :
forall (w : World) (inbox_id c : Z)
       (inbox : DeviceInbox.t) (device source : Device.t)
       (message : Message.t),
  Forall transport_fails posts ->
  inbox_get_by_id inbox_id w = Some inbox ->
  device_get (DeviceInbox.device inbox) w = Some device ->
  message_get (DeviceInbox.message inbox) w = Some message ->
  device_get (Message.source_device message) w = Some source ->
  column_truthy (Device.webhook_url device) = true ->
  broker w = [ {| task_inbox_id := inbox_id; countdown := c |} ] ->
  exists e,
    inbox_get_by_id inbox_id (worker_run clock posts w) = Some e
    /\ DeviceInbox.device e = DeviceInbox.device inbox
    /\ DeviceInbox.message e = DeviceInbox.message inbox.
Proof.
induction posts as [| post rest IH];
  intros w inbox_id c inbox device source message Hf Hi Hd Hm Hs Hu Hb.
- exists inbox. cbn [worker_run]. auto.
- inversion Hf as [| p r Hp Hrest]; subst p r.
  cbn [worker_run]. unfold worker_step. rewrite Hb. cbn [task_inbox_id].
  set (w0 := mkWorld (devices w) (messages w) (device_inbox w)
                     (inbox_seq w) [] (ticks w)).
  rewrite (deliver_webhook_transport_failure clock post inbox_id w0 inbox
             device source message Hp Hi Hd Hm Hs Hu).
  cbv zeta.
  pose proof (inbox_get_by_id_pk _ _ _ Hi) as Hpk.
  destruct (_ >=? _).
  + rewrite worker_run_idle by reflexivity.
    eexists. split.
    { apply (inbox_get_by_id_save inbox_id w0 inbox); [exact Hi | exact Hpk]. }
    split; reflexivity.
  + set (inbox1 := DeviceInbox.set_delivery_attempts
                     (DeviceInbox.delivery_attempts inbox + 1) inbox).
    set (w1 := apply_async inbox_id
                 (2 ^ (DeviceInbox.delivery_attempts inbox + 1))
                 (inbox_save inbox1 w0)).
    assert (Hi1 : inbox_get_by_id inbox_id w1 = Some inbox1).
    { apply (inbox_get_by_id_save inbox_id w0 inbox); [exact Hi | exact Hpk]. }
    destruct (IH w1 inbox_id _ inbox1 device source message Hrest Hi1
                 Hd Hm Hs Hu eq_refl) as [e [He [Ed Em]]].
    exists e. auto.
Qed.

(** X16.  A delivery that goes through after [k] transport failures,
    [k] below [max 1 retry_limit]: the entry ends delivered, with [k] as
    its count of attempts, and no task is left. *)
Theorem delivered_after_transport_failures :
forall (failures : list Network) (post : Network) (w : World)
       (inbox_id : Z) (inbox : DeviceInbox.t) (device source : Device.t)
       (message : Message.t),
  Forall transport_fails failures ->
  post_succeeds post ->
  Z.of_nat (List.length failures) < Z.max 1 (Device.retry_limit device) ->
  inbox_get_by_id inbox_id w = Some inbox ->
  fresh_entry inbox ->
  device_get (DeviceInbox.device inbox) w = Some device ->
  message_get (DeviceInbox.message inbox) w = Some message ->
  device_get (Message.source_device message) w = Some source ->
  column_truthy (Device.webhook_url device) = true ->
  broker w = [ {| task_inbox_id := inbox_id; countdown := 0 |} ] ->
  let w' := worker_run clock (failures ++ [post]) w in
  broker w' = []
  /\ exists e,
      inbox_get_by_id inbox_id w' = Some e
      /\ DeviceInbox.status e = DELIVERED
      /\ DeviceInbox.delivery_attempts e = Z.of_nat (List.length failures)
      /\ DeviceInbox.delivered_at e <> None.
Proof.
intros failures post w inbox_id inbox device source message
       Hf Hp Hlt Hi [Hst Hk] Hd Hm Hs Hu Hb w'.
subst w'. rewrite worker_run_app.
destruct (worker_run_failing clock failures w inbox_id 0 0 inbox device
            source message Hf Hi Hst Hk ltac:(lia) Hd Hm Hs Hu Hb)
  as [e [He [Ha [Hs' Hb']]]].
cbv zeta in Ha, Hs', Hb'. rewrite Z.add_0_l in Ha, Hs', Hb'.
destruct (Z.ltb_spec (Z.of_nat (List.length failures))
                     (Z.max 1 (Device.retry_limit device))); [| lia].
destruct (worker_run_frame failures w) as [Fd Fm].
set (w1 := worker_run clock failures w) in *.
pose proof (inbox_get_by_id_pk _ _ _ Hi) as Hpk.
destruct (worker_run_failing_columns failures w inbox_id 0 inbox device
            source message Hf Hi Hd Hm Hs Hu Hb) as [e' [He' Ed]].
pose proof (eq_trans (eq_sym He') He) as E. injection E as ->.
destruct Ed as [Ed Em].
assert (Hd1 : device_get (DeviceInbox.device e) w1 = Some device)
  by (unfold device_get; rewrite Fd, Ed; exact Hd).
assert (Hm1 : message_get (DeviceInbox.message e) w1 = Some message)
  by (unfold message_get; rewrite Fm, Em; exact Hm).
assert (Hs1 : device_get (Message.source_device message) w1 = Some source)
  by (unfold device_get; rewrite Fd; exact Hs).
cbn [worker_run]. unfold worker_step. rewrite Hb'. cbn [task_inbox_id].
set (w2 := mkWorld (devices w1) (messages w1) (device_inbox w1)
                   (inbox_seq w1) [] (ticks w1)).
rewrite (deliver_webhook_success clock post inbox_id w2 e device source
           message Hp He Hd1 Hm1 Hs1 Hu).
split; [reflexivity |].
eexists. split.
- apply (inbox_get_by_id_save inbox_id _ e); [exact He |].
  exact (inbox_get_by_id_pk _ _ _ He).
- cbn. repeat split; [| discriminate].
  rewrite Ha. lia.
Qed.

End WorkerRuns.

Lemma unexpected_failures_never_exhaust_witness :
(Forall post_breaks [Fixture.breaking; Fixture.breaking; Fixture.breaking;
                     Fixture.breaking; Fixture.breaking]
 /\ inbox_get_by_id 1 Sample.world_pending
    = Some (Sample.entry 1 2 1 PENDING 0 None)
 /\ device_get 2 Sample.world_pending = Some Sample.dev_b
 /\ column_truthy (Device.webhook_url Sample.dev_b) = true
 /\ broker Sample.world_pending = [ {| task_inbox_id := 1; countdown := 0 |} ])
/\ device_inbox
     (worker_run Sample.clock
        [Fixture.breaking; Fixture.breaking; Fixture.breaking;
         Fixture.breaking; Fixture.breaking] Sample.world_pending)
   = device_inbox Sample.world_pending.
Proof.
assert (Hf : Forall post_breaks
               [Fixture.breaking; Fixture.breaking; Fixture.breaking;
                Fixture.breaking; Fixture.breaking])
  by (repeat constructor).
split; [repeat split; try reflexivity; exact Hf |].
exact (proj1 (unexpected_failures_never_exhaust Sample.clock _
                Sample.world_pending 1 0 (Sample.entry 1 2 1 PENDING 0 None)
                Sample.dev_b Hf eq_refl eq_refl eq_refl eq_refl)).
Defined.

Lemma delivered_after_transport_failures_witness :
(Forall transport_fails [Sample.failing; Sample.failing]
 /\ post_succeeds Fixture.succeeding
 /\ 2 < Z.max 1 (Device.retry_limit Sample.dev_b)
 /\ fresh_entry (Sample.entry 1 2 1 PENDING 0 None))
/\ broker (worker_run Sample.clock
             ([Sample.failing; Sample.failing] ++ [Fixture.succeeding])
             Sample.world_pending) = [].
Proof.
assert (Hf : Forall transport_fails [Sample.failing; Sample.failing])
  by (repeat constructor).
assert (Hp : post_succeeds Fixture.succeeding) by (intros u p; reflexivity).
assert (Hl : Z.of_nat (List.length [Sample.failing; Sample.failing])
             < Z.max 1 (Device.retry_limit Sample.dev_b)) by reflexivity.
assert (Hfr : fresh_entry (Sample.entry 1 2 1 PENDING 0 None))
  by (split; reflexivity).
split; [repeat split; try reflexivity; assumption |].
exact (proj1 (delivered_after_transport_failures Sample.clock
                [Sample.failing; Sample.failing] Fixture.succeeding
                Sample.world_pending 1 (Sample.entry 1 2 1 PENDING 0 None)
                Sample.dev_b Sample.dev_a Sample.msg1
                Hf Hp Hl eq_refl Hfr eq_refl eq_refl eq_refl eq_refl
                eq_refl)).
Defined.

(* ================================================================== *)
(** ** The views on a device                                           *)
(* ================================================================== *)

Lemma get_queryset_In (user : Owner.t) (w : World) (d : Device.t) :
In d (get_queryset user w) <->
In d (devices w) /\ Device.active d = true /\ has_permission d user = true.
Proof.
unfold get_queryset, has_permission.
destruct (Owner.is_staff user); rewrite filter_In; cbn [orb].
- tauto.
- rewrite andb_true_iff, (Z.eqb_sym (Owner.id user)). tauto.
Qed.

Lemma get_object_Some (user : Owner.t) (pk : Z) (w : World) (d : Device.t) :
get_object user pk w = Some d ->
In d (devices w) /\ Device.device_id d = pk
/\ Device.active d = true /\ has_permission d user = true.
Proof.
unfold get_object. intros H. apply find_some in H as [Hd Hpk].
apply get_queryset_In in Hd. apply Z.eqb_eq in Hpk. tauto.
Qed.

Lemma get_object_found (user : Owner.t) (pk : Z) (w : World) (d : Device.t) :
NoDup (map Device.device_id (devices w)) ->
In d (devices w) -> Device.device_id d = pk ->
Device.active d = true -> has_permission d user = true ->
get_object user pk w = Some d.
Proof.
intros Hn Hd Hpk Ha Hp.
assert (Hq : In d (get_queryset user w)) by (apply get_queryset_In; auto).
destruct (get_object user pk w) as [d' |] eqn:E.
- apply get_object_Some in E as [Hd' [Hpk' _]].
  f_equal. apply (NoDup_map_injective Device.device_id _ Hn); congruence.
- unfold get_object in E. apply (find_none _ _ E) in Hq.
  apply Z.eqb_neq in Hq. contradiction.
Qed.

Lemma device_get_found (pk : Z) (w : World) (d : Device.t) :
NoDup (map Device.device_id (devices w)) ->
In d (devices w) -> Device.device_id d = pk ->
device_get pk w = Some d.
Proof.
intros Hn Hd Hpk. unfold device_get.
destruct (find _ (devices w)) as [d' |] eqn:E.
- apply find_some in E as [Hd' Hpk']. apply Z.eqb_eq in Hpk'.
  f_equal. apply (NoDup_map_injective Device.device_id _ Hn); congruence.
- apply (find_none _ _ E) in Hd. apply Z.eqb_neq in Hd. contradiction.
Qed.

(** X17.  The answer 403 of the views [inbox], [acknowledge_message] and
    [device_by_hid] is never given: [get_queryset] has already left out
    every device that [has_permission] would refuse, so a user without
    access gets 404. *)
Theorem views_never_answer_403 :
forall (clock : nat -> Z) (user : Owner.t) (pk message_id : Z)
       (hid : string) (params : InboxParams) (w : World),
  inbox user pk params w <> View_403
  /\ fst (acknowledge_view clock user pk message_id w) <> HTTP_403_FORBIDDEN
  /\ device_by_hid user hid w <> Returned View_403.
Proof.
intros clock user pk mid hid params w. split; [| split].
- unfold inbox. destruct (get_object user pk w) as [d |] eqn:E;
    [| discriminate].
  apply get_object_Some in E as [_ [_ [_ Hp]]]. rewrite Hp. discriminate.
- unfold acknowledge_view. destruct (get_object user pk w) as [d |] eqn:E;
    [| discriminate].
  apply get_object_Some in E as [_ [_ [_ Hp]]].
  unfold acknowledge_message, timezone_now. rewrite Hp. cbn [negb].
  destruct (inbox_get _ _ _) as [e | []]; try discriminate.
  destruct (message_get _ _) as [m |]; [| discriminate].
  destruct (Message.last_read_at m); discriminate.
- unfold device_by_hid.
  destruct (filter _ (get_queryset user w)) as [| d [| d' l]] eqn:F;
    try discriminate.
  assert (Hd : In d (filter (fun d => String.eqb (Device.hid d) hid)
                            (get_queryset user w)))
    by (rewrite F; now left).
  apply filter_In in Hd as [Hd _]. apply get_queryset_In in Hd as [_ [_ Hp]].
  rewrite Hp. discriminate.
Qed.

(** X18.  Which device [get_object] finds: with distinct device keys, the
    device with key [pk] is found for a user exactly when it is a row of
    the table, active, and the user is staff, its owner or one of its
    users.  A device that is switched off is 404 for every user, staff
    included. *)
Theorem get_object_visible_iff :
forall (user : Owner.t) (pk : Z) (w : World) (d : Device.t),
  NoDup (map Device.device_id (devices w)) ->
  (get_object user pk w = Some d <->
   In d (devices w) /\ Device.device_id d = pk
   /\ Device.active d = true /\ has_permission d user = true).
Proof.
intros user pk w d Hn. split; [apply get_object_Some |].
intros [Hd [Hpk [Ha Hp]]]. now apply get_object_found.
Qed.

Lemma get_object_visible_iff_witness :
NoDup (map Device.device_id (devices Fixture.world))
/\ get_object Fixture.carol 41 Fixture.world = Some Fixture.dev_shared
/\ (get_object Fixture.admin 40 Fixture.world = Some Fixture.dev_off -> False).
Proof.
assert (Hn : NoDup (map Device.device_id (devices Fixture.world))).
{ cbn. repeat constructor; cbn; intuition discriminate. }
split; [exact Hn |]. split.
- apply (proj2 (get_object_visible_iff Fixture.carol 41 Fixture.world
                  Fixture.dev_shared Hn)).
  cbn. intuition.
- intros H.
  apply (proj1 (get_object_visible_iff Fixture.admin 40 Fixture.world
                  Fixture.dev_off Hn)) in H.
  destruct H as [_ [_ [Ha _]]]. discriminate.
Defined.

(** *** The listing of an inbox *)

Lemma insert_by_created_at_In (e x : DeviceInbox.t) (l : list DeviceInbox.t) :
In x (insert_by_created_at e l) <-> x = e \/ In x l.
Proof.
induction l as [| r rest IH]; cbn [insert_by_created_at].
- cbn. intuition.
- destruct (_ <? _); cbn [In]; [intuition |].
  rewrite IH. cbn. intuition.
Qed.

Lemma order_by_created_at_desc_In (x : DeviceInbox.t) (l : list DeviceInbox.t) :
In x (order_by_created_at_desc l) <-> In x l.
Proof.
unfold order_by_created_at_desc.
assert (G : forall acc,
          In x (fold_left (fun sorted e => insert_by_created_at e sorted)
                          l acc) <-> In x l \/ In x acc).
{ induction l as [| e rest IH]; intros acc; cbn [fold_left].
  - cbn. tauto.
  - rewrite IH, insert_by_created_at_In. cbn. intuition. }
rewrite G. cbn. tauto.
Qed.

Lemma insert_by_created_at_sorted (e : DeviceInbox.t) (l : list DeviceInbox.t) :
StronglySorted (fun a b => DeviceInbox.created_at b <= DeviceInbox.created_at a) l ->
StronglySorted (fun a b => DeviceInbox.created_at b <= DeviceInbox.created_at a)
               (insert_by_created_at e l).
Proof.
induction l as [| r rest IH]; cbn [insert_by_created_at]; intros H.
- repeat constructor.
- inversion H as [| ? ? Hrest Hall]; subst.
  destruct (Z.ltb_spec (DeviceInbox.created_at r) (DeviceInbox.created_at e))
    as [L | L].
  + constructor; [exact H |]. constructor; [lia |].
    rewrite Forall_forall in Hall |- *. intros x Hx.
    specialize (Hall x Hx). cbn in Hall. lia.
  + constructor; [auto |].
    rewrite Forall_forall in Hall |- *. intros x Hx.
    apply insert_by_created_at_In in Hx as [-> | Hx]; [lia | auto].
Qed.

Lemma order_by_created_at_desc_sorted (l : list DeviceInbox.t) :
StronglySorted (fun a b => DeviceInbox.created_at b <= DeviceInbox.created_at a)
               (order_by_created_at_desc l).
Proof.
unfold order_by_created_at_desc.
assert (G : forall acc,
          StronglySorted (fun a b => DeviceInbox.created_at b
                                     <= DeviceInbox.created_at a) acc ->
          StronglySorted (fun a b => DeviceInbox.created_at b
                                     <= DeviceInbox.created_at a)
            (fold_left (fun sorted e => insert_by_created_at e sorted) l acc)).
{ induction l as [| e rest IH]; intros acc H; cbn [fold_left]; [exact H |].
  apply IH. now apply insert_by_created_at_sorted. }
apply G. constructor.
Qed.

Lemma param_filter_In (param : option string)
      (field : DeviceInbox.t -> option string)
      (rows : list DeviceInbox.t) (e : DeviceInbox.t) :
In e (param_filter param field rows) <->
In e rows /\ (column_truthy param = true -> field e = param).
Proof.
unfold param_filter. destruct (column_truthy param) eqn:T.
- rewrite filter_In. destruct param as [wanted |]; [| discriminate].
  destruct (field e) as [have |].
  + destruct (String.eqb_spec have wanted) as [-> | Hne].
    * intuition.
    * split; [intros [_ K]; discriminate |].
      intros [_ K]. specialize (K eq_refl). congruence.
  + split; [intros [_ K]; discriminate |].
    intros [_ K]. specialize (K eq_refl). discriminate.
- intuition discriminate.
Qed.

Lemma inbox_rows_In (device : Device.t) (params : InboxParams) (w : World)
      (e : DeviceInbox.t) :
In e (inbox_rows device params w) <->
In e (device_inbox w)
/\ DeviceInbox.device e = Device.device_id device
/\ DeviceInbox.status e = PENDING
/\ (column_truthy (param_user params) = true ->
    message__user w e = param_user params)
/\ (column_truthy (param_nid params) = true ->
    device__nid w e = param_nid params)
/\ (column_truthy (param_hid params) = true ->
    device__hid w e = param_hid params).
Proof.
unfold inbox_rows.
rewrite order_by_created_at_desc_In, !param_filter_In, filter_In,
  andb_true_iff, Z.eqb_eq.
destruct (DeviceInbox.status e); intuition discriminate.
Qed.

(** X19.  What [inbox] lists for a device that the user may see: the
    entries of this device that are pending and pass the filters of the
    request, newest first.  A filter that is absent or empty is not
    applied; [user] is compared with the user of the message, while [nid]
    and [hid] are compared with the NID and HID of the device itself, so
    that each of them keeps the whole listing or nothing. *)
Theorem inbox_lists_pending_entries :
forall (user : Owner.t) (pk : Z) (params : InboxParams) (w : World)
       (device : Device.t),
  NoDup (map Device.device_id (devices w)) ->
  get_object user pk w = Some device ->
  exists rows,
    inbox user pk params w = View_200 rows
    /\ StronglySorted (fun a b => DeviceInbox.created_at b
                                  <= DeviceInbox.created_at a) rows
    /\ forall e,
         In e rows <->
         In e (device_inbox w)
         /\ DeviceInbox.device e = pk
         /\ DeviceInbox.status e = PENDING
         /\ (column_truthy (param_user params) = true ->
             exists m, message_get (DeviceInbox.message e) w = Some m
                       /\ Message.user m = param_user params)
         /\ (column_truthy (param_nid params) = true ->
             Device.nid device = param_nid params)
         /\ (column_truthy (param_hid params) = true ->
             Some (Device.hid device) = param_hid params).
Proof.
intros user pk params w device Hn Hg.
pose proof (get_object_Some _ _ _ _ Hg) as [Hd [Hpk [_ Hp]]].
exists (inbox_rows device params w).
split; [unfold inbox; now rewrite Hg, Hp |].
split; [apply order_by_created_at_desc_sorted |].
intros e. rewrite inbox_rows_In, Hpk.
pose proof (device_get_found pk w device Hn Hd Hpk) as Hdev.
split.
- intros [He [Hed [Hst [Hu [Hni Hh]]]]].
  split; [exact He |]. split; [exact Hed |]. split; [exact Hst |].
  unfold message__user, device__nid, device__hid in *.
  rewrite Hed, Hdev in Hni, Hh.
  split; [| auto].
  intros T. specialize (Hu T).
  destruct (message_get (DeviceInbox.message e) w) as [m |].
  + exists m. auto.
  + rewrite <- Hu in T. discriminate.
- intros [He [Hed [Hst [Hu [Hni Hh]]]]].
  split; [exact He |]. split; [exact Hed |]. split; [exact Hst |].
  unfold message__user, device__nid, device__hid.
  rewrite Hed, Hdev. split; [| auto].
  intros T. destruct (Hu T) as [m [Hm Hmu]]. now rewrite Hm.
Qed.

Lemma inbox_lists_pending_entries_witness :
(NoDup (map Device.device_id (devices Sample.world_pending))
 /\ get_object Sample.alice 2 Sample.world_pending = Some Sample.dev_b)
/\ inbox Sample.alice 2 no_params Sample.world_pending
   = View_200 [Sample.entry 1 2 1 PENDING 0 None]
/\ inbox Sample.alice 2
     {| param_user := None; param_nid := Some "1193046"; param_hid := None |}
     Sample.world_pending
   = View_200 [].
Proof.
assert (Hn : NoDup (map Device.device_id (devices Sample.world_pending))).
{ cbn. repeat constructor; cbn; intuition discriminate. }
split; [split; [exact Hn | reflexivity] |].
destruct (inbox_lists_pending_entries Sample.alice 2 no_params
            Sample.world_pending Sample.dev_b Hn eq_refl)
  as [rows [E _]].
split; [rewrite E; injection E as <-; reflexivity | reflexivity].
Defined.

(** *** The listing after an entry has been written *)

Lemma message_get_save_other (k : Z) (m' : Message.t) (w : World) :
k <> Message.message_id m' ->
message_get k (message_save m' w) = message_get k w.
Proof.
intros Hk. unfold message_get, message_save. cbn [messages with_messages].
induction (messages w) as [| a rest IH]; [reflexivity |].
cbn [map find].
destruct (Z.eqb_spec (Message.message_id a) (Message.message_id m'))
  as [E | E].
- destruct (Z.eqb_spec (Message.message_id m') k) as [K | _]; [congruence |].
  destruct (Z.eqb_spec (Message.message_id a) k) as [K | _]; [congruence |].
  exact IH.
- destruct (Message.message_id a =? k); [reflexivity | exact IH].
Qed.

Lemma message__user_save (m0 m' : Message.t) (w : World) :
message_get (Message.message_id m') w = Some m0 ->
Message.user m' = Message.user m0 ->
forall r, message__user (message_save m' w) r = message__user w r.
Proof.
intros Hm Hu r. unfold message__user.
destruct (Z.eq_dec (DeviceInbox.message r) (Message.message_id m')) as [E | E].
- rewrite E, (message_get_save _ w m0 m' Hm eq_refl), Hm. exact Hu.
- now rewrite message_get_save_other.
Qed.

Lemma inbox_rows_after_save (device : Device.t) (params : InboxParams)
      (w w' : World) (e' : DeviceInbox.t) :
DeviceInbox.status e' <> PENDING ->
devices w' = devices w ->
device_inbox w' = device_inbox (inbox_save e' w) ->
(forall r, message__user w' r = message__user w r) ->
forall r,
  In r (inbox_rows device params w') <->
  In r (inbox_rows device params w) /\ DeviceInbox.id r <> DeviceInbox.id e'.
Proof.
intros Hst Hd Hi Hu r. rewrite !inbox_rows_In, Hu.
unfold device__nid, device__hid, device_get. rewrite Hd, Hi.
assert (K : DeviceInbox.status r = PENDING ->
            (In r (device_inbox (inbox_save e' w)) <->
             In r (device_inbox w)
             /\ DeviceInbox.id r <> DeviceInbox.id e')).
{ intros Hp. split.
  - unfold inbox_save. cbn [device_inbox with_inbox]. intros H.
    apply in_map_iff in H as [x [Ex Hx]].
    destruct (Z.eqb_spec (DeviceInbox.id x) (DeviceInbox.id e')) as [E | E].
    + subst r. contradiction.
    + subst r. auto.
  - intros [H Hne]. now apply inbox_save_others. }
tauto.
Qed.

Section ListingAfterWrites.

Variable clock : nat -> Z.

(** What an acknowledgement writes. *)
Lemma acknowledge_message_world :
forall (user : Owner.t) (device : Device.t) (message_id : Z) (w : World)
       (e : DeviceInbox.t),
  has_permission device user = true ->
  inbox_get (Device.device_id device) message_id w = Returned e ->
  let w' := snd (acknowledge_message clock user device message_id w) in
  devices w' = devices w
  /\ broker w' = broker w
  /\ device_inbox w'
     = device_inbox
         (inbox_save (DeviceInbox.set_acknowledged_at (Some (clock (ticks w)))
                        (DeviceInbox.set_status ACKNOWLEDGED e)) w)
  /\ (forall r, message__user w' r = message__user w r).
Proof.
intros user device mid w e Hp Hg. cbv zeta.
unfold acknowledge_message, timezone_now. rewrite Hp, Hg. cbn [negb].
set (e' := DeviceInbox.set_acknowledged_at (Some (clock (ticks w)))
             (DeviceInbox.set_status ACKNOWLEDGED e)).
set (w1 := mkWorld (devices w) (messages w) (device_inbox w) (inbox_seq w)
                   (broker w) (S (ticks w))).
change (message_get (DeviceInbox.message e') (inbox_save e' w1))
  with (message_get (DeviceInbox.message e) w).
destruct (message_get (DeviceInbox.message e) w) as [m |] eqn:Hm.
- assert (Hmid : Message.message_id m = DeviceInbox.message e).
  { unfold message_get in Hm. apply find_some in Hm as [_ K].
    now apply Z.eqb_eq. }
  assert (U : forall m' w0,
            Message.message_id m' = Message.message_id m ->
            Message.user m' = Message.user m ->
            messages w0 = messages w ->
            forall r, message__user (message_save m' w0) r
                      = message__user w r).
  { intros m' w0 Ei Eu Em r.
    assert (Hm0 : message_get (Message.message_id m') w0 = Some m)
      by (unfold message_get; rewrite Em, Ei, Hmid; exact Hm).
    rewrite (message__user_save m m' w0 Hm0 Eu).
    unfold message__user, message_get. now rewrite Em. }
  destruct (Message.last_read_at m); cbn [fst snd];
    (split; [reflexivity |]); (split; [reflexivity |]);
    (split; [reflexivity |]); now apply U.
- cbn [fst snd]. repeat split.
Qed.

(** X20.  An entry that has been acknowledged is no longer listed: after
    [acknowledge_message] has answered for a (device, message) pair, the
    inbox of the device lists what it listed before, the entry of this
    message left out.  Whether the entry was listed before (was pending)
    plays no part. *)
Theorem acknowledged_entry_leaves_inbox :
forall (user : Owner.t) (pk message_id : Z) (params : InboxParams)
       (w : World) (device : Device.t) (e : DeviceInbox.t),
  get_object user pk w = Some device ->
  pk_unique w ->
  inbox_get pk message_id w = Returned e ->
  let r := acknowledge_view clock user pk message_id w in
  fst r <> HTTP_404_NOT_FOUND
  /\ exists rows rows',
      inbox user pk params w = View_200 rows
      /\ inbox user pk params (snd r) = View_200 rows'
      /\ forall x, In x rows' <->
                   In x rows /\ DeviceInbox.message x <> message_id.
Proof.
intros user pk mid params w device e Hg Hn Hi r.
pose proof (get_object_Some _ _ _ _ Hg) as [Hd [Hpk [Ha Hp]]].
subst r. unfold acknowledge_view. rewrite Hg. subst pk.
destruct (acknowledge_message_world user device mid w e Hp Hi)
  as [Wd [_ [Wi Wu]]]. cbv zeta in Wd, Wi, Wu.
split.
- unfold acknowledge_message, timezone_now. rewrite Hp, Hi. cbn [negb].
  destruct (message_get _ _) as [m |]; [| discriminate].
  destruct (Message.last_read_at m); discriminate.
- exists (inbox_rows device params w).
  exists (inbox_rows device params
            (snd (acknowledge_message clock user device mid w))).
  split; [unfold inbox; now rewrite Hg, Hp |].
  split.
  { unfold inbox, get_object, get_queryset. rewrite Wd.
    fold (get_queryset user w). fold (get_object user (Device.device_id device) w).
    now rewrite Hg, Hp. }
  intros x.
  rewrite (inbox_rows_after_save device params w _
             (DeviceInbox.set_acknowledged_at (Some (clock (ticks w)))
                (DeviceInbox.set_status ACKNOWLEDGED e)));
    [| discriminate | exact Wd | exact Wi | exact Wu].
  cbn [DeviceInbox.id DeviceInbox.set_acknowledged_at
       DeviceInbox.set_status].
  apply inbox_get_returned in Hi.
  assert (He : In e (device_inbox w)
               /\ same_pair (Device.device_id device) mid e = true)
    by (apply filter_In; rewrite Hi; now left).
  destruct He as [He Hpe]. apply same_pair_true in Hpe as [Hed Hem].
  split; intros [Hx Hne]; (split; [exact Hx |]).
  + intros Hxm. apply Hne.
    apply inbox_rows_In in Hx as [Hx [Hxd _]].
    assert (K : In x (filter (same_pair (Device.device_id device) mid)
                             (device_inbox w))).
    { apply filter_In. split; [exact Hx |]. apply same_pair_true. auto. }
    rewrite Hi in K. destruct K as [<- | []]. reflexivity.
  + intros Hid. apply Hne.
    apply inbox_rows_In in Hx as [Hx _].
    rewrite (NoDup_map_injective DeviceInbox.id _ Hn x e Hx He Hid).
    exact Hem.
Qed.

(** X21.  An entry that has been delivered to the webhook is no longer
    listed either: after a run of [deliver_webhook] that goes through, the
    inbox of the device lists what it listed before without the entry of
    the task. *)
Theorem delivered_entry_leaves_inbox :
forall (post : Network) (inbox_id : Z) (w : World)
       (entry : DeviceInbox.t) (device source : Device.t)
       (message : Message.t) (user : Owner.t) (params : InboxParams),
  post_succeeds post ->
  inbox_get_by_id inbox_id w = Some entry ->
  device_get (DeviceInbox.device entry) w = Some device ->
  message_get (DeviceInbox.message entry) w = Some message ->
  device_get (Message.source_device message) w = Some source ->
  column_truthy (Device.webhook_url device) = true ->
  get_object user (DeviceInbox.device entry) w = Some device ->
  let w' := snd (deliver_webhook clock post inbox_id w) in
  exists rows rows',
    inbox user (DeviceInbox.device entry) params w = View_200 rows
    /\ inbox user (DeviceInbox.device entry) params w' = View_200 rows'
    /\ forall x, In x rows' <-> In x rows /\ DeviceInbox.id x <> inbox_id.
Proof.
intros post inbox_id w entry device source message user params
       Hpost Hi Hd Hm Hs Hu Hg w'.
pose proof (get_object_Some _ _ _ _ Hg) as [_ [_ [_ Hp]]].
pose proof (inbox_get_by_id_pk _ _ _ Hi) as Hpk.
subst w'.
rewrite (deliver_webhook_success clock post inbox_id w entry device source
           message Hpost Hi Hd Hm Hs Hu).
cbn [snd].
set (e' := DeviceInbox.set_delivered_at (Some (clock (ticks w)))
             (DeviceInbox.set_status DELIVERED entry)).
set (w' := inbox_save e' (snd (timezone_now clock w))).
exists (inbox_rows device params w), (inbox_rows device params w').
split; [unfold inbox; now rewrite Hg, Hp |].
split.
{ unfold inbox. change (get_object user (DeviceInbox.device entry) w')
    with (get_object user (DeviceInbox.device entry) w).
  now rewrite Hg, Hp. }
intros x.
rewrite (inbox_rows_after_save device params w w' e');
  [| discriminate | reflexivity | reflexivity | reflexivity].
subst e'. cbn [DeviceInbox.id DeviceInbox.set_delivered_at
               DeviceInbox.set_status].
now rewrite Hpk.
Qed.

End ListingAfterWrites.

Lemma acknowledged_entry_leaves_inbox_witness :
(get_object Sample.alice 2 Sample.world_pending = Some Sample.dev_b
 /\ pk_unique Sample.world_pending
 /\ inbox_get 2 1 Sample.world_pending
    = Returned (Sample.entry 1 2 1 PENDING 0 None))
/\ fst (acknowledge_view Sample.clock Sample.alice 2 1 Sample.world_pending)
   <> HTTP_404_NOT_FOUND.
Proof.
assert (Hn : pk_unique Sample.world_pending).
{ unfold pk_unique. cbn. repeat constructor. intros []. }
split; [repeat split; try reflexivity; exact Hn |].
exact (proj1 (acknowledged_entry_leaves_inbox Sample.clock Sample.alice 2 1
                no_params Sample.world_pending Sample.dev_b
                (Sample.entry 1 2 1 PENDING 0 None) eq_refl Hn eq_refl)).
Defined.

Lemma delivered_entry_leaves_inbox_witness :
(post_succeeds Fixture.succeeding
 /\ inbox_get_by_id 1 Sample.world_pending
    = Some (Sample.entry 1 2 1 PENDING 0 None)
 /\ device_get 2 Sample.world_pending = Some Sample.dev_b
 /\ message_get 1 Sample.world_pending = Some Sample.msg1
 /\ device_get 1 Sample.world_pending = Some Sample.dev_a
 /\ column_truthy (Device.webhook_url Sample.dev_b) = true
 /\ get_object Sample.alice 2 Sample.world_pending = Some Sample.dev_b)
/\ exists rows rows',
    inbox Sample.alice 2 no_params Sample.world_pending = View_200 rows
    /\ inbox Sample.alice 2 no_params
         (snd (deliver_webhook Sample.clock Fixture.succeeding 1
                 Sample.world_pending)) = View_200 rows'
    /\ forall x, In x rows' <-> In x rows /\ DeviceInbox.id x <> 1.
Proof.
assert (Hp : post_succeeds Fixture.succeeding) by (intros u p; reflexivity).
split; [repeat split; try reflexivity; exact Hp |].
exact (delivered_entry_leaves_inbox Sample.clock Fixture.succeeding 1
         Sample.world_pending (Sample.entry 1 2 1 PENDING 0 None)
         Sample.dev_b Sample.dev_a Sample.msg1 Sample.alice no_params
         Hp eq_refl eq_refl eq_refl eq_refl eq_refl eq_refl).
Defined.

Section RoutingAndListing.

Variable clock : nat -> Z.
Variable Distance : Point -> Point -> Float.t.

(** X22.  A routed message shows up in the inbox of each of its targets:
    after the first routing of a message, a user who may act for a
    target finds, in the listing of the inbox of this target asked for
    without filters, an entry for the message, pending and without
    attempts, and this entry is among those that [route_message]
    returned. *)
Theorem routed_message_is_listed :
forall (message : Message.t) (source_device : Device.t) (w : World)
       (user : Owner.t) (d : Device.t),
  seq_fresh w ->
  NoDup (map Device.device_id (devices w)) ->
  (forall e, In e (device_inbox w) ->
             DeviceInbox.message e <> Message.message_id message) ->
  In d (target_devices Distance message source_device w) ->
  has_permission d user = true ->
  let r := route_message clock Distance message source_device w in
  exists rows entries e,
    inbox user (Device.device_id d) no_params (snd r) = View_200 rows
    /\ fst r = Returned entries
    /\ In e entries
    /\ In e rows
    /\ DeviceInbox.message e = Message.message_id message
    /\ fresh_entry e.
Proof.
intros message src w user d Hs Hn Hnew Hd Hp r.
set (targets := target_devices Distance message src w) in *.
destruct (inbox_population_creates clock message targets [] w Hs)
  as [entries [R1 [R2 [R3 R4]]]].
- now apply target_devices_NoDup.
- intros d' _. destruct (existsb _ _) eqn:E; [| reflexivity].
  apply existsb_exists in E as [e [He Hpair]].
  apply same_pair_true in Hpair as [_ Hm]. now apply Hnew in He.
- destruct (inbox_population_frame clock message targets [] w Hs)
    as [_ [Fd _]]. cbv zeta in Fd.
  assert (He : exists e, In e entries
                         /\ DeviceInbox.device e = Device.device_id d).
  { assert (K : In (Device.device_id d) (map DeviceInbox.device entries))
      by (rewrite R3; now apply in_map).
    apply in_map_iff in K as [e [Ee He]]. exists e. auto. }
  destruct He as [e [He Hed]].
  pose proof (proj1 (Forall_forall _ _) R4 e He) as [Hfresh Hmsg].
  assert (Hdev : In d (devices w) /\ Device.active d = true).
  { unfold targets, target_devices in Hd.
    apply distance_filtering_incl, nid_filtering_incl in Hd.
    unfold group_filtering in Hd. apply filter_In in Hd as [Hd1 Hd2].
    apply andb_true_iff in Hd2 as [Hd2 _].
    apply andb_true_iff in Hd2 as [_ Ha]. auto. }
  destruct Hdev as [Hdw Ha].
  subst r. unfold route_message. fold targets.
  set (w' := snd (inbox_population clock message targets [] w)) in *.
  assert (Hg : get_object user (Device.device_id d) w' = Some d).
  { apply get_object_found; rewrite ?Fd; auto. }
  exists (inbox_rows d no_params w'), entries, e.
  split; [unfold inbox; now rewrite Hg, Hp |].
  split; [exact R1 |]. split; [exact He |].
  split; [| auto].
  apply inbox_rows_In. rewrite R2.
  split; [apply in_or_app; now right |].
  split; [exact Hed |]. split; [exact (proj1 Hfresh) |].
  cbn. repeat split; discriminate.
Qed.

End RoutingAndListing.

Lemma routed_message_is_listed_witness :
(seq_fresh Sample.world0
 /\ NoDup (map Device.device_id (devices Sample.world0))
 /\ (forall e, In e (device_inbox Sample.world0) ->
               DeviceInbox.message e <> Message.message_id Sample.msg1)
 /\ In Sample.dev_b
       (target_devices Sample.Distance Sample.msg1 Sample.dev_a Sample.world0)
 /\ has_permission Sample.dev_b Sample.alice = true)
/\ exists rows entries e,
    inbox Sample.alice 2 no_params
      (snd (route_message Sample.clock Sample.Distance Sample.msg1
              Sample.dev_a Sample.world0)) = View_200 rows
    /\ fst (route_message Sample.clock Sample.Distance Sample.msg1
              Sample.dev_a Sample.world0) = Returned entries
    /\ In e entries
    /\ In e rows
    /\ DeviceInbox.message e = 1
    /\ fresh_entry e.
Proof.
assert (Hs : seq_fresh Sample.world0) by (intros e []).
assert (Hn : NoDup (map Device.device_id (devices Sample.world0))).
{ cbn. repeat constructor; cbn; intuition discriminate. }
assert (Hnew : forall e, In e (device_inbox Sample.world0) ->
                 DeviceInbox.message e <> Message.message_id Sample.msg1)
  by (intros e []).
assert (Hd : In Sample.dev_b
               (target_devices Sample.Distance Sample.msg1 Sample.dev_a
                  Sample.world0)) by (vm_compute; tauto).
split; [repeat split; assumption |].
exact (routed_message_is_listed Sample.clock Sample.Distance Sample.msg1
         Sample.dev_a Sample.world0 Sample.alice Sample.dev_b
         Hs Hn Hnew Hd eq_refl).
Defined.

(* ================================================================== *)
(** ** The users of a device and the default groups                    *)
(* ================================================================== *)

Lemma add_user_invariant (u : Z) (device device' : Device.t) :
add_user u device = Some device' ->
(List.length (Device.users device) <= MAX_USERS)%nat ->
NoDup (Device.users device) ->
(List.length (Device.users device') <= MAX_USERS)%nat
/\ NoDup (Device.users device')
/\ In u (Device.users device')
/\ (forall v, In v (Device.users device') <->
              In v (Device.users device) \/ v = u)
/\ Device.device_id device' = Device.device_id device
/\ Device.owner device' = Device.owner device.
Proof.
unfold add_user. intros H Hl Hn.
destruct (Nat.leb_spec MAX_USERS (List.length (Device.users device)))
  as [L | L]; [discriminate |].
destruct (existsb (Z.eqb u) (Device.users device)) eqn:E; cbn [negb] in H;
  injection H as <-.
- apply existsb_exists in E as [v [Hv Ev]]. apply Z.eqb_eq in Ev. subst v.
  repeat split; auto. intros [K | ->]; assumption.
- cbn [Device.users Device.device_id Device.owner].
  assert (Hu : ~ In u (Device.users device)).
  { intros K. apply Bool.not_true_iff_false in E. apply E.
    apply existsb_exists. exists u. split; [exact K | apply Z.eqb_refl]. }
  split; [rewrite length_app; cbn; lia |].
  split.
  { apply NoDup_app; [exact Hn | repeat constructor; intros [] |].
    intros x Hx [<- | []]. contradiction. }
  split; [apply in_or_app; right; now left |].
  split; [| auto].
  intros v. rewrite in_app_iff. cbn. intuition.
Qed.

(** X23.  A device never gets more than six users through [add_user]:
    starting from at most six distinct users, any run of [add_user]
    calls (the refused ones raising [ValueError]) leaves at most six
    users, all distinct; no user is taken off, every user of the device
    afterwards was one before or is one of those added, and
    [get_user_ids] returns all of them. *)
Theorem add_users_bounded :
forall (users : list Z) (device : Device.t),
  (List.length (Device.users device) <= MAX_USERS)%nat ->
  NoDup (Device.users device) ->
  let device' := add_users users device in
  (List.length (Device.users device') <= MAX_USERS)%nat
  /\ NoDup (Device.users device')
  /\ incl (Device.users device) (Device.users device')
  /\ (forall v, In v (Device.users device') ->
                In v (Device.users device) \/ In v users)
  /\ get_user_ids device' = Device.users device'
  /\ Device.device_id device' = Device.device_id device.
Proof.
induction users as [| u rest IH]; intros device Hl Hn; cbv zeta.
- cbn [add_users]. repeat split; auto.
  + apply incl_refl.
  + unfold get_user_ids. now apply firstn_all2.
- cbn [add_users]. destruct (add_user u device) as [d1 |] eqn:E.
  + destruct (add_user_invariant u device d1 E Hl Hn)
      as [Hl1 [Hn1 [_ [Hiff [Hid _]]]]].
    destruct (IH d1 Hl1 Hn1) as [A [B [C [D [G I]]]]].
    split; [exact A |]. split; [exact B |].
    split; [intros v Hv; apply C, Hiff; now left |].
    split; [| split; [exact G | congruence]].
    intros v Hv. destruct (D v Hv) as [K | K].
    * apply Hiff in K as [K | ->]; [now left | right; now left].
    * right. now right.
  + destruct (IH device Hl Hn) as [A [B [C [D [G I]]]]].
    split; [exact A |]. split; [exact B |]. split; [exact C |].
    split; [| split; [exact G | exact I]].
    intros v Hv. destruct (D v Hv) as [K | K]; [now left | right; now right].
Qed.

Lemma add_users_bounded_witness :
((List.length (Device.users Fixture.dev_shared) <= MAX_USERS)%nat
 /\ NoDup (Device.users Fixture.dev_shared))
/\ (List.length
      (Device.users (add_users [1; 2; 3; 4; 5; 6; 7; 8]%Z Fixture.dev_shared))
    <= MAX_USERS)%nat.
Proof.
assert (Hl : (List.length (Device.users Fixture.dev_shared) <= MAX_USERS)%nat)
  by (cbn; unfold MAX_USERS; lia).
assert (Hn : NoDup (Device.users Fixture.dev_shared))
  by (cbn; repeat constructor; intros []).
split; [split; assumption |].
exact (proj1 (add_users_bounded [1; 2; 3; 4; 5; 6; 7; 8] Fixture.dev_shared
                Hl Hn)).
Defined.

(** X24.  [ensure_default_groups] fills an empty table only: on an empty
    table it creates the six groups of [DEFAULT_GROUPS], one of each
    type, under six new keys in a row, and returns [True]; on a table
    with a row it returns [False] and writes nothing.  Either way the
    table has a row afterwards, so that a second call does nothing. *)
Theorem ensure_default_groups_once :
forall (t : GroupTable),
  let r := ensure_default_groups t in
  (fst r = true <-> group_rows t = [])
  /\ (fst r = false -> snd r = t)
  /\ (fst r = true ->
      map (fun g => Group.group_type (row_group g)) (group_rows (snd r))
      = [PRIVATE; EXCLUSIVE; OPEN; DATA_LOGGING; ENHANCED; LOCATION]
      /\ map (fun g => Group.group_id (row_group g)) (group_rows (snd r))
         = map (fun k => group_seq t + k) [0; 1; 2; 3; 4; 5]
      /\ group_seq (snd r) = group_seq t + 6)
  /\ ensure_default_groups (snd r) = (false, snd r).
Proof.
intros t. cbv zeta. unfold ensure_default_groups.
destruct (group_rows t) as [| g rest] eqn:E.
- cbn [fst snd DEFAULT_GROUPS fold_left group_create group_rows group_seq].
  rewrite E. cbn [app map Group.group_type Group.group_id row_group].
  split; [tauto |]. split; [discriminate |].
  split; [| reflexivity].
  intros _. rewrite Z.add_0_r.
  repeat split; try reflexivity.
  + repeat (apply f_equal2; [lia |]). reflexivity.
  + lia.
- cbn [fst snd]. rewrite E.
  split; [split; discriminate |]. split; [reflexivity |].
  split; [discriminate | reflexivity].
Qed.

(** X25.  The propagate object that the serializer shows for a device
    agrees with the filters that routing applies for its group: the type
    is communal when the group uses the NID only, radial when it uses the
    distance only, and enhance when it uses both; a NID is shown only for
    a group that uses the NID, and the radius shown is the radius of the
    group for a group that uses the distance and none otherwise.  In a
    group that uses the NID, a device with a NID of its own is never
    shown without one. *)
Theorem get_propagate_agrees_with_routing :
forall (obj : Device.t),
  exists p,
    get_propagate obj = Some p
    /\ propagate_type p
       = (if Group.uses_nid (Device.group obj)
          then if Group.uses_distance (Device.group obj)
               then enhance else communal
          else radial)
    /\ (Group.uses_nid (Device.group obj) = false -> propagate_nid p = None)
    /\ propagate_radius p
       = (if Group.uses_distance (Device.group obj)
          then Group.radius (Device.group obj) else None)
    /\ (column_truthy (propagate_nid p) = false ->
        Group.uses_nid (Device.group obj) = true ->
        column_truthy (Device.nid obj) = false).
Proof.
intros obj. unfold get_propagate, Group.uses_nid, Group.uses_distance.
destruct (Group.group_type (Device.group obj)); eexists;
  (split; [reflexivity |]); cbn [propagate_type propagate_nid propagate_radius];
  repeat split; try discriminate;
  unfold nid_or; try (cbn; discriminate);
  (destruct (column_truthy (Device.nid obj)) eqn:E; intros H _;
   [congruence | reflexivity]).
Qed.
